(** * better-file-color: colour resolution, palette validation and group ordering

    A shallow embedding of [src/plugin/FileColorPlugin.ts] and
    [src/modules/SettingsPanel/index.tsx].

    JavaScript strings are modelled by [string]; the built-ins whose result
    depends on Unicode tables or on the host application ([String.prototype.trim],
    [toLowerCase], [RegExp] on user patterns, the vault and the metadata cache)
    are fields of a [Host] record, so every general statement holds for any
    behaviour of them.  The fixed hexadecimal patterns of the source are
    modelled as boolean matchers.  Priorities are integers ([Z]); the sums
    and differences the handlers store are rounded as doubles are
    ([JS.add], [JS.sub]). *)

From Stdlib Require Import String Ascii List ZArith Bool Lia Permutation Sorted.
From Stdlib Require Import DecimalString.
Import ListNotations.
Open Scope string_scope.
Open Scope Z_scope.

(** ** JavaScript string primitives *)

Module JS.

(** [s.startsWith(p)] *)
Definition startsWith (s p : string) : bool := String.prefix p s.

(** [s.includes(needle)] *)
Fixpoint includes (s needle : string) : bool :=
  if String.prefix needle s then true
  else match s with
       | EmptyString => false
       | String _ rest => includes rest needle
       end.

(** [s.lastIndexOf(c)] for a one-character needle; [-1] when absent. *)
Fixpoint lastIndexOf (s : string) (c : ascii) : Z :=
  match s with
  | EmptyString => -1
  | String d rest =>
      let i := lastIndexOf rest c in
      if 0 <=? i then i + 1
      else if Ascii.eqb d c then 0 else -1
  end.

(** [s.substring(start)] with [start >= 0]. *)
Definition substringFrom (s : string) (start : Z) : string :=
  String.substring (Z.to_nat start) (String.length s) s.

(** Truthiness of a [string | undefined] value. *)
Definition truthy (v : option string) : bool :=
  match v with
  | Some s => negb (String.eqb s "")
  | None => false
  end.

Definition isHexDigit (c : ascii) : bool :=
  let n := nat_of_ascii c in
  ((48 <=? n) && (n <=? 57) || (65 <=? n) && (n <=? 70)
   || (97 <=? n) && (n <=? 102))%nat.

Fixpoint allHex (s : string) : bool :=
  match s with
  | EmptyString => true
  | String c rest => isHexDigit c && allHex rest
  end.

(** [/^[0-9A-Fa-f]{n}$/.test(s)] *)
Definition testHex (n : nat) (s : string) : bool :=
  Nat.eqb (String.length s) n && allHex s.

(** [/^#[0-9A-Fa-f]{6}$/.test(s)] *)
Definition testHashHex6 (s : string) : bool :=
  match s with
  | String c rest => Ascii.eqb c "#" && testHex 6 rest
  | EmptyString => false
  end.

(** [/^#?[0-9A-Fa-f]{6}$/.test(s)] *)
Definition testOptHashHex6 (s : string) : bool :=
  match s with
  | String c rest => if Ascii.eqb c "#" then testHex 6 rest else testHex 6 s
  | EmptyString => false
  end.

Definition upperChar (c : ascii) : ascii :=
  let n := nat_of_ascii c in
  if ((97 <=? n) && (n <=? 122))%nat then ascii_of_nat (n - 32) else c.

(** [s.toUpperCase()]; the source applies it to strings of hexadecimal
    digits only, where it is the ASCII mapping. *)
Fixpoint toUpperCase (s : string) : string :=
  match s with
  | EmptyString => EmptyString
  | String c rest => String (upperChar c) (toUpperCase rest)
  end.

(** [s.split('').map(c => c + c).join('')] *)
Fixpoint doubleChars (s : string) : string :=
  match s with
  | EmptyString => EmptyString
  | String c rest => String c (String c (doubleChars rest))
  end.

(** [String(n)] for a safe integer [n] (magnitude below [2^53]), which
    JavaScript prints with all its decimal digits; statements about the text
    of a number carry that bound as a hypothesis. *)
Definition stringOfZ (n : Z) : string := NilZero.string_of_int (Z.to_int n).

(** [Number.isSafeInteger(n)] for an integer [n]. *)
Definition isSafeInteger (n : Z) : Prop := Z.abs n < 2 ^ 53.

(** The number that JavaScript arithmetic returns for the exact integer
    result [n]: the nearest double, ties going to the even significand.
    Up to [2^53] every integer is a double; above, doubles of magnitude
    between [2^e] and [2^(e+1)] are the multiples of [2^(e-52)]. *)
Definition toDouble (n : Z) : Z :=
  if Z.abs n <=? 2 ^ 53 then n
  else
    let ulp := 2 ^ (Z.log2 (Z.abs n) - 52) in
    let q := n / ulp in
    let r := n mod ulp in
    if 2 * r <? ulp then q * ulp
    else if ulp <? 2 * r then (q + 1) * ulp
    else if Z.even q then q * ulp
    else (q + 1) * ulp.

(** [a + b] and [a - b] on integer-valued numbers. *)
Definition add (a b : Z) : Z := toDouble (a + b).
Definition sub (a b : Z) : Z := toDouble (a - b).

(** The members every plain object inherits from [Object.prototype], each
    with the text [String] gives for it (as V8 prints native functions). *)
Definition objectPrototype : list (string * string) :=
  [("constructor", "function Object() { [native code] }");
   ("__proto__", "[object Object]");
   ("hasOwnProperty", "function hasOwnProperty() { [native code] }");
   ("isPrototypeOf", "function isPrototypeOf() { [native code] }");
   ("propertyIsEnumerable",
    "function propertyIsEnumerable() { [native code] }");
   ("toLocaleString", "function toLocaleString() { [native code] }");
   ("toString", "function toString() { [native code] }");
   ("valueOf", "function valueOf() { [native code] }");
   ("__defineGetter__", "function __defineGetter__() { [native code] }");
   ("__defineSetter__", "function __defineSetter__() { [native code] }");
   ("__lookupGetter__", "function __lookupGetter__() { [native code] }");
   ("__lookupSetter__", "function __lookupSetter__() { [native code] }")].

(** The text of the inherited member [key], if there is one. *)
Fixpoint inheritedText (table : list (string * string)) (key : string)
  : option string :=
  match table with
  | [] => None
  | (k, text) :: rest =>
      if String.eqb k key then Some text else inheritedText rest key
  end.

(** [String(n)] for an array length. *)
Definition stringOfNat (n : nat) : string := stringOfZ (Z.of_nat n).

(** [xs.join(sep)] *)
Fixpoint join (sep : string) (xs : list string) : string :=
  match xs with
  | [] => ""
  | [x] => x
  | x :: rest => x ++ sep ++ join sep rest
  end.

(** [xs.push(x)] *)
Definition push {A : Type} (xs : list A) (x : A) : list A := app xs [x].

End JS.

(** ** Settings ([FileColorPluginSettings]) *)

Record Color := mkColor {
  color_id : string;
  color_name : string;
  color_value : string
}.

Record FileColor := mkFileColor {
  fc_path : string;
  fc_color : string
}.

Inductive ConditionType := CRegex | CProperty.
Inductive PropertyOperator := OpEquals | OpContains | OpExists.

Record Condition := mkCondition {
  cond_id : string;
  cond_type : ConditionType;
  pattern : string;
  matchFullPath : bool;
  propertyName : string;
  propertyValue : string;
  propertyOperator : PropertyOperator
}.

Record Group := mkGroup {
  group_id : string;
  group_name : string;
  colorId : string;
  usePropertyAsColor : bool;
  propertyNameForColor : string;
  enabled : bool;
  priority : Z;
  conditions : list Condition
}.

Record Settings := mkSettings {
  cascadeColors : bool;
  colorBackground : bool;
  folderNotesCompatibility : bool;
  palette : list Color;
  fileColors : list FileColor;
  groups : list Group
}.

Definition defaultSettings : Settings :=
  mkSettings false false false [] [] [].

Definition setPriority (g : Group) (p : Z) : Group :=
  mkGroup (group_id g) (group_name g) (colorId g) (usePropertyAsColor g)
          (propertyNameForColor g) (enabled g) p (conditions g).

Definition setFileColors (s : Settings) (fcs : list FileColor) : Settings :=
  mkSettings (cascadeColors s) (colorBackground s) (folderNotesCompatibility s)
             (palette s) fcs (groups s).

Definition setGroups (s : Settings) (gs : list Group) : Settings :=
  mkSettings (cascadeColors s) (colorBackground s) (folderNotesCompatibility s)
             (palette s) (fileColors s) gs.

Definition setPalette (s : Settings) (p : list Color) : Settings :=
  mkSettings (cascadeColors s) (colorBackground s) (folderNotesCompatibility s)
             p (fileColors s) (groups s).

(** ** Frontmatter values and the host application *)

(** Scalars of a parsed frontmatter; numbers are integers. *)
Inductive Scalar :=
| SString (s : string)
| SNumber (n : Z)
| SBool (b : bool)
| SNull.

(** A property value: a scalar, a list of scalars, or an object or
    function, of which only the text that [String] gives matters. *)
Inductive Value :=
| VScalar (s : Scalar)
| VArray (elems : list Scalar)
| VObject (text : string).

(** [String(v)] *)
Definition stringOfScalar (v : Scalar) : string :=
  match v with
  | SString s => s
  | SNumber n => JS.stringOfZ n
  | SBool true => "true"
  | SBool false => "false"
  | SNull => "null"
  end.

(** An array element inside [Array.prototype.join]: [null] prints as empty. *)
Definition joinElem (v : Scalar) : string :=
  match v with
  | SNull => ""
  | _ => stringOfScalar v
  end.

Definition stringOfValue (v : Value) : string :=
  match v with
  | VScalar s => stringOfScalar s
  | VArray elems => JS.join "," (map joinElem elems)
  | VObject text => text
  end.

(** Truthiness of a frontmatter value. *)
Definition valueTruthy (v : Value) : bool :=
  match v with
  | VScalar (SString s) => negb (String.eqb s "")
  | VScalar (SNumber n) => negb (n =? 0)
  | VScalar (SBool b) => b
  | VScalar SNull => false
  | VArray _ => true
  | VObject _ => true
  end.

(** The numbers of a value are safe integers, where [stringOfScalar] gives
    the digits [String] gives. *)
Definition safeScalar (v : Scalar) : Prop :=
  match v with
  | SNumber n => JS.isSafeInteger n
  | _ => True
  end.

Definition safeValue (v : Value) : Prop :=
  match v with
  | VScalar x => safeScalar x
  | VArray elems => Forall safeScalar elems
  | VObject _ => True
  end.

Definition Frontmatter := list (string * Value).

(** The own property [key] of the frontmatter object. *)
Fixpoint getOwnProperty (fm : Frontmatter) (key : string) : option Value :=
  match fm with
  | [] => None
  | (k, v) :: rest =>
      if String.eqb k key then Some v else getOwnProperty rest key
  end.

(** [frontmatter[key]]; [None] is [undefined].  The frontmatter is a plain
    object: a key it does not hold itself is looked up in
    [Object.prototype]. *)
Definition getProperty (fm : Frontmatter) (key : string) : option Value :=
  match getOwnProperty fm key with
  | Some v => Some v
  | None => option_map VObject (JS.inheritedText JS.objectPrototype key)
  end.

(** What [vault.getAbstractFileByPath] returns: a file carries an
    [extension], a folder does not. *)
Inductive AbstractFile :=
| TFile (extension : string)
| TFolder.

Record Host := mkHost {
  (** [s.trim()] *)
  trim : string -> string;
  (** [s.toLowerCase()] *)
  toLowerCase : string -> string;
  (** [new RegExp(pattern).test(target)]; [None] when the constructor throws. *)
  regexTest : string -> string -> option bool;
  getAbstractFileByPath : string -> option AbstractFile;
  (** [metadataCache.getFileCache(file)?.frontmatter], by the file's path. *)
  getFrontmatter : string -> option Frontmatter
}.

(** The markdown test [file && 'extension' in file && file.extension === 'md']. *)
Definition isMarkdown (h : Host) (path : string) : bool :=
  match getAbstractFileByPath h path with
  | Some (TFile ext) => String.eqb ext "md"
  | _ => false
  end.

(** ** Sorting by priority

    Both files sort with the comparator [(a, b) => b.priority - a.priority]. *)

(** Insertion of [g] in a list sorted by the comparator
    [(a, b) => b.priority - a.priority]: [g] goes in front of the first
    element it does not compare greater than.  Only the sign of the
    difference is used, and rounding keeps the sign ([comparator_sign]
    below), so the exact difference is written here. *)
Fixpoint insertByPriority (g : Group) (gs : list Group) : list Group :=
  match gs with
  | [] => [g]
  | x :: rest =>
      if priority x - priority g <=? 0 then g :: x :: rest
      else x :: insertByPriority g rest
  end.

(** [gs.sort((a, b) => b.priority - a.priority)]: [Array.prototype.sort]
    is stable, and a stable sort has one possible result
    ([sortByPriority_unique] below), the one of this insertion sort. *)
Fixpoint sortByPriority (gs : list Group) : list Group :=
  match gs with
  | [] => []
  | g :: rest => insertByPriority g (sortByPriority rest)
  end.

(** ** The plugin ([FileColorPlugin.ts]) *)

Module Plugin.

(** [evaluateCondition(path, condition)]; the [async] wrapper only delays
    the result, and both [catch] blocks return [false]. *)
Definition evaluateCondition (h : Host) (path : string) (c : Condition) : bool :=
  match cond_type c with
  | CRegex =>
      let targetString :=
        if matchFullPath c then path
        else JS.substringFrom path (JS.lastIndexOf path "/" + 1) in
      match regexTest h (pattern c) targetString with
      | Some b => b
      | None => false
      end
  | CProperty =>
      if negb (isMarkdown h path) then false
      else
        match getFrontmatter h path with
        | None => false
        | Some frontmatter =>
            match getProperty frontmatter (propertyName c) with
            | None => false
            | Some propValue =>
                match propertyOperator c with
                | OpExists => true
                | OpEquals =>
                    String.eqb (stringOfValue propValue) (propertyValue c)
                | OpContains =>
                    match propValue with
                    | VArray elems =>
                        existsb (fun v => String.eqb (stringOfScalar v)
                                                     (propertyValue c)) elems
                    | VScalar _ | VObject _ =>
                        JS.includes (stringOfValue propValue) (propertyValue c)
                    end
                end
            end
        end
  end.

(** [conditionsResults.every(result => result === true)] over
    [group.conditions.map(evaluateCondition)]. *)
Definition allConditionsMatch (h : Host) (path : string) (g : Group) : bool :=
  forallb (fun b => Bool.eqb b true)
          (map (evaluateCondition h path) (conditions g)).

(** The group matcher as the loop body has it: the guard on an empty
    condition list comes first. *)
Definition groupMatches (h : Host) (path : string) (g : Group) : bool :=
  match conditions g with
  | [] => false
  | _ :: _ => allConditionsMatch h path g
  end.

(** The hexadecimal colour read from the text [raw] of a property:
    [hexPattern.test(colorStr)] and the added [#]. *)
Definition hexFromProperty (h : Host) (raw : string) : option string :=
  let colorStr := trim h raw in
  if JS.testOptHashHex6 colorStr then
    Some (if JS.startsWith colorStr "#" then colorStr else "#" ++ colorStr)
  else None.

(** The colour taken from the frontmatter property of a
    [usePropertyAsColor] group; [None] leaves [colorValue] as it was. *)
Definition colorFromProperty (h : Host) (path : string) (g : Group)
  : option string :=
  if isMarkdown h path then
    match getFrontmatter h path with
    | None => None
    | Some frontmatter =>
        match getProperty frontmatter (propertyNameForColor g) with
        | None => None
        | Some v =>
            if valueTruthy v then hexFromProperty h (stringOfValue v)
            else None
        end
    end
  else None.

(** State of the loop over [enabledGroups]: [colorValue] and [isHexColor]. *)
Definition LoopState := (option string * bool)%type.

(** The body of [if (allConditionsMatch) { ... }] up to the [break] test:
    the new loop state. *)
Definition assignColor (h : Host) (path : string) (g : Group)
           (st : LoopState) : LoopState :=
  if usePropertyAsColor g then
    match colorFromProperty h path g with
    | Some c => (Some c, true)
    | None => st
    end
  else (Some (colorId g), snd st).

(** [for (const group of enabledGroups) { ... }]; returning the state is
    the [break]. *)
Fixpoint groupLoop (h : Host) (path : string) (gs : list Group)
         (st : LoopState) : LoopState :=
  match gs with
  | [] => st
  | g :: rest =>
      match conditions g with
      | [] => groupLoop h path rest st
      | _ :: _ =>
          if allConditionsMatch h path g then
            let st' := assignColor h path g st in
            if JS.truthy (fst st') then st' else groupLoop h path rest st'
          else groupLoop h path rest st
      end
  end.

(** [settings.groups.filter(group => group.enabled).sort(...)] *)
Definition enabledGroups (s : Settings) : list Group :=
  sortByPriority (filter enabled (groups s)).

(** [settings.fileColors.find(file => file.path === path)] *)
Definition findManual (s : Settings) (path : string) : option FileColor :=
  find (fun file => String.eqb (fc_path file) path) (fileColors s).

(** Steps 1 and 2 of [applyColorStylesInternal] for one file item: the
    final [colorValue] and [isHexColor]. *)
Definition resolveColor (h : Host) (s : Settings) (path : string) : LoopState :=
  let colorValue := option_map fc_color (findManual s path) in
  if negb (JS.truthy colorValue) then
    groupLoop h path (enabledGroups s) (colorValue, false)
  else (colorValue, false).

Inductive StyleUpdate :=
| SetProperty (value : string)
| RemoveProperty
| NoUpdate.

Record ItemStyle := mkItemStyle {
  classList : list string;
  colorProperty : StyleUpdate
}.

(** Step 3 of [applyColorStylesInternal] for one file item whose element
    carries the classes [current]: the new class list and the update of the
    inline [--file-color-color] property.  (Step 4 writes to the element of
    the parent folder and is not part of this function.) *)
Definition applyToItem (h : Host) (s : Settings) (path : string)
           (current : list string) : ItemStyle :=
  let cssType := if colorBackground s then "background" else "text" in
  let itemClasses :=
    filter (fun cls => negb (JS.startsWith cls "file-color")) current in
  match resolveColor h s path with
  | (Some colorValue, isHexColor) =>
      if negb (String.eqb colorValue "") then
        let cls1 := JS.push itemClasses "file-color-file" in
        let cls2 := if isHexColor then cls1
                    else JS.push cls1 ("file-color-color-" ++ colorValue) in
        let cls3 := JS.push cls2 ("file-color-type-" ++ cssType) in
        let cls4 := if cascadeColors s then JS.push cls3 "file-color-cascade"
                    else cls3 in
        mkItemStyle cls4
                    (if isHexColor then SetProperty colorValue else NoUpdate)
      else mkItemStyle itemClasses RemoveProperty
  | (None, _) => mkItemStyle itemClasses RemoveProperty
  end.

(** One rule of the style sheet written by [generateColorStyles]:
    [.file-color-color-<id> { --file-color-color: <value>; }]. *)
Record StyleRule := mkStyleRule {
  rule_class : string;
  rule_value : string
}.

Definition generateColorStyles (s : Settings) : list StyleRule :=
  map (fun color => mkStyleRule ("file-color-color-" ++ color_id color)
                                (color_value color))
      (palette s).

(** The [delete] handler of the vault. *)
Definition onDelete (s : Settings) (filePath : string) : Settings :=
  setFileColors s
    (filter (fun fileColor => negb (JS.startsWith (fc_path fileColor) filePath))
            (fileColors s)).

End Plugin.

(** ** The settings panel ([SettingsPanel/index.tsx]) *)

Module Panel.

(** A handler either completes or throws a [TypeError]. *)
Inductive Outcome (A : Type) :=
| Done (a : A)
| TypeError.
Arguments Done {A} a.
Arguments TypeError {A}.

Definition bind {A B : Type} (m : Outcome A) (k : A -> Outcome B) : Outcome B :=
  match m with
  | Done a => k a
  | TypeError => TypeError
  end.

Definition validateAndNormalizeHex (h : Host) (hex : string) : option string :=
  let hex := trim h hex in
  let hex := if JS.startsWith hex "#" then JS.substringFrom hex 1 else hex in
  if JS.testHex 6 hex then Some ("#" ++ JS.toUpperCase hex)
  else if JS.testHex 3 hex then Some ("#" ++ JS.toUpperCase (JS.doubleChars hex))
  else None.

Inductive ErrorType := InvalidHex | DuplicateName.

Record ColorError := mkColorError {
  colorIds : list string;
  message : string;
  errorType : ErrorType
}.

(** Validation 1: one error per colour whose trimmed value is not [#RRGGBB]. *)
Definition invalidHexErrors (h : Host) (palette : list Color) : list ColorError :=
  flat_map
    (fun color =>
       let hex := trim h (color_value color) in
       if negb (JS.testHashHex6 hex)
       then [mkColorError [color_id color] ("Invalid hex color: " ++ hex)
                          InvalidHex]
       else [])
    palette.

(** The object [nameToColors]: its own properties in insertion order. *)
Definition NameMap := list (string * list Color).

(** The properties every object literal inherits from [Object.prototype]. *)
Definition inheritedKeys : list string :=
  ["constructor"; "__proto__"; "hasOwnProperty"; "isPrototypeOf";
   "propertyIsEnumerable"; "toLocaleString"; "toString"; "valueOf";
   "__defineGetter__"; "__defineSetter__"; "__lookupGetter__";
   "__lookupSetter__"].

Definition isInherited (key : string) : bool :=
  existsb (String.eqb key) inheritedKeys.

(** What [nameToColors[key]] evaluates to. *)
Inductive Slot :=
| Own (colors : list Color)
| Inherited
| Undefined.

Fixpoint getOwn (o : NameMap) (key : string) : option (list Color) :=
  match o with
  | [] => None
  | (k, v) :: rest => if String.eqb k key then Some v else getOwn rest key
  end.

Definition getSlot (o : NameMap) (key : string) : Slot :=
  match getOwn o key with
  | Some colors => Own colors
  | None => if isInherited key then Inherited else Undefined
  end.

(** [nameToColors[key] = colors] *)
Fixpoint setOwn (o : NameMap) (key : string) (colors : list Color) : NameMap :=
  match o with
  | [] => [(key, colors)]
  | (k, v) :: rest =>
      if String.eqb k key then (k, colors) :: rest
      else (k, v) :: setOwn rest key colors
  end.

(** The body of the second [palette.forEach]: an array and [undefined] are
    the only values with the expected behaviour; an inherited property is
    truthy and has no [push]. *)
Definition addName (h : Host) (o : NameMap) (color : Color) : Outcome NameMap :=
  let name := toLowerCase h (trim h (color_name color)) in
  if negb (String.eqb name "") then
    let o1 := match getSlot o name with
              | Undefined => setOwn o name []
              | _ => o
              end in
    match getSlot o1 name with
    | Own colors => Done (setOwn o1 name (JS.push colors color))
    | _ => TypeError
    end
  else Done o.

Fixpoint collectNames (h : Host) (palette : list Color) (o : NameMap)
  : Outcome NameMap :=
  match palette with
  | [] => Done o
  | color :: rest => bind (addName h o color) (collectNames h rest)
  end.

Definition quote : string := String "034"%char EmptyString.

(** The value of a decimal numeral, read after the digits of value [acc]. *)
Fixpoint digitsValue (s : string) (acc : N) : option N :=
  match s with
  | EmptyString => Some acc
  | String c rest =>
      let n := N_of_ascii c in
      if (48 <=? n)%N && (n <=? 57)%N
      then digitsValue rest (10 * acc + (n - 48))%N
      else None
  end.

(** The array index a property key denotes: a decimal numeral without a
    leading zero whose value is below [2^32 - 1]. *)
Definition arrayIndex (key : string) : option N :=
  match key with
  | EmptyString => None
  | String c rest =>
      if Ascii.eqb c "0" && negb (String.eqb rest "") then None
      else match digitsValue key 0 with
           | Some n => if (n <? 4294967295)%N then Some n else None
           | None => None
           end
  end.

Fixpoint insertByIndex {A : Type} (e : N * A) (l : list (N * A))
  : list (N * A) :=
  match l with
  | [] => [e]
  | x :: rest =>
      if (fst e <=? fst x)%N then e :: l else x :: insertByIndex e rest
  end.

(** The properties of [o] whose key is an array index, with that index. *)
Definition indexed (o : NameMap) : list (N * (string * list Color)) :=
  flat_map (fun entry => match arrayIndex (fst entry) with
                         | Some n => [(n, entry)]
                         | None => []
                         end)
           o.

(** [Object.entries(o)]: the keys that are array indices come first, in
    ascending order, the other keys follow in insertion order. *)
Definition entries (o : NameMap) : NameMap :=
  (map snd (fold_right insertByIndex [] (indexed o))
   ++ filter (fun entry => match arrayIndex (fst entry) with
                           | Some _ => false
                           | None => true
                           end)
             o)%list.

(** Validation 2: one error per name held by more than one colour, in the
    order of [Object.entries]. *)
Definition duplicateNameErrors (h : Host) (o : NameMap) : list ColorError :=
  flat_map
    (fun entry : string * list Color =>
       let colors := snd entry in
       if (1 <? length colors)%nat then
         [mkColorError
            (map color_id colors)
            ("Duplicate color name " ++ quote
               ++ match colors with
                  | c :: _ => trim h (color_name c)
                  | [] => ""
                  end
               ++ quote ++ " (" ++ JS.stringOfNat (length colors) ++ " colors)")
            DuplicateName]
       else [])
    (entries o).

Inductive SaveResult :=
| Saved (s : Settings)
| Rejected (errors : list ColorError)
| Threw.

(** [onSave]: [palette] is the edited palette of the panel, [s] the
    settings of the plugin. *)
Definition onSave (h : Host) (s : Settings) (palette : list Color) : SaveResult :=
  let errors1 := invalidHexErrors h palette in
  match collectNames h palette [] with
  | TypeError => Threw
  | Done nameToColors =>
      let errors := (errors1 ++ duplicateNameErrors h nameToColors)%list in
      if (0 <? length errors)%nat then Rejected errors
      else
        Saved (setFileColors (setPalette s palette)
                 (filter (fun fileColor =>
                            match find (fun color =>
                                          String.eqb (fc_color fileColor)
                                                     (color_id color)) palette
                            with
                            | Some _ => true
                            | None => false
                            end)
                         (fileColors s)))
  end.

(** [xs.findIndex(f)] *)
Fixpoint findIndex {A : Type} (f : A -> bool) (xs : list A) : Z :=
  match xs with
  | [] => -1
  | x :: rest =>
      if f x then 0
      else let i := findIndex f rest in
           if i <? 0 then -1 else i + 1
  end.

(** [xs[i]]; [None] is [undefined]. *)
Definition at_ {A : Type} (xs : list A) (i : Z) : option A :=
  if i <? 0 then None else nth_error xs (Z.to_nat i).

Definition onGroupMoveUp (groupId : string) (groups : list Group)
  : Outcome (list Group) :=
  let sortedGroups := sortByPriority groups in
  let index := findIndex (fun g => String.eqb (group_id g) groupId) sortedGroups in
  if 0 <? index then
    match at_ sortedGroups index, at_ sortedGroups (index - 1) with
    | Some current, Some higher =>
        let currentPriority := priority current in
        let higherPriority := priority higher in
        Done (map (fun group =>
                     if String.eqb (group_id group) groupId
                     then setPriority group (JS.add higherPriority 1)
                     else if String.eqb (group_id group) (group_id higher)
                     then setPriority group currentPriority
                     else group)
                  groups)
    | _, _ => TypeError
    end
  else Done groups.

Definition onGroupMoveDown (groupId : string) (groups : list Group)
  : Outcome (list Group) :=
  let sortedGroups := sortByPriority groups in
  let index := findIndex (fun g => String.eqb (group_id g) groupId) sortedGroups in
  if index <? Z.of_nat (length sortedGroups) - 1 then
    match at_ sortedGroups index, at_ sortedGroups (index + 1) with
    | Some current, Some lower =>
        let currentPriority := priority current in
        let lowerPriority := priority lower in
        Done (map (fun group =>
                     if String.eqb (group_id group) groupId
                     then setPriority group (JS.sub lowerPriority 1)
                     else if String.eqb (group_id group) (group_id lower)
                     then setPriority group currentPriority
                     else group)
                  groups)
    | _, _ => TypeError
    end
  else Done groups.

Inductive Direction := Up | Down.

(** The two reorder buttons of a group row. *)
Definition reorder (groupId : string) (direction : Direction)
           (groups : list Group) : Outcome (list Group) :=
  match direction with
  | Up => onGroupMoveUp groupId groups
  | Down => onGroupMoveDown groupId groups
  end.

End Panel.

(** ** Derived notions used by the statements *)

(** The colour a matching group yields on its own: a literal hexadecimal
    colour ([true]) or a palette reference ([false]); [None] when the loop
    goes on to the next group. *)
Definition groupColor (h : Host) (path : string) (g : Group)
  : option (string * bool) :=
  if usePropertyAsColor g then
    option_map (fun c => (c, true)) (Plugin.colorFromProperty h path g)
  else if String.eqb (colorId g) "" then None
  else Some (colorId g, false).

(** The colour property of a group is absent from the metadata of the file,
    or its text is not a hexadecimal colour. *)
Definition propertyColorUnusable (h : Host) (path : string) (g : Group) : Prop :=
  forall frontmatter v,
    getFrontmatter h path = Some frontmatter ->
    getProperty frontmatter (propertyNameForColor g) = Some v ->
    JS.testOptHashHex6 (trim h (stringOfValue v)) = false.

(** No manual colour applies to [path]: no entry, or an entry whose colour
    is the empty string. *)
Definition noManualColor (s : Settings) (path : string) : Prop :=
  JS.truthy (option_map fc_color (Plugin.findManual s path)) = false.

(** A loop state that carries no usable colour. *)
Definition idle (st : Plugin.LoopState) : Prop :=
  JS.truthy (fst st) = false /\ snd st = false.

(** The comparator order: [a] may stand before [b]. *)
Definition byPriorityDesc (a b : Group) : Prop := priority b <= priority a.

Definition hasPriority (p : Z) (g : Group) : bool := priority g =? p.

Definition hasConditions (g : Group) : bool :=
  match conditions g with
  | [] => false
  | _ :: _ => true
  end.

(** Hexadecimal normalisation as the specification words it: three or six
    hexadecimal digits with an optional leading [#] give [#RRGGBB] in upper
    case, every other string gives nothing. *)
Definition specNormalizeHex (s : string) : option string :=
  let digits := match s with
                | String c rest => if Ascii.eqb c "#" then rest else s
                | EmptyString => s
                end in
  if JS.allHex digits then
    if Nat.eqb (String.length digits) 6 then Some ("#" ++ JS.toUpperCase digits)
    else if Nat.eqb (String.length digits) 3
         then Some ("#" ++ JS.toUpperCase (JS.doubleChars digits))
         else None
  else None.

(** What [validateAndNormalizeHex] tests after removing the [#]. *)
Definition stripHash (t : string) : string :=
  if JS.startsWith t "#" then JS.substringFrom t 1 else t.

(** A colour in the canonical form [#RRGGBB], upper case. *)
Definition canonicalHex (r : string) : Prop :=
  JS.testHashHex6 r = true /\ JS.toUpperCase r = r.

(** The group at position [i] of the priority-descending ordering. *)
Definition sortedAt (gs : list Group) (i : nat) : option Group :=
  nth_error (sortByPriority gs) i.


(** The key under which [onSave] files a colour name. *)
Definition nameKey (h : Host) (color : Color) : string :=
  toLowerCase h (trim h (color_name color)).

(** ** A host over ASCII text, for the concrete cases *)

Module Ascii7.

Definition isSpace (c : ascii) : bool :=
  let n := nat_of_ascii c in
  (Nat.eqb n 32 || (9 <=? n) && (n <=? 13))%nat.

Fixpoint trimStart (s : string) : string :=
  match s with
  | String c rest => if isSpace c then trimStart rest else s
  | EmptyString => EmptyString
  end.

Fixpoint trimEnd (s : string) : string :=
  match s with
  | EmptyString => EmptyString
  | String c rest =>
      match trimEnd rest with
      | EmptyString => if isSpace c then EmptyString else String c EmptyString
      | rest' => String c rest'
      end
  end.

Definition trim (s : string) : string := trimEnd (trimStart s).

Definition lowerChar (c : ascii) : ascii :=
  let n := nat_of_ascii c in
  if ((65 <=? n) && (n <=? 90))%nat then ascii_of_nat (n + 32) else c.

Fixpoint toLowerCase (s : string) : string :=
  match s with
  | EmptyString => EmptyString
  | String c rest => String (lowerChar c) (toLowerCase rest)
  end.

Definition isAlnum (c : ascii) : bool :=
  let n := nat_of_ascii c in
  ((48 <=? n) && (n <=? 57) || (65 <=? n) && (n <=? 90)
   || (97 <=? n) && (n <=? 122))%nat.

Fixpoint allAlnum (s : string) : bool :=
  match s with
  | EmptyString => true
  | String c rest => isAlnum c && allAlnum rest
  end.

(** A pattern of letters and digits only is a literal: the test is a
    substring search.  Other patterns are not interpreted by this host. *)
Definition regexTest (pattern target : string) : option bool :=
  if allAlnum pattern then Some (JS.includes target pattern) else None.

Fixpoint lookup {A : Type} (table : list (string * A)) (key : string)
  : option A :=
  match table with
  | [] => None
  | (k, v) :: rest => if String.eqb k key then Some v else lookup rest key
  end.

(** A vault holding the markdown files of [notes], each with its
    frontmatter. *)
Definition host (notes : list (string * Frontmatter)) : Host :=
  mkHost trim toLowerCase regexTest
         (fun path => option_map (fun _ => TFile "md") (lookup notes path))
         (lookup notes).

End Ascii7.

(** ** Concrete vaults and settings *)

Module Scenario.

Definition propertyExists (name : string) : Condition :=
  mkCondition "k1" CProperty "" false name "" OpExists.

Definition red : Color := mkColor "c1" "Red" "#FF0000".

(** A note whose [bg] property is not a colour. *)
Definition notePath : string := "notes/a.md".

Definition vault : Host :=
  Ascii7.host [(notePath, [("bg", VScalar (SString "not-a-color"))])].

(** Priority 10: colour taken from the property [bg]. *)
Definition byProperty : Group :=
  mkGroup "g1" "By property" "" true "bg" true 10 [propertyExists "bg"].

(** Priority 1: palette colour [c1]. *)
Definition byPalette : Group :=
  mkGroup "g2" "Tagged" "c1" false "" true 1 [propertyExists "bg"].

Definition settings : Settings :=
  mkSettings false false false [red] [] [byPalette; byProperty].

(** A note with a [status] property and no [color] property. *)
Definition taskPath : string := "tasks/t.md".

Definition taskVault : Host :=
  Ascii7.host [(taskPath, [("status", VScalar (SString "open"))])].

Definition urgent : Group :=
  mkGroup "g3" "Urgent" "" true "color" true 10 [propertyExists "status"].

Definition anyTask : Group :=
  mkGroup "g4" "Tasks" "c1" false "" true 1 [propertyExists "status"].

Definition taskSettings : Settings :=
  mkSettings false false false [red] [] [anyTask; urgent].

(** The property of [urgent] holds a colour. *)
Definition colouredVault : Host :=
  Ascii7.host [(taskPath, [("status", VScalar (SString "open"));
                           ("color", VScalar (SString "00ff00"))])].

(** A manual entry with the colour [c1], beside two groups that match. *)
Definition redManual : Settings :=
  mkSettings false false false [red] [mkFileColor notePath "c1"]
             [byPalette; byProperty].

(** A manual colour whose palette entry is gone. *)
Definition dangling : Settings :=
  mkSettings false false false [red] [mkFileColor notePath "gone"] [].

(** A group without conditions between two others. *)
Definition blank : Group :=
  mkGroup "g5" "New Group" "c1" false "" true 20 [].

End Scenario.

(** Settings around a palette save and a deletion in the vault. *)
Module SaveScenario.

Definition red : Color := mkColor "c1" "Red" "#FF0000".
Definition blue : Color := mkColor "c2" "Blue" "#0000FF".

(** A group that refers to [blue]. *)
Definition blueGroup : Group :=
  mkGroup "g1" "Blue notes" "c2" false "" true 0
          [mkCondition "k1" CProperty "" false "tag" "" OpExists].

Definition before : Settings :=
  mkSettings false false false [red; blue]
             [mkFileColor "a.md" "c1"; mkFileColor "b.md" "c2"]
             [blueGroup].

(** The palette after [blue] has been removed in the panel. *)
Definition edited : list Color := [red].

Definition after : Settings :=
  mkSettings false false false [red] [mkFileColor "a.md" "c1"] [blueGroup].

(** Manual colours of a folder [foo], of its content and of a sibling
    file whose name begins with the same letters. *)
Definition coloured : Settings :=
  mkSettings false false false [red]
             [mkFileColor "foo" "c1"; mkFileColor "foo/a.md" "c1";
              mkFileColor "foobar.md" "c1"; mkFileColor "bar/foo" "c1"]
             [].

Definition host : Host := Ascii7.host [].

End SaveScenario.

(** The update both reorder handlers map over the groups: the group [id1]
    receives the priority [p1], the group [id2] the priority [p2]. *)
Definition withPriorities (id1 : string) (p1 : Z) (id2 : string) (p2 : Z)
           (gs : list Group) : list Group :=
  map (fun group =>
         if String.eqb (group_id group) id1 then setPriority group p1
         else if String.eqb (group_id group) id2 then setPriority group p2
         else group)
      gs.



(** Groups of priorities 5, 3 and 1. *)
Module OrderScenario.

Definition first : Group :=
  mkGroup "A" "First" "c1" false "" true 5
          [mkCondition "k1" CProperty "" false "tag" "" OpExists].

Definition second : Group :=
  mkGroup "B" "Second" "c1" false "" true 3
          [mkCondition "k2" CProperty "" false "tag" "" OpExists].

Definition both : list Group := [first; second].



End OrderScenario.

(** The colours of [pal] filed under the key [k]. *)
Definition sameKey (h : Host) (k : string) (pal : list Color) : list Color :=
  filter (fun c => String.eqb (nameKey h c) k) pal.

(** The colours of [pal] that the grouping of [onSave] files under [k]: the
    empty key is never filed. *)
Definition grouped (h : Host) (k : string) (pal : list Color) : list Color :=
  if String.eqb k "" then [] else sameKey h k pal.

(** Appending filed colours to what a property holds. *)
Definition merge (slot : option (list Color)) (l : list Color)
  : option (list Color) :=
  match slot with
  | Some cs => Some (cs ++ l)%list
  | None => match l with
            | [] => None
            | _ :: _ => Some l
            end
  end.

(** The colour value fails the validation of [onSave]. *)
Definition invalidHex (h : Host) (c : Color) : Prop :=
  JS.testHashHex6 (trim h (color_value c)) = false.

(** No colour name of the palette is filed under a property name inherited
    from [Object.prototype]. *)
Definition plainNames (h : Host) (pal : list Color) : Prop :=
  forall c, In c pal -> Panel.isInherited (nameKey h c) = false.

(** Palettes submitted to [onSave]. *)
Module PaletteScenario.

Definition host : Host := Ascii7.host [].

(** An invalid value and a name that is an inherited property. *)
Definition inherited : list Color :=
  [mkColor "a" "constructor" "#12"].

(** An invalid value and three colours named alike. *)
Definition conflicts : list Color :=
  [mkColor "a" "Red " "#12"; mkColor "b" "red" "#FF0000";
   mkColor "c" " RED" "#00FF00"; mkColor "d" "" "#0000FF"].

End PaletteScenario.

(** ** Further handlers of the plugin *)

Module Vault.

(** The [rename] handler of the vault: every manual colour stored under
    [oldPath] is moved to the new path of the file. *)
Definition onRename (s : Settings) (oldPath newPath : string) : Settings :=
  setFileColors s
    (map (fun fileColor =>
            if String.eqb (fc_path fileColor) oldPath
            then mkFileColor newPath (fc_color fileColor)
            else fileColor)
         (fileColors s)).

End Vault.

Module FolderNotes.

(** [s.substring(0, stop)] with [stop >= 0]. *)
Definition substringTo (s : string) (stop : Z) : string :=
  String.substring 0 (Z.to_nat stop) s.

(** Step 4 of [applyColorStylesInternal], the path test: the folder that
    takes the colour of the file at [path], when the name of the parent
    folder is the name of the file without its extension. *)
Definition target (path : string) : option string :=
  let lastSlashIndex := JS.lastIndexOf path "/" in
  let fileBaseName :=
    if 0 <=? lastSlashIndex then JS.substringFrom path (lastSlashIndex + 1)
    else path in
  let lastDotIndex := JS.lastIndexOf fileBaseName "." in
  let fileNameWithoutExt :=
    if 0 <=? lastDotIndex then substringTo fileBaseName lastDotIndex
    else fileBaseName in
  let parentFolderPath :=
    if 0 <=? lastSlashIndex then substringTo path lastSlashIndex else "" in
  let parentFolderName :=
    JS.substringFrom parentFolderPath
                     (JS.lastIndexOf parentFolderPath "/" + 1) in
  if String.eqb parentFolderName fileNameWithoutExt
  then Some parentFolderPath
  else None.

(** Step 4 in the callback of the file item at [path]: the folder item the
    callback writes to, with the class list and the update of the inline
    property it writes.  [fileItems] gives the classes that the items of
    the file explorer, the own properties of the object [fileItems], carry
    at that moment; a path that names a member of [Object.prototype] and no
    item finds that member, which has no element, and the callback throws.
    This is one write of the pass: the callback of the folder item itself
    writes the class list of the folder as well, at the end of its own
    run. *)
Definition applyToFolder (h : Host) (s : Settings) (path : string)
           (fileItems : string -> option (list string))
  : Panel.Outcome (option (string * Plugin.ItemStyle)) :=
  let cssType := if colorBackground s then "background" else "text" in
  match Plugin.resolveColor h s path with
  | (Some colorValue, isHexColor) =>
      if negb (String.eqb colorValue "") then
        if folderNotesCompatibility s then
          match target path with
          | Some parentFolderPath =>
              match fileItems parentFolderPath with
              | Some current =>
                  let folderClasses :=
                    filter (fun cls => negb (JS.startsWith cls "file-color"))
                           current in
                  let cls1 := JS.push folderClasses "file-color-file" in
                  let cls2 :=
                    if isHexColor then cls1
                    else JS.push cls1 ("file-color-color-" ++ colorValue) in
                  let cls3 := JS.push cls2 ("file-color-type-" ++ cssType) in
                  let cls4 :=
                    if cascadeColors s then JS.push cls3 "file-color-cascade"
                    else cls3 in
                  Panel.Done
                    (Some (parentFolderPath,
                           Plugin.mkItemStyle
                             cls4
                             (if isHexColor then Plugin.SetProperty colorValue
                              else Plugin.NoUpdate)))
              | None =>
                  if Panel.isInherited parentFolderPath then Panel.TypeError
                  else Panel.Done None
              end
          | None => Panel.Done None
          end
        else Panel.Done None
      else Panel.Done None
  | (None, _) => Panel.Done None
  end.

End FolderNotes.

(** The character [c] occurs in [s]. *)
Fixpoint containsChar (c : ascii) (s : string) : bool :=
  match s with
  | EmptyString => false
  | String d rest => Ascii.eqb d c || containsChar c rest
  end.

(** A class that [applyColorStylesInternal] leaves on an element. *)
Definition foreignClass (cls : string) : bool :=
  negb (JS.startsWith cls "file-color").

(** The classes [applyColorStylesInternal] pushes for a resolved colour. *)
Definition colorClasses (h : Host) (s : Settings) (path : string) : list string :=
  match Plugin.resolveColor h s path with
  | (Some colorValue, isHexColor) =>
      if String.eqb colorValue "" then []
      else
        let colorClass := "file-color-color-" ++ colorValue in
        let typeClass :=
          "file-color-type-"
            ++ (if colorBackground s then "background" else "text") in
        app ["file-color-file"]
            (app (if isHexColor then [] else [colorClass])
                 (app [typeClass]
                      (if cascadeColors s then ["file-color-cascade"] else [])))
  | (None, _) => []
  end.

(** ** Editing the palette ([SettingsPanel/index.tsx]) *)

Module Editor.

(** The state of the panel that the palette handlers read and set. *)
Record State := mkState {
  palette : list Color;
  colorErrorQueue : list Panel.ColorError;
  activeError : option Panel.ColorError
}.

(** [e.colorIds.includes(id)] *)
Definition mentions (e : Panel.ColorError) (id : string) : bool :=
  existsb (String.eqb id) (Panel.colorIds e).

Definition isInvalidHex (e : Panel.ColorError) : bool :=
  match Panel.errorType e with
  | Panel.InvalidHex => true
  | Panel.DuplicateName => false
  end.

(** The errors left once those of the colour [id] are dropped, and the
    error shown next: [remainingErrors[0]] or [null]. *)
Definition dropErrors (st : State) (id : string) : State :=
  let remainingErrors :=
    filter (fun e => negb (mentions e id)) (colorErrorQueue st) in
  mkState (palette st) remainingErrors (hd_error remainingErrors).

Definition withValue (color : Color) (value : string) : Color :=
  mkColor (color_id color) (color_name color) value.

Definition withName (color : Color) (name : string) : Color :=
  mkColor (color_id color) name (color_value color).

Definition onColorValueChange (st : State) (color : Color) (value : string)
  : State :=
  let st1 :=
    match activeError st with
    | Some active =>
        if mentions active (color_id color) && isInvalidHex active
        then dropErrors st (color_id color)
        else st
    | None => st
    end in
  mkState
    (map (fun paletteColor =>
            if String.eqb (color_id paletteColor) (color_id color)
            then withValue color value
            else paletteColor)
         (palette st))
    (colorErrorQueue st1) (activeError st1).

Definition onColorHexInputChange (h : Host) (st : State) (color : Color)
           (hexValue : string) : State :=
  match Panel.validateAndNormalizeHex h hexValue with
  | Some normalized =>
      if negb (String.eqb normalized "")
      then onColorValueChange st color normalized
      else st
  | None => st
  end.

Definition onColorNameChange (st : State) (color : Color) (name : string)
  : State :=
  let st1 :=
    match activeError st with
    | Some active =>
        if mentions active (color_id color)
        then dropErrors st (color_id color)
        else st
    | None => st
    end in
  mkState
    (map (fun paletteColor =>
            if String.eqb (color_id paletteColor) (color_id color)
            then withName color name
            else paletteColor)
         (palette st))
    (colorErrorQueue st1) (activeError st1).

(** [onAddColor]; [newId] is the identifier [nanoid()] returns. *)
Definition onAddColor (st : State) (newId : string) : State :=
  mkState (JS.push (palette st) (mkColor newId "" "#ffffff"))
          (colorErrorQueue st) (activeError st).

Definition onRemoveColor (st : State) (color : Color) : State :=
  mkState (filter (fun paletteColor =>
                     negb (String.eqb (color_id paletteColor) (color_id color)))
                  (palette st))
          (colorErrorQueue st) (activeError st).

(** The effect that computes [changed]: the edited palette against the
    palette of the settings. *)
Definition paletteChanged (edited saved : list Color) : bool :=
  if negb (Nat.eqb (length edited) (length saved)) then true
  else
    existsb
      (fun color =>
         match find (fun settingsColor =>
                       String.eqb (color_id settingsColor) (color_id color))
                    saved with
         | None => true
         | Some settingsColor =>
             negb (String.eqb (color_name settingsColor) (color_name color))
             || negb (String.eqb (color_value settingsColor)
                                 (color_value color))
         end)
      edited.

(** The panel state after [onSave], for the two outcomes in which the
    handler returns. *)
Definition afterSave (st : State) (result : Panel.SaveResult) : option State :=
  match result with
  | Panel.Saved _ => Some (mkState (palette st) [] None)
  | Panel.Rejected errors => Some (mkState (palette st) errors (hd_error errors))
  | Panel.Threw => None
  end.

End Editor.

(** ** The group handlers of the panel *)

Module Groups.

(** [Math.min(...xs)] for a list that is not empty. *)
Definition minOf (x : Z) (xs : list Z) : Z := fold_right Z.min x xs.

(** [onAddGroup]: the group handed to the configuration dialog; [newId] is
    the identifier [nanoid()] returns. *)
Definition onAddGroup (newId : string) (palette : list Color)
           (groups : list Group) : Group :=
  mkGroup newId "New Group"
          (match palette with
           | first :: _ => color_id first
           | [] => ""
           end)
          false "" true
          (match map priority groups with
           | p :: ps => JS.sub (minOf p ps) 1
           | [] => 0
           end)
          [].

Definition onRemoveGroup (groupId : string) (groups : list Group) : list Group :=
  filter (fun group => negb (String.eqb (group_id group) groupId)) groups.

Definition setEnabled (g : Group) (b : bool) : Group :=
  mkGroup (group_id g) (group_name g) (colorId g) (usePropertyAsColor g)
          (propertyNameForColor g) b (priority g) (conditions g).

Definition onGroupToggle (groupId : string) (groups : list Group) : list Group :=
  map (fun group =>
         if String.eqb (group_id group) groupId
         then setEnabled group (negb (enabled group))
         else group)
      groups.

(** The callback of [onConfigureGroup]: a new group is appended, an
    existing one is replaced where its identifier stands. *)
Definition onConfigured (isNewGroup : bool) (groupId : string)
           (groups : list Group) (updatedGroup : Group) : list Group :=
  if isNewGroup then JS.push groups updatedGroup
  else map (fun g => if String.eqb (group_id g) groupId then updatedGroup else g)
           groups.

End Groups.

(** ** The configuration dialog of a group ([ConfigureRuleModal]) *)

Module Modal.

(** The edited fields of the dialog. *)
Record Form := mkForm {
  name : string;
  form_colorId : string;
  form_usePropertyAsColor : bool;
  form_propertyNameForColor : string;
  form_conditions : list Condition
}.

(** [validateCondition]: the message passed to [setError], [None] when the
    condition is accepted.  [compiles pattern] tells whether
    [new RegExp(pattern)] returns. *)
Definition validateCondition (compiles : string -> bool) (condition : Condition)
  : option string :=
  match cond_type condition with
  | CRegex =>
      if String.eqb (pattern condition) "" then Some "Regex pattern is required"
      else if compiles (pattern condition) then None
      else Some ("Invalid regex pattern: " ++ pattern condition)
  | CProperty =>
      if String.eqb (propertyName condition) ""
      then Some "Property name is required"
      else
        match propertyOperator condition with
        | OpExists => None
        | _ =>
            if String.eqb (propertyValue condition) ""
            then Some "Property value is required"
            else None
        end
  end.

(** The loop [for (const condition of conditions)] of [handleSave]: the
    message of the first condition that is refused. *)
Fixpoint firstInvalid (compiles : string -> bool) (conditions : list Condition)
  : option string :=
  match conditions with
  | [] => None
  | condition :: rest =>
      match validateCondition compiles condition with
      | Some message => Some message
      | None => firstInvalid compiles rest
      end
  end.

(** The test of [existingGroups.find] in [handleSave]. *)
Definition isDuplicateOf (h : Host) (group : Group) (name : string) (g : Group)
  : bool :=
  negb (String.eqb (group_id g) (group_id group))
  && (negb (String.eqb (group_name g) "")
      && String.eqb (trim h (toLowerCase h (group_name g)))
                    (trim h (toLowerCase h name))).

Inductive SaveOutcome :=
| Refused (error : string)
| Accepted (savedGroup : Group).

(** [handleSave] for the dialog opened on [group] with the groups
    [currentGroups] of the panel. *)
Definition handleSave (h : Host) (compiles : string -> bool)
           (group : Group) (currentGroups : list Group) (form : Form)
  : SaveOutcome :=
  if String.eqb (trim h (name form)) "" then Refused "Group name is required"
  else
    match find (isDuplicateOf h group (name form)) currentGroups with
    | Some _ =>
        Refused ("A group with the name " ++ Panel.quote ++ trim h (name form)
                   ++ Panel.quote ++ " already exists")
    | None =>
        match firstInvalid compiles (form_conditions form) with
        | Some message => Refused message
        | None =>
            if form_usePropertyAsColor form
               && String.eqb (form_propertyNameForColor form) ""
            then Refused "Property name for color is required"
            else
              Accepted
                (mkGroup (group_id group) (trim h (name form))
                         (form_colorId form) (form_usePropertyAsColor form)
                         (form_propertyNameForColor form)
                         (enabled group) (priority group)
                         (form_conditions form))
        end
    end.

(** The group shown while the dialog is open. *)
Definition previewGroup (group : Group) (form : Form) : Group :=
  mkGroup (group_id group) (name form) (form_colorId form)
          (form_usePropertyAsColor form) (form_propertyNameForColor form)
          true 9999 (form_conditions form).

(** [plugin.settings.groups] while the dialog is open. *)
Definition previewGroups (group : Group) (form : Form)
           (originalGroups : list Group) : list Group :=
  previewGroup group form
    :: filter (fun g => negb (String.eqb (group_id g) (group_id group)))
              originalGroups.

(** [onAddCondition]; [newId] is the identifier [nanoid()] returns. *)
Definition onAddCondition (newId : string) (type : ConditionType)
           (conditions : list Condition) : list Condition :=
  mkCondition newId type "" false "" "" OpEquals :: conditions.

Definition onRemoveCondition (conditionId : string)
           (conditions : list Condition) : list Condition :=
  filter (fun c => negb (String.eqb (cond_id c) conditionId)) conditions.

End Modal.

(** ** Derived notions for the dialog and the editor *)

(** A condition the dialog accepts. *)
Definition wellFormed (compiles : string -> bool) (c : Condition) : Prop :=
  match cond_type c with
  | CRegex => pattern c <> "" /\ compiles (pattern c) = true
  | CProperty =>
      propertyName c <> ""
      /\ (propertyOperator c = OpExists \/ propertyValue c <> "")
  end.

(** Another group of the panel carries the name typed in the dialog, up to
    case and surrounding blanks. *)
Definition nameTaken (h : Host) (group : Group) (name : string)
           (currentGroups : list Group) : Prop :=
  exists g, In g currentGroups
            /\ group_id g <> group_id group
            /\ group_name g <> ""
            /\ trim h (toLowerCase h (group_name g)) = trim h (toLowerCase h name).

(** The error shown by the panel is the first of the queue. *)
Definition showsFirstError (st : Editor.State) : Prop :=
  Editor.activeError st = hd_error (Editor.colorErrorQueue st).

(** * Properties *)

(** ** Strings *)

Section Strings.

Lemma prefix_app (p t : string) : String.prefix p (p ++ t) = true.
Proof.
  induction p as [|c p IH]; simpl.
  - destruct t; reflexivity.
  - destruct (ascii_dec c c); [exact IH | congruence].
Qed.

Lemma prefix_split (p s : string) :
  String.prefix p s = true -> exists t, s = p ++ t.
Proof.
  revert s; induction p as [|c p IH]; intros s H.
  - exists s; reflexivity.
  - destruct s as [|d s]; simpl in H; [discriminate|].
    destruct (ascii_dec c d) as [->|]; [|discriminate].
    destruct (IH s H) as [t ->]. exists t; reflexivity.
Qed.

(** [startsWith] is the prefix relation on strings. *)
Lemma startsWith_iff (s p : string) :
  JS.startsWith s p = true <-> exists t, s = p ++ t.
Proof.
  unfold JS.startsWith; split.
  - apply prefix_split.
  - intros [t ->]; apply prefix_app.
Qed.

Lemma string_eqb_false_iff (a b : string) : String.eqb a b = false <-> a <> b.
Proof.
  destruct (String.eqb_spec a b); split; congruence.
Qed.

End Strings.

(** ** The priority ordering *)

Section Ordering.

Lemma insertByPriority_perm (g : Group) (gs : list Group) :
  Permutation (g :: gs) (insertByPriority g gs).
Proof.
  induction gs as [|x gs IH]; simpl.
  - reflexivity.
  - destruct (priority x - priority g <=? 0).
    + reflexivity.
    + rewrite perm_swap. apply perm_skip, IH.
Qed.

Lemma sortByPriority_perm (gs : list Group) :
  Permutation gs (sortByPriority gs).
Proof.
  induction gs as [|g gs IH]; simpl.
  - constructor.
  - rewrite <- insertByPriority_perm. apply perm_skip, IH.
Qed.

Lemma sortByPriority_In (gs : list Group) (g : Group) :
  In g (sortByPriority gs) <-> In g gs.
Proof.
  split; apply Permutation_in;
    [symmetry|]; apply sortByPriority_perm.
Qed.

Lemma insertByPriority_sorted (g : Group) (gs : list Group) :
  StronglySorted byPriorityDesc gs ->
  StronglySorted byPriorityDesc (insertByPriority g gs).
Proof.
  induction 1 as [|x gs Hs IH Hx]; simpl.
  - repeat constructor.
  - destruct (Z.leb_spec (priority x - priority g) 0) as [Hle|Hgt].
    + constructor; [constructor; assumption|].
      constructor.
      * unfold byPriorityDesc; lia.
      * eapply Forall_impl; [|exact Hx].
        unfold byPriorityDesc; intros; lia.
    + constructor; [exact IH|].
      eapply Permutation_Forall; [apply insertByPriority_perm|].
      constructor; [unfold byPriorityDesc; lia | exact Hx].
Qed.

Lemma sortByPriority_sorted (gs : list Group) :
  StronglySorted byPriorityDesc (sortByPriority gs).
Proof.
  induction gs; simpl; [constructor | now apply insertByPriority_sorted].
Qed.

(** Insertion never passes an element of the same priority: the groups of
    one priority keep their order. *)
Lemma insertByPriority_stable (p : Z) (g : Group) (gs : list Group) :
  filter (hasPriority p) (insertByPriority g gs)
  = filter (hasPriority p) (g :: gs).
Proof.
  induction gs as [|x gs IH]; [reflexivity|].
  simpl insertByPriority.
  destruct (Z.leb_spec (priority x - priority g) 0) as [Hle|Hgt];
    [reflexivity|].
  simpl in *. rewrite IH. unfold hasPriority.
  destruct (Z.eqb_spec (priority g) p), (Z.eqb_spec (priority x) p);
    try reflexivity; lia.
Qed.

Lemma sortByPriority_stable (p : Z) (gs : list Group) :
  filter (hasPriority p) (sortByPriority gs) = filter (hasPriority p) gs.
Proof.
  induction gs as [|g gs IH]; [reflexivity|].
  simpl sortByPriority. rewrite insertByPriority_stable.
  simpl. now rewrite IH.
Qed.

Lemma insertByPriority_front (g : Group) (gs : list Group) :
  Forall (byPriorityDesc g) gs -> insertByPriority g gs = g :: gs.
Proof.
  destruct 1 as [|x gs Hx _]; [reflexivity|]. simpl.
  unfold byPriorityDesc in Hx.
  destruct (Z.leb_spec (priority x - priority g) 0); [reflexivity | lia].
Qed.

(** Filtering commutes with insertion in a sorted list. *)
Lemma filter_insertByPriority (f : Group -> bool) (g : Group) (gs : list Group) :
  StronglySorted byPriorityDesc gs ->
  filter f (insertByPriority g gs)
  = if f g then insertByPriority g (filter f gs) else filter f gs.
Proof.
  induction 1 as [|x gs Hs IH Hx]; simpl.
  - destruct (f g); reflexivity.
  - destruct (Z.leb_spec (priority x - priority g) 0) as [Hle|Hgt].
    + simpl. destruct (f g) eqn:Hg; [|reflexivity].
      symmetry. apply insertByPriority_front.
      assert (Hall : Forall (byPriorityDesc g) (x :: gs)).
      { constructor; [unfold byPriorityDesc; lia|].
        eapply Forall_impl; [|exact Hx].
        unfold byPriorityDesc; intros; lia. }
      rewrite Forall_forall in *.
      intros y Hy. apply Hall.
      change (In y (filter f (x :: gs))) in Hy.
      apply filter_In in Hy. tauto.
    + simpl. rewrite IH.
      destruct (f x) eqn:Hfx, (f g) eqn:Hg; simpl; try reflexivity.
      destruct (Z.leb_spec (priority x - priority g) 0); [lia | reflexivity].
Qed.

Lemma filter_sortByPriority (f : Group -> bool) (gs : list Group) :
  filter f (sortByPriority gs) = sortByPriority (filter f gs).
Proof.
  induction gs as [|g gs IH]; [reflexivity|]. simpl.
  rewrite filter_insertByPriority by apply sortByPriority_sorted.
  rewrite IH. destruct (f g); reflexivity.
Qed.

Lemma hasPriority_In (l l' : list Group) (x : Group) :
  (forall p, filter (hasPriority p) l = filter (hasPriority p) l') ->
  In x l -> In x l'.
Proof.
  intros Hstable Hx.
  assert (H : In x (filter (hasPriority (priority x)) l)).
  { apply filter_In. split; [exact Hx | apply Z.eqb_refl]. }
  rewrite Hstable in H. apply filter_In in H. tauto.
Qed.

(** A list sorted by descending priority in which the groups of each
    priority stand in a given order is determined: every stable sort
    returns the list [sortByPriority] returns. *)
Lemma stable_sort_unique (l l' : list Group) :
  StronglySorted byPriorityDesc l ->
  StronglySorted byPriorityDesc l' ->
  (forall p, filter (hasPriority p) l = filter (hasPriority p) l') ->
  l = l'.
Proof.
  intros Hl. revert l'.
  induction Hl as [|x l Hs IH Hx]; intros l' Hl' Hstable.
  - destruct l' as [|y l']; [reflexivity|].
    exfalso. apply (hasPriority_In (y :: l') [] y);
      [intros p; symmetry; apply Hstable | left; reflexivity].
  - destruct Hl' as [|y l' Hs' Hy].
    + exfalso. apply (hasPriority_In (x :: l) [] x);
        [exact Hstable | left; reflexivity].
    + assert (Hxy : priority x = priority y).
      { assert (Hyx : In y (x :: l))
          by (apply (hasPriority_In (y :: l') (x :: l));
              [intros p; symmetry; apply Hstable | left; reflexivity]).
        assert (Hxy : In x (y :: l'))
          by (apply (hasPriority_In (x :: l) (y :: l'));
              [exact Hstable | left; reflexivity]).
        rewrite Forall_forall in Hx, Hy. unfold byPriorityDesc in Hx, Hy.
        destruct Hyx as [->|Hyx]; [reflexivity|].
        destruct Hxy as [->|Hxy]; [reflexivity|].
        specialize (Hx _ Hyx). specialize (Hy _ Hxy). lia. }
      pose proof (Hstable (priority x)) as Hp.
      cbn [filter] in Hp.
      assert (Hpx : hasPriority (priority x) x = true) by apply Z.eqb_refl.
      assert (Hpy : hasPriority (priority x) y = true)
        by (unfold hasPriority; rewrite Hxy; apply Z.eqb_refl).
      rewrite Hpx, Hpy in Hp. injection Hp as <- Hp.
      f_equal. apply IH; [exact Hs'|].
      intros p. specialize (Hstable p). cbn [filter] in Hstable.
      destruct (hasPriority p x); [now injection Hstable | exact Hstable].
Qed.

Lemma sortByPriority_unique (gs sorted : list Group) :
  StronglySorted byPriorityDesc sorted ->
  (forall p, filter (hasPriority p) sorted = filter (hasPriority p) gs) ->
  sorted = sortByPriority gs.
Proof.
  intros Hs Hstable. apply stable_sort_unique.
  - exact Hs.
  - apply sortByPriority_sorted.
  - intros p. now rewrite Hstable, sortByPriority_stable.
Qed.

Lemma filter_comm {A : Type} (f g : A -> bool) (l : list A) :
  filter f (filter g l) = filter g (filter f l).
Proof.
  induction l as [|x l IH]; [reflexivity|]. simpl.
  destruct (f x) eqn:Hf, (g x) eqn:Hg; simpl; rewrite ?Hf, ?Hg, IH; reflexivity.
Qed.

Lemma filter_idem {A : Type} (f : A -> bool) (l : list A) :
  filter f (filter f l) = filter f l.
Proof.
  induction l as [|x l IH]; [reflexivity|]. simpl.
  destruct (f x) eqn:Hx; simpl; rewrite ?Hx, IH; reflexivity.
Qed.

Lemma filter_none {A : Type} (f : A -> bool) (l : list A) :
  (forall x, In x l -> f x = false) -> filter f l = [].
Proof.
  induction l as [|x l IH]; intros H; [reflexivity|]. simpl.
  rewrite (H x (or_introl eq_refl)). apply IH.
  intros y Hy. apply H. right; exact Hy.
Qed.

End Ordering.

(** ** The loop over the enabled groups *)

Section GroupLoop.

Variable h : Host.
Variable path : string.

Lemma groupLoop_cons (g : Group) (rest : list Group) (st : Plugin.LoopState) :
  Plugin.groupLoop h path (g :: rest) st
  = if Plugin.groupMatches h path g then
      if JS.truthy (fst (Plugin.assignColor h path g st))
      then Plugin.assignColor h path g st
      else Plugin.groupLoop h path rest (Plugin.assignColor h path g st)
    else Plugin.groupLoop h path rest st.
Proof.
  unfold Plugin.groupMatches. simpl.
  destruct (conditions g); [reflexivity|].
  destruct (Plugin.allConditionsMatch h path g); reflexivity.
Qed.

Lemma groupLoop_skip (l1 rest : list Group) (st : Plugin.LoopState) :
  (forall x, In x l1 -> Plugin.groupMatches h path x = false) ->
  Plugin.groupLoop h path (l1 ++ rest) st = Plugin.groupLoop h path rest st.
Proof.
  induction l1 as [|x l1 IH]; intros Hl1; [reflexivity|].
  rewrite <- app_comm_cons, groupLoop_cons.
  rewrite (Hl1 x) by (left; reflexivity).
  apply IH. intros y Hy. apply Hl1. right; exact Hy.
Qed.

Lemma hexFromProperty_nonempty (raw c : string) :
  Plugin.hexFromProperty h raw = Some c -> c <> "".
Proof.
  unfold Plugin.hexFromProperty.
  destruct (JS.testOptHashHex6 (trim h raw)); [|discriminate].
  destruct (JS.startsWith (trim h raw) "#") eqn:Hp; intros [= <-].
  - apply startsWith_iff in Hp. destruct Hp as [t ->]. discriminate.
  - discriminate.
Qed.

Lemma colorFromProperty_nonempty (g : Group) (c : string) :
  Plugin.colorFromProperty h path g = Some c -> c <> "".
Proof.
  unfold Plugin.colorFromProperty.
  destruct (isMarkdown h path); [|discriminate].
  destruct (getFrontmatter h path) as [fm|]; [|discriminate].
  destruct (getProperty fm (propertyNameForColor g)) as [v|]; [|discriminate].
  destruct (valueTruthy v); [|discriminate].
  apply hexFromProperty_nonempty.
Qed.

Lemma truthy_Some (c : string) : c <> "" -> JS.truthy (Some c) = true.
Proof.
  intros Hc. simpl. apply negb_true_iff, string_eqb_false_iff, Hc.
Qed.

Lemma assignColor_yields (g : Group) (st : Plugin.LoopState) c hex :
  idle st ->
  groupColor h path g = Some (c, hex) ->
  Plugin.assignColor h path g st = (Some c, hex) /\ JS.truthy (Some c) = true.
Proof.
  intros [_ Hhex]. unfold groupColor, Plugin.assignColor.
  destruct (usePropertyAsColor g).
  - destruct (Plugin.colorFromProperty h path g) as [c'|] eqn:Hc;
      [|discriminate].
    intros [= <- <-]. split; [reflexivity|].
    apply truthy_Some. eapply colorFromProperty_nonempty; eauto.
  - destruct (String.eqb_spec (colorId g) ""); [discriminate|].
    intros [= <- <-]. rewrite Hhex. split; [reflexivity|].
    now apply truthy_Some.
Qed.

Lemma assignColor_idle (g : Group) (st : Plugin.LoopState) :
  idle st ->
  groupColor h path g = None ->
  idle (Plugin.assignColor h path g st).
Proof.
  intros Hst. unfold groupColor, Plugin.assignColor.
  destruct (usePropertyAsColor g).
  - destruct (Plugin.colorFromProperty h path g); [discriminate|].
    intros _; exact Hst.
  - destruct (String.eqb_spec (colorId g) "") as [He|]; [|discriminate].
    intros _. destruct Hst as [_ Hhex]. split; [|exact Hhex].
    simpl. rewrite He. reflexivity.
Qed.

(** The first group of the list that matches and yields a colour decides. *)
Lemma groupLoop_winner (l1 l2 : list Group) (g : Group)
      (st : Plugin.LoopState) c hex :
  idle st ->
  (forall x, In x l1 -> Plugin.groupMatches h path x = true ->
             groupColor h path x = None) ->
  Plugin.groupMatches h path g = true ->
  groupColor h path g = Some (c, hex) ->
  Plugin.groupLoop h path (l1 ++ g :: l2) st = (Some c, hex).
Proof.
  revert st. induction l1 as [|x l1 IH]; intros st Hst Hl1 Hm Hc.
  - simpl app. rewrite groupLoop_cons, Hm.
    destruct (assignColor_yields g st c hex Hst Hc) as [-> Ht].
    simpl fst. rewrite Ht. reflexivity.
  - rewrite <- app_comm_cons, groupLoop_cons.
    assert (Hrest : forall y, In y l1 -> Plugin.groupMatches h path y = true ->
                              groupColor h path y = None)
      by (intros y Hy; apply Hl1; right; exact Hy).
    destruct (Plugin.groupMatches h path x) eqn:Hx; [|now apply IH].
    pose proof (assignColor_idle x st Hst (Hl1 x (or_introl eq_refl) Hx))
      as Hidle.
    destruct Hidle as [Hf Hs]. rewrite Hf.
    apply IH; [split|..]; assumption.
Qed.

(** Without such a group the loop ends without a colour. *)
Lemma groupLoop_idle (l : list Group) (st : Plugin.LoopState) :
  idle st ->
  (forall x, In x l -> Plugin.groupMatches h path x = true ->
             groupColor h path x = None) ->
  idle (Plugin.groupLoop h path l st).
Proof.
  revert st. induction l as [|x l IH]; intros st Hst Hl; [exact Hst|].
  rewrite groupLoop_cons.
  assert (Hrest : forall y, In y l -> Plugin.groupMatches h path y = true ->
                            groupColor h path y = None)
    by (intros y Hy; apply Hl; right; exact Hy).
  destruct (Plugin.groupMatches h path x) eqn:Hx; [|now apply IH].
  pose proof (assignColor_idle x st Hst (Hl x (or_introl eq_refl) Hx))
    as Hidle.
  destruct Hidle as [Hf Hs]. rewrite Hf.
  apply IH; [split|]; assumption.
Qed.

(** Groups without conditions can be dropped from the list. *)
Lemma groupLoop_hasConditions (l : list Group) (st : Plugin.LoopState) :
  Plugin.groupLoop h path (filter hasConditions l) st
  = Plugin.groupLoop h path l st.
Proof.
  revert st. induction l as [|x l IH]; intros st; [reflexivity|].
  simpl filter. unfold hasConditions at 1.
  destruct (conditions x) as [|c cs] eqn:Hc.
  - rewrite IH. simpl. rewrite Hc. reflexivity.
  - simpl. rewrite Hc.
    destruct (Plugin.allConditionsMatch h path x); [|apply IH].
    destruct (JS.truthy (fst (Plugin.assignColor h path x st)));
      [reflexivity | apply IH].
Qed.

Lemma propertyColorUnusable_None (g : Group) :
  propertyColorUnusable h path g ->
  Plugin.colorFromProperty h path g = None.
Proof.
  intros Hu. unfold Plugin.colorFromProperty.
  destruct (isMarkdown h path); [|reflexivity].
  destruct (getFrontmatter h path) as [fm|] eqn:Hfm; [|reflexivity].
  destruct (getProperty fm (propertyNameForColor g)) as [v|] eqn:Hv;
    [|reflexivity].
  destruct (valueTruthy v); [|reflexivity].
  unfold Plugin.hexFromProperty. rewrite (Hu fm v Hfm Hv). reflexivity.
Qed.

End GroupLoop.

(** ** The colour resolver *)

Section Resolver.

Variable h : Host.
Variable path : string.

Lemma resolveColor_groups (s : Settings) :
  noManualColor s path ->
  Plugin.resolveColor h s path
  = Plugin.groupLoop h path (Plugin.enabledGroups s)
      (option_map fc_color (Plugin.findManual s path), false).
Proof.
  unfold noManualColor, Plugin.resolveColor. intros ->. reflexivity.
Qed.

Lemma noManualColor_idle (s : Settings) :
  noManualColor s path ->
  idle (option_map fc_color (Plugin.findManual s path), false).
Proof.
  intros H; split; [exact H | reflexivity].
Qed.

Lemma enabledGroups_In (s : Settings) (g : Group) :
  In g (Plugin.enabledGroups s) <-> In g (groups s) /\ enabled g = true.
Proof.
  unfold Plugin.enabledGroups.
  rewrite sortByPriority_In, filter_In. reflexivity.
Qed.

Lemma setGroups_same (s : Settings) : setGroups s (groups s) = s.
Proof. destruct s; reflexivity. Qed.

End Resolver.

(** C1 (as amended).  When the highest-priority matching group takes its
    colour from a property and that property is absent from the metadata of
    the file or is not a hexadecimal colour, the group yields no colour and
    the resolver goes on with the enabled groups of lower priority: the
    result for the file is the one the remaining groups give. *)
Theorem unusable_property_color_falls_through
        (h : Host) (s : Settings) (path : string)
        (l1 l2 : list Group) (g : Group) :
  noManualColor s path ->
  Plugin.enabledGroups s = (l1 ++ g :: l2)%list ->
  (forall x, In x l1 -> Plugin.groupMatches h path x = false) ->
  Plugin.groupMatches h path g = true ->
  usePropertyAsColor g = true ->
  propertyColorUnusable h path g ->
  Plugin.resolveColor h s path
  = Plugin.groupLoop h path l2
      (option_map fc_color (Plugin.findManual s path), false).
Proof.
  intros Hman Hgs Hl1 Hm Hprop Hbad.
  rewrite resolveColor_groups by exact Hman.
  rewrite Hgs, groupLoop_skip by exact Hl1.
  rewrite groupLoop_cons, Hm.
  unfold Plugin.assignColor.
  rewrite Hprop, (propertyColorUnusable_None h path g Hbad).
  simpl fst. rewrite Hman. reflexivity.
Qed.

Lemma scenario_property_unusable :
  propertyColorUnusable Scenario.vault Scenario.notePath Scenario.byProperty.
Proof.
  intros fm v Hfm Hv.
  vm_compute in Hfm. injection Hfm as <-.
  vm_compute in Hv. injection Hv as <-.
  reflexivity.
Qed.

(** The scenario of the specification: [bg: not-a-color] on the group of
    priority 10, and the palette group of priority 1 colours the note. *)
Lemma unusable_property_color_falls_through_witness :
  Plugin.resolveColor Scenario.vault Scenario.settings Scenario.notePath
  = Plugin.groupLoop Scenario.vault Scenario.notePath [Scenario.byPalette]
      (None, false)
  /\ Plugin.groupLoop Scenario.vault Scenario.notePath [Scenario.byPalette]
       (None, false)
     = (Some "c1", false).
Proof.
  split; [|reflexivity].
  apply (unusable_property_color_falls_through
           Scenario.vault Scenario.settings Scenario.notePath
           [] [Scenario.byPalette] Scenario.byProperty).
  - reflexivity.
  - reflexivity.
  - intros x [].
  - reflexivity.
  - reflexivity.
  - exact scenario_property_unusable.
Defined.

(** C1 as stated fails: the note of the scenario is coloured by the group of
    lower priority. *)
Lemma no_fall_through_counterexample :
  noManualColor Scenario.settings Scenario.notePath
  /\ Plugin.enabledGroups Scenario.settings
     = [Scenario.byProperty; Scenario.byPalette]
  /\ Plugin.groupMatches Scenario.vault Scenario.notePath Scenario.byProperty
     = true
  /\ usePropertyAsColor Scenario.byProperty = true
  /\ propertyColorUnusable Scenario.vault Scenario.notePath Scenario.byProperty
  /\ Plugin.resolveColor Scenario.vault Scenario.settings Scenario.notePath
     = (Some "c1", false).
Proof.
  repeat split; try reflexivity.
  exact scenario_property_unusable.
Qed.

(** The first occurrence of an element splits a list. *)
Lemma in_split_first (g : Group) (l : list Group) :
  (forall a b : Group, {a = b} + {a <> b}) ->
  In g l -> exists l1 l2, l = (l1 ++ g :: l2)%list /\ ~ In g l1.
Proof.
  intros dec. induction l as [|x l IH]; intros Hin; [contradiction|].
  destruct (dec x g) as [->|Hne].
  - exists [], l. split; [reflexivity | intros []].
  - destruct Hin as [->|Hin]; [congruence|].
    destruct (IH Hin) as (l1 & l2 & -> & Hnot).
    exists (x :: l1), l2. split; [reflexivity|].
    intros [->|H]; [congruence | contradiction].
Qed.

Lemma Group_eq_dec (a b : Group) : {a = b} + {a <> b}.
Proof.
  repeat decide equality.
Qed.

Lemma sorted_before (l1 l2 : list Group) (g x : Group) :
  StronglySorted byPriorityDesc (l1 ++ g :: l2) ->
  In x l1 -> priority g <= priority x.
Proof.
  induction l1 as [|y l1 IH]; intros Hs Hx; [contradiction|].
  rewrite <- app_comm_cons in Hs. inversion Hs as [|? ? Hs' Hall]; subst.
  destruct Hx as [->|Hx]; [|now apply IH].
  rewrite Forall_forall in Hall. apply Hall.
  apply in_or_app. right; left; reflexivity.
Qed.

(** C2 (as amended).  The resolver goes through the groups with
    [enabled = true] only, sorted by descending priority, groups of equal
    priority in their order in the settings; among the enabled groups that
    match and yield a colour, the one of strictly highest priority wins. *)
Theorem highest_priority_colored_match_wins
        (h : Host) (s : Settings) (path : string) :
  Permutation (filter enabled (groups s)) (Plugin.enabledGroups s)
  /\ StronglySorted byPriorityDesc (Plugin.enabledGroups s)
  /\ (forall p,
         filter (hasPriority p) (Plugin.enabledGroups s)
         = filter (hasPriority p) (filter enabled (groups s)))
  /\ (forall g c hex,
         noManualColor s path ->
         In g (groups s) -> enabled g = true ->
         Plugin.groupMatches h path g = true ->
         groupColor h path g = Some (c, hex) ->
         (forall g', In g' (groups s) -> enabled g' = true ->
                     Plugin.groupMatches h path g' = true ->
                     groupColor h path g' <> None ->
                     g' <> g -> priority g' < priority g) ->
         Plugin.resolveColor h s path = (Some c, hex)).
Proof.
  split; [apply sortByPriority_perm|].
  split; [apply sortByPriority_sorted|].
  split; [intros p; apply sortByPriority_stable|].
  intros g c hex Hman Hin Hen Hm Hc Hbest.
  assert (Hg : In g (Plugin.enabledGroups s))
    by (apply enabledGroups_In; split; assumption).
  destruct (in_split_first g _ Group_eq_dec Hg) as (l1 & l2 & Heq & Hfirst).
  rewrite resolveColor_groups by exact Hman. rewrite Heq.
  apply groupLoop_winner; try assumption.
  - now apply noManualColor_idle.
  - intros x Hx Hxm.
    destruct (groupColor h path x) as [col|] eqn:Hxc; [|reflexivity].
    exfalso.
    assert (Hxe : In x (Plugin.enabledGroups s))
      by (rewrite Heq; apply in_or_app; left; exact Hx).
    apply enabledGroups_In in Hxe. destruct Hxe as [Hxg Hxen].
    assert (Hlt : priority x < priority g).
    { apply Hbest; try assumption.
      - rewrite Hxc; discriminate.
      - intros ->; contradiction. }
    pose proof (sortByPriority_sorted (filter enabled (groups s))) as Hs.
    fold (Plugin.enabledGroups s) in Hs. rewrite Heq in Hs.
    pose proof (sorted_before l1 l2 g x Hs Hx). lia.
Qed.

(** With a usable colour in its property the group of priority 10 wins. *)
Lemma highest_priority_colored_match_wins_witness :
  Plugin.resolveColor Scenario.colouredVault Scenario.taskSettings
                      Scenario.taskPath
  = (Some "#00ff00", true).
Proof.
  refine (proj2 (proj2 (proj2
            (highest_priority_colored_match_wins
               Scenario.colouredVault Scenario.taskSettings Scenario.taskPath)))
            Scenario.urgent "#00ff00" true _ _ _ _ _ _).
  - reflexivity.
  - right; left; reflexivity.
  - reflexivity.
  - reflexivity.
  - reflexivity.
  - intros g' [<-|[<-|[]]] _ _ _ Hne.
    + vm_compute. reflexivity.
    + exfalso; apply Hne; reflexivity.
Defined.

(** C2 as stated fails: [urgent] is enabled, matches and has the strictly
    highest priority, and yet the colour of the note is the one of
    [anyTask]. *)
Lemma highest_priority_match_wins_counterexample :
  noManualColor Scenario.taskSettings Scenario.taskPath
  /\ In Scenario.urgent (groups Scenario.taskSettings)
  /\ enabled Scenario.urgent = true
  /\ Plugin.groupMatches Scenario.taskVault Scenario.taskPath Scenario.urgent
     = true
  /\ (forall g', In g' (groups Scenario.taskSettings) ->
                 g' <> Scenario.urgent ->
                 priority g' < priority Scenario.urgent)
  /\ groupColor Scenario.taskVault Scenario.taskPath Scenario.urgent = None
  /\ Plugin.resolveColor Scenario.taskVault Scenario.taskSettings
                         Scenario.taskPath
     = (Some (colorId Scenario.anyTask), false).
Proof.
  split; [reflexivity|].
  split; [right; left; reflexivity|].
  split; [reflexivity|].
  split; [reflexivity|].
  split; [|split; reflexivity].
  intros g' [<-|[<-|[]]] Hne; [reflexivity | contradiction].
Qed.

Lemma resolveColor_manual (h : Host) (s : Settings) (path : string)
      (fc : FileColor) :
  Plugin.findManual s path = Some fc ->
  fc_color fc <> "" ->
  Plugin.resolveColor h s path = (Some (fc_color fc), false).
Proof.
  intros Hfind Hcol. unfold Plugin.resolveColor. rewrite Hfind.
  simpl option_map. rewrite (truthy_Some _ Hcol). reflexivity.
Qed.

(** The guard of the resolver is on the colour: an entry whose colour is
    the empty text leaves the decision to the groups. *)
Lemma resolveColor_blank_manual (h : Host) (s : Settings) (path : string)
      (fc : FileColor) :
  Plugin.findManual s path = Some fc ->
  fc_color fc = "" ->
  Plugin.resolveColor h s path
  = Plugin.groupLoop h path (Plugin.enabledGroups s) (Some "", false).
Proof.
  intros Hfind Hcol. unfold Plugin.resolveColor. rewrite Hfind.
  simpl option_map. rewrite Hcol. reflexivity.
Qed.

Lemma find_the_only {A : Type} (f : A -> bool) (l : list A) (x : A) :
  In x l -> f x = true ->
  (forall y, In y l -> f y = true -> y = x) ->
  find f l = Some x.
Proof.
  induction l as [|y l IH]; intros Hin Hx Honly; [contradiction|]. simpl.
  destruct (f y) eqn:Hy.
  - f_equal. apply Honly; [now left | exact Hy].
  - destruct Hin as [->|Hin]; [congruence|].
    apply IH; [exact Hin | exact Hx|].
    intros z Hz. apply Honly. now right.
Qed.

(** C3.  When the manual colour list holds an entry for a path (one entry
    per path, its colour the identifier of a palette colour, which is never
    the empty text), the resolver returns the colour of that entry as a
    palette reference, whatever the host answers and whatever the groups
    are: no group is consulted for that path. *)
Theorem manual_color_overrides_groups
        (s : Settings) (path : string) (fc : FileColor) :
  In fc (fileColors s) ->
  fc_path fc = path ->
  (forall other, In other (fileColors s) -> fc_path other = path ->
                 other = fc) ->
  fc_color fc <> "" ->
  (forall h, Plugin.resolveColor h s path = (Some (fc_color fc), false))
  /\ (forall h gs,
         Plugin.resolveColor h (setGroups s gs) path
         = (Some (fc_color fc), false)).
Proof.
  intros Hin Hpath Honly Hcol.
  assert (Hfind : Plugin.findManual s path = Some fc).
  { unfold Plugin.findManual. apply find_the_only.
    - exact Hin.
    - rewrite Hpath. apply String.eqb_refl.
    - intros y Hy Hp. apply String.eqb_eq in Hp. now apply Honly. }
  split.
  - intros h. now apply resolveColor_manual.
  - intros h gs. now apply resolveColor_manual.
Qed.

(** The note has the manual colour [c1]; both groups of the settings match
    it, and the resolver answers [c1]. *)
Lemma manual_color_overrides_groups_witness :
  Plugin.groupMatches Scenario.vault Scenario.notePath Scenario.byPalette
  = true
  /\ Plugin.resolveColor Scenario.vault Scenario.redManual Scenario.notePath
     = (Some "c1", false).
Proof.
  split; [reflexivity|].
  refine (proj1 (manual_color_overrides_groups
                   Scenario.redManual Scenario.notePath
                   (mkFileColor Scenario.notePath "c1") _ _ _ _)
                Scenario.vault).
  - left; reflexivity.
  - reflexivity.
  - intros other [<-|[]] _; reflexivity.
  - discriminate.
Defined.

Lemma append_inj_l (p a b : string) : p ++ a = p ++ b -> a = b.
Proof.
  induction p as [|c p IH]; simpl; intros H; [exact H|].
  injection H as H. exact (IH H).
Qed.

(** C6 (as amended).  The resolver never consults the palette.  A group or
    manual colour that refers to an identifier missing from the palette
    still resolves to that identifier, and the item receives the class
    [file-color-color-<id>]; only the generated style sheet has no rule for
    that class. *)
Theorem dangling_reference_is_emitted
        (h : Host) (s : Settings) (path c : string) (current : list string) :
  Plugin.resolveColor h s path = (Some c, false) ->
  c <> "" ->
  ~ In c (map color_id (palette s)) ->
  (forall p, Plugin.resolveColor h (setPalette s p) path = (Some c, false))
  /\ In ("file-color-file") (Plugin.classList (Plugin.applyToItem h s path current))
  /\ In ("file-color-color-" ++ c)
        (Plugin.classList (Plugin.applyToItem h s path current))
  /\ (forall r, In r (Plugin.generateColorStyles s) ->
                Plugin.rule_class r <> "file-color-color-" ++ c).
Proof.
  intros Hres Hc Hmissing. split; [|split; [|split]].
  - intros p. rewrite <- Hres. reflexivity.
  - unfold Plugin.applyToItem. rewrite Hres.
    apply string_eqb_false_iff in Hc. rewrite Hc. simpl.
    unfold JS.push.
    destruct (cascadeColors s); simpl; rewrite !in_app_iff; simpl; tauto.
  - unfold Plugin.applyToItem. rewrite Hres.
    apply string_eqb_false_iff in Hc. rewrite Hc. simpl.
    unfold JS.push.
    destruct (cascadeColors s); simpl; rewrite !in_app_iff; simpl; tauto.
  - intros r Hr Heq. apply Hmissing.
    unfold Plugin.generateColorStyles in Hr. apply in_map_iff in Hr.
    destruct Hr as (color & <- & Hin).
    unfold Plugin.rule_class in Heq.
    apply append_inj_l in Heq. apply in_map_iff. exists color; auto.
Qed.

Lemma dangling_reference_is_emitted_witness :
  In "file-color-color-gone"
     (Plugin.classList
        (Plugin.applyToItem Scenario.vault Scenario.dangling Scenario.notePath
                            ["nav-file-title"])).
Proof.
  refine (proj1 (proj2 (proj2
            (dangling_reference_is_emitted
               Scenario.vault Scenario.dangling Scenario.notePath "gone"
               ["nav-file-title"] _ _ _)))).
  - reflexivity.
  - discriminate.
  - simpl. intros [H|[]]. discriminate.
Defined.

(** C6 as stated fails: the manual colour of the note refers to an
    identifier that the palette does not hold, and the resolver yields that
    identifier and the class that refers to it. *)
Lemma dangling_reference_counterexample :
  ~ In "gone" (map color_id (palette Scenario.dangling))
  /\ Plugin.resolveColor Scenario.vault Scenario.dangling Scenario.notePath
     = (Some "gone", false)
  /\ Plugin.applyToItem Scenario.vault Scenario.dangling Scenario.notePath []
     = Plugin.mkItemStyle
         ["file-color-file"; "file-color-color-gone"; "file-color-type-text"]
         Plugin.NoUpdate.
Proof.
  repeat split; try reflexivity.
  simpl. intros [H|[]]. discriminate.
Qed.

Lemma filter_remove_middle {A : Type} (f : A -> bool) (l1 l2 : list A) (x : A) :
  f x = false -> filter f (l1 ++ x :: l2) = filter f (l1 ++ l2).
Proof.
  intros Hx. rewrite !filter_app. simpl. rewrite Hx. reflexivity.
Qed.

(** The loop sees the same groups after those without conditions have been
    taken out of the settings. *)
Lemma enabledGroups_hasConditions (h : Host) (path : string)
      (gs : list Group) (st : Plugin.LoopState) :
  Plugin.groupLoop h path (sortByPriority (filter enabled gs)) st
  = Plugin.groupLoop h path
      (sortByPriority (filter enabled (filter hasConditions gs))) st.
Proof.
  rewrite <- groupLoop_hasConditions.
  rewrite filter_sortByPriority, filter_comm. reflexivity.
Qed.

(** C7.  A group whose condition list is empty matches no path, and taking
    it out of the settings changes the colour of no file. *)
Theorem empty_group_never_matches (h : Host) (path : string) (g : Group) :
  conditions g = [] ->
  Plugin.groupMatches h path g = false
  /\ (forall s l1 l2,
         groups s = (l1 ++ g :: l2)%list ->
         Plugin.resolveColor h s path
         = Plugin.resolveColor h (setGroups s (l1 ++ l2)) path).
Proof.
  intros Hempty. split.
  - unfold Plugin.groupMatches. rewrite Hempty. reflexivity.
  - intros s l1 l2 Hgs.
    unfold Plugin.resolveColor, Plugin.findManual, Plugin.enabledGroups.
    simpl fileColors. simpl groups.
    destruct (negb _); [|reflexivity].
    rewrite Hgs, enabledGroups_hasConditions.
    rewrite (enabledGroups_hasConditions h path (l1 ++ l2)).
    rewrite filter_remove_middle; [reflexivity|].
    unfold hasConditions. rewrite Hempty. reflexivity.
Qed.

(** The blank group of priority 20 in front of the groups of the scenario. *)
Lemma empty_group_never_matches_witness :
  Plugin.groupMatches Scenario.vault Scenario.notePath Scenario.blank = false
  /\ Plugin.resolveColor Scenario.vault
       (setGroups Scenario.settings
                  [Scenario.byPalette; Scenario.blank; Scenario.byProperty])
       Scenario.notePath
     = Plugin.resolveColor Scenario.vault
         (setGroups Scenario.settings [Scenario.byPalette; Scenario.byProperty])
         Scenario.notePath.
Proof.
  pose proof (empty_group_never_matches
                Scenario.vault Scenario.notePath Scenario.blank eq_refl)
    as [Hno Hframe].
  split; [exact Hno|].
  exact (Hframe
           (setGroups Scenario.settings
                      [Scenario.byPalette; Scenario.blank; Scenario.byProperty])
           [Scenario.byPalette] [Scenario.byProperty] eq_refl).
Defined.

(** ** Saving the palette and deleting files *)

Lemma find_is_Some_iff {A : Type} (f : A -> bool) (l : list A) :
  (exists x, find f l = Some x) <-> exists x, In x l /\ f x = true.
Proof.
  split.
  - intros [x Hx]. exists x. now apply find_some in Hx.
  - intros [x [Hin Hfx]].
    destruct (find f l) as [y|] eqn:Hfind; [now exists y|].
    rewrite (find_none _ _ Hfind x Hin) in Hfx. discriminate.
Qed.

(** C9.  A successful save replaces the palette, deletes exactly the manual
    colours whose colour is not an identifier of the saved palette, and
    leaves every group as it was, [colorId] included. *)
Theorem save_drops_manual_colors_keeps_groups
        (h : Host) (s s' : Settings) (edited : list Color) :
  Panel.onSave h s edited = Panel.Saved s' ->
  palette s' = edited
  /\ groups s' = groups s
  /\ (forall fc, In fc (fileColors s') <->
                 In fc (fileColors s)
                 /\ In (fc_color fc) (map color_id edited)).
Proof.
  unfold Panel.onSave.
  destruct (Panel.collectNames h edited []); [|discriminate].
  destruct (0 <? _)%nat; [discriminate|].
  intros [= <-]. split; [reflexivity|]. split; [reflexivity|].
  intros fc. simpl fileColors. rewrite filter_In.
  apply and_iff_compat_l.
  set (f := fun color => String.eqb (fc_color fc) (color_id color)).
  pose proof (find_is_Some_iff f edited) as Hfind.
  rewrite in_map_iff. split.
  - destruct (find f edited) as [color|] eqn:Hf; [|discriminate].
    intros _. apply find_some in Hf. destruct Hf as [Hin Heq].
    apply String.eqb_eq in Heq. exists color; auto.
  - intros (color & Hid & Hin).
    destruct (proj2 Hfind) as [y ->]; [|reflexivity].
    exists color. split; [exact Hin|].
    unfold f. rewrite Hid. apply String.eqb_refl.
Qed.

(** [blue] is removed: the manual colour of [b.md] goes, the group that
    refers to [c2] stays. *)
Lemma save_drops_manual_colors_keeps_groups_witness :
  Panel.onSave SaveScenario.host SaveScenario.before SaveScenario.edited
  = Panel.Saved SaveScenario.after
  /\ groups SaveScenario.after = groups SaveScenario.before
  /\ (forall fc, In fc (fileColors SaveScenario.after) <->
                 In fc (fileColors SaveScenario.before)
                 /\ In (fc_color fc) (map color_id SaveScenario.edited)).
Proof.
  split; [reflexivity|].
  exact (proj2 (save_drops_manual_colors_keeps_groups
                  SaveScenario.host SaveScenario.before SaveScenario.after
                  SaveScenario.edited eq_refl)).
Defined.

(** C10.  Deleting the vault item at [p] removes exactly the manual colours
    whose path starts with the string [p], those of sibling paths that only
    share the prefix included, and touches nothing else. *)
Theorem delete_removes_by_string_prefix (s : Settings) (p : string) :
  (forall fc, In fc (fileColors (Plugin.onDelete s p)) <->
              In fc (fileColors s) /\ ~ (exists t, fc_path fc = p ++ t))
  /\ palette (Plugin.onDelete s p) = palette s
  /\ groups (Plugin.onDelete s p) = groups s
  /\ fileColors (Plugin.onDelete SaveScenario.coloured "foo")
     = [mkFileColor "bar/foo" "c1"].
Proof.
  split; [|repeat split].
  intros fc. unfold Plugin.onDelete. simpl fileColors.
  rewrite filter_In. apply and_iff_compat_l.
  rewrite negb_true_iff, <- not_true_iff_false, startsWith_iff.
  reflexivity.
Qed.

(** ** Hexadecimal colours *)

Section Hex.

Lemma substring_all (s : string) (n : nat) :
  (String.length s <= n)%nat -> String.substring 0 n s = s.
Proof.
  revert n; induction s as [|c s IH]; intros n Hn.
  - destruct n; reflexivity.
  - destruct n as [|n]; simpl in *; [lia|].
    rewrite IH by lia. reflexivity.
Qed.

Lemma startsWith_hash (c : ascii) (d : string) :
  JS.startsWith (String c d) "#" = Ascii.eqb c "#".
Proof.
  unfold JS.startsWith.
  change (String.prefix "#" (String c d))
    with (if ascii_dec "#" c then String.prefix "" d else false).
  destruct (ascii_dec "#" c) as [<-|Hne].
  - destruct d; reflexivity.
  - symmetry. apply Ascii.eqb_neq. congruence.
Qed.

Lemma stripHash_hash (d : string) : stripHash (String "#" d) = d.
Proof.
  unfold stripHash. rewrite startsWith_hash.
  unfold JS.substringFrom.
  change (String.substring (Z.to_nat 1) (String.length (String "#" d))
                           (String "#" d))
    with (String.substring 0 (S (String.length d)) d).
  apply substring_all. lia.
Qed.

Lemma stripHash_other (c : ascii) (d : string) :
  c <> "#"%char -> stripHash (String c d) = String c d.
Proof.
  intros Hc. unfold stripHash. rewrite startsWith_hash.
  apply Ascii.eqb_neq in Hc. rewrite Hc. reflexivity.
Qed.

Lemma stripHash_cases (t : string) :
  t = stripHash t \/ t = String "#" (stripHash t).
Proof.
  destruct t as [|c d]; [left; reflexivity|].
  destruct (ascii_dec c "#") as [->|Hc].
  - right. now rewrite stripHash_hash.
  - left. now rewrite stripHash_other.
Qed.

Lemma allHex_not_hash (c : ascii) (d : string) :
  JS.allHex (String c d) = true -> c <> "#"%char.
Proof.
  intros H ->. discriminate.
Qed.

Lemma stripHash_hex (d : string) :
  JS.allHex d = true -> stripHash d = d.
Proof.
  destruct d as [|c d]; [reflexivity|].
  intros H. apply stripHash_other. eapply allHex_not_hash; eauto.
Qed.

Lemma testHex_iff (n : nat) (d : string) :
  JS.testHex n d = true <-> String.length d = n /\ JS.allHex d = true.
Proof.
  unfold JS.testHex. rewrite andb_true_iff, Nat.eqb_eq. reflexivity.
Qed.

Lemma upperChar_hex (c : ascii) :
  JS.isHexDigit c = true -> JS.isHexDigit (JS.upperChar c) = true.
Proof.
  destruct c as [[] [] [] [] [] [] [] []]; vm_compute; congruence.
Qed.

Lemma upperChar_idem (c : ascii) :
  JS.upperChar (JS.upperChar c) = JS.upperChar c.
Proof.
  destruct c as [[] [] [] [] [] [] [] []]; vm_compute; reflexivity.
Qed.

Lemma toUpperCase_hex (d : string) :
  JS.allHex d = true -> JS.allHex (JS.toUpperCase d) = true.
Proof.
  induction d as [|c d IH]; simpl; [reflexivity|].
  rewrite !andb_true_iff. intros [Hc Hd].
  split; [now apply upperChar_hex | now apply IH].
Qed.

Lemma toUpperCase_length (d : string) :
  String.length (JS.toUpperCase d) = String.length d.
Proof.
  induction d; simpl; congruence.
Qed.

Lemma toUpperCase_idem (d : string) :
  JS.toUpperCase (JS.toUpperCase d) = JS.toUpperCase d.
Proof.
  induction d as [|c d IH]; simpl; [reflexivity|].
  now rewrite upperChar_idem, IH.
Qed.

Lemma doubleChars_hex (d : string) :
  JS.allHex d = true -> JS.allHex (JS.doubleChars d) = true.
Proof.
  induction d as [|c d IH]; simpl; [reflexivity|].
  rewrite !andb_true_iff. intros [Hc Hd]. auto.
Qed.

Lemma doubleChars_length (d : string) :
  String.length (JS.doubleChars d) = (2 * String.length d)%nat.
Proof.
  induction d; simpl; lia.
Qed.

Lemma canonicalHex_upper (d : string) :
  String.length d = 6%nat -> JS.allHex d = true ->
  canonicalHex (String "#" (JS.toUpperCase d)).
Proof.
  intros Hlen Hhex. split.
  - simpl. apply testHex_iff. split.
    + now rewrite toUpperCase_length.
    + now apply toUpperCase_hex.
  - simpl. rewrite toUpperCase_idem. reflexivity.
Qed.

End Hex.

Lemma validateAndNormalizeHex_stripHash (h : Host) (s : string) :
  Panel.validateAndNormalizeHex h s
  = let d := stripHash (trim h s) in
    if JS.testHex 6 d then Some ("#" ++ JS.toUpperCase d)
    else if JS.testHex 3 d then Some ("#" ++ JS.toUpperCase (JS.doubleChars d))
    else None.
Proof. reflexivity. Qed.

Lemma hexFromProperty_stripHash (h : Host) (s : string) :
  Plugin.hexFromProperty h s
  = let d := stripHash (trim h s) in
    if JS.testHex 6 d then Some (String "#" d) else None.
Proof.
  unfold Plugin.hexFromProperty. cbv zeta.
  destruct (trim h s) as [|c d]; [reflexivity|].
  unfold JS.testOptHashHex6. rewrite startsWith_hash.
  destruct (Ascii.eqb_spec c "#") as [->|Hc].
  - rewrite stripHash_hash. destruct (JS.testHex 6 d); reflexivity.
  - rewrite stripHash_other by exact Hc.
    destruct (JS.testHex 6 (String c d)); reflexivity.
Qed.

(** C4 (as amended).  Both normalisers trim the text first.  The palette
    editor then accepts exactly three or six hexadecimal digits with an
    optional leading [#] and produces [#RRGGBB] in upper case.  The resolver
    accepts exactly six hexadecimal digits with an optional leading [#] and
    produces the digits as written after a [#]: it takes no three-digit form
    and does not change the case. *)
Theorem hex_normalization_after_trim (h : Host) (s r : string) :
  (Panel.validateAndNormalizeHex h s = Some r <->
   exists d, (trim h s = d \/ trim h s = String "#" d)
             /\ JS.allHex d = true
             /\ (String.length d = 6%nat /\ r = String "#" (JS.toUpperCase d)
                 \/ String.length d = 3%nat
                    /\ r = String "#" (JS.toUpperCase (JS.doubleChars d))))
  /\ (Panel.validateAndNormalizeHex h s = Some r -> canonicalHex r)
  /\ (Plugin.hexFromProperty h s = Some r <->
      exists d, (trim h s = d \/ trim h s = String "#" d)
                /\ JS.allHex d = true
                /\ String.length d = 6%nat /\ r = String "#" d).
Proof.
  assert (Hpanel :
    Panel.validateAndNormalizeHex h s = Some r <->
    exists d, (trim h s = d \/ trim h s = String "#" d)
              /\ JS.allHex d = true
              /\ (String.length d = 6%nat /\ r = String "#" (JS.toUpperCase d)
                  \/ String.length d = 3%nat
                     /\ r = String "#" (JS.toUpperCase (JS.doubleChars d)))).
  { rewrite validateAndNormalizeHex_stripHash. cbv zeta. split.
    - intros H. exists (stripHash (trim h s)).
      split; [apply stripHash_cases|].
      destruct (JS.testHex 6 _) eqn:H6.
      + apply testHex_iff in H6. destruct H6 as [Hlen Hhex].
        injection H as <-. auto.
      + destruct (JS.testHex 3 _) eqn:H3; [|discriminate].
        apply testHex_iff in H3. destruct H3 as [Hlen Hhex].
        injection H as <-. auto.
    - intros (d & Ht & Hhex & Hr).
      assert (Hd : stripHash (trim h s) = d).
      { destruct Ht as [->| ->];
          [now apply stripHash_hex | apply stripHash_hash]. }
      rewrite Hd.
      destruct Hr as [[Hlen ->]|[Hlen ->]].
      + rewrite (proj2 (testHex_iff 6 d)) by auto. reflexivity.
      + assert (H6 : JS.testHex 6 d = false).
        { unfold JS.testHex. rewrite Hlen. reflexivity. }
        rewrite H6, (proj2 (testHex_iff 3 d)) by auto. reflexivity. }
  split; [exact Hpanel|]. split.
  - intros H. apply Hpanel in H.
    destruct H as (d & _ & Hhex & [[Hlen ->]|[Hlen ->]]).
    + now apply canonicalHex_upper.
    + apply canonicalHex_upper.
      * rewrite doubleChars_length, Hlen. reflexivity.
      * now apply doubleChars_hex.
  - rewrite hexFromProperty_stripHash. cbv zeta. split.
    + intros H. exists (stripHash (trim h s)).
      split; [apply stripHash_cases|].
      destruct (JS.testHex 6 _) eqn:H6; [|discriminate].
      apply testHex_iff in H6. destruct H6 as [Hlen Hhex].
      injection H as <-. auto.
    + intros (d & Ht & Hhex & Hlen & ->).
      assert (Hd : stripHash (trim h s) = d).
      { destruct Ht as [->| ->];
          [now apply stripHash_hex | apply stripHash_hash]. }
      rewrite Hd, (proj2 (testHex_iff 6 d)) by auto. reflexivity.
Qed.

(** Blanks, a [#] and three lower-case digits in the palette editor. *)
Lemma hex_normalization_after_trim_witness :
  Panel.validateAndNormalizeHex Scenario.vault " #abc " = Some "#AABBCC"
  /\ canonicalHex "#AABBCC".
Proof.
  assert (H : Panel.validateAndNormalizeHex Scenario.vault " #abc "
              = Some "#AABBCC").
  { apply (proj1 (hex_normalization_after_trim
                    Scenario.vault " #abc " "#AABBCC")).
    exists "abc". split; [right; reflexivity|].
    split; [reflexivity|]. right. split; reflexivity. }
  split; [exact H|].
  exact (proj1 (proj2 (hex_normalization_after_trim
                         Scenario.vault " #abc " "#AABBCC")) H).
Defined.

(** C4 as stated fails: the resolver takes no three-digit colour and keeps
    lower-case digits, and the palette editor accepts text with blanks
    around the digits. *)
Lemma hex_normalization_counterexample :
  specNormalizeHex "abc" = Some "#AABBCC"
  /\ Plugin.hexFromProperty Scenario.vault "abc" = None
  /\ specNormalizeHex "#abcdef" = Some "#ABCDEF"
  /\ Plugin.hexFromProperty Scenario.vault "#abcdef" = Some "#abcdef"
  /\ specNormalizeHex " abc" = None
  /\ Panel.validateAndNormalizeHex Scenario.vault " abc" = Some "#AABBCC".
Proof.
  repeat split; reflexivity.
Qed.

(** ** Reordering the groups *)

Section Reorder.

Variable gs : list Group.
Hypothesis unique_ids : NoDup (map group_id gs).

Lemma sorted_unique_ids : NoDup (map group_id (sortByPriority gs)).
Proof.
  eapply Permutation_NoDup; [|exact unique_ids].
  apply Permutation_map, sortByPriority_perm.
Qed.

Lemma findIndex_nth (l : list Group) (i : nat) (g : Group) :
  NoDup (map group_id l) ->
  nth_error l i = Some g ->
  Panel.findIndex (fun x => String.eqb (group_id x) (group_id g)) l
  = Z.of_nat i.
Proof.
  revert i. induction l as [|x l IH]; intros i Hnd Hnth.
  - destruct i; discriminate.
  - inversion Hnd as [|? ? Hx Hl]; subst.
    destruct i as [|i]; simpl in Hnth.
    + injection Hnth as ->. simpl. rewrite String.eqb_refl. reflexivity.
    + simpl Panel.findIndex.
      destruct (String.eqb_spec (group_id x) (group_id g)) as [Heq|_].
      * exfalso. apply Hx. rewrite Heq.
        apply in_map. eapply nth_error_In; eauto.
      * rewrite (IH i Hl Hnth).
        destruct (Z.ltb_spec (Z.of_nat i) 0); lia.
Qed.

Lemma at_of_nat {A : Type} (l : list A) (i : nat) :
  Panel.at_ l (Z.of_nat i) = nth_error l i.
Proof.
  unfold Panel.at_.
  destruct (Z.ltb_spec (Z.of_nat i) 0); [lia|].
  now rewrite Nat2Z.id.
Qed.

Lemma distinct_positions (i j : nat) (a b : Group) :
  sortedAt gs i = Some a -> sortedAt gs j = Some b -> i <> j ->
  group_id a <> group_id b.
Proof.
  unfold sortedAt. intros Ha Hb Hij Heq. apply Hij.
  pose proof sorted_unique_ids as Hnd.
  rewrite NoDup_nth_error in Hnd. apply Hnd.
  - rewrite length_map. apply nth_error_Some. congruence.
  - rewrite (map_nth_error group_id _ _ Ha), (map_nth_error group_id _ _ Hb).
    congruence.
Qed.


Lemma sortedAt_In (i : nat) (g : Group) : sortedAt gs i = Some g -> In g gs.
Proof.
  intros H. apply sortByPriority_In. eapply nth_error_In; exact H.
Qed.




End Reorder.

(** *** Arithmetic on priorities *)

Lemma toDouble_exact (n : Z) : Z.abs n <= 2 ^ 53 -> JS.toDouble n = n.
Proof.
  intros H. unfold JS.toDouble.
  destruct (Z.leb_spec (Z.abs n) (2 ^ 53)); [reflexivity | lia].
Qed.

Lemma add_one_safe (p : Z) : JS.isSafeInteger p -> JS.add p 1 = p + 1.
Proof.
  unfold JS.isSafeInteger, JS.add. intros H. apply toDouble_exact. lia.
Qed.

Lemma sub_one_safe (p : Z) : JS.isSafeInteger p -> JS.sub p 1 = p - 1.
Proof.
  unfold JS.isSafeInteger, JS.sub. intros H. apply toDouble_exact. lia.
Qed.

(** Rounding keeps the sign of a number. *)
Lemma toDouble_sign (n : Z) : (JS.toDouble n <=? 0) = (n <=? 0).
Proof.
  unfold JS.toDouble.
  destruct (Z.leb_spec (Z.abs n) (2 ^ 53)) as [|Hbig]; [reflexivity|].
  set (e := Z.log2 (Z.abs n)).
  assert (Hpos : 0 < Z.abs n) by lia.
  destruct (Z.log2_spec (Z.abs n) Hpos) as [Hlo Hhi]. fold e in Hlo, Hhi.
  assert (He : 53 <= e).
  { unfold e. change 53 with (Z.log2 (2 ^ 53)). apply Z.log2_le_mono. lia. }
  set (u := 2 ^ (e - 52)).
  assert (Hu : 0 < u) by (apply Z.pow_pos_nonneg; lia).
  assert (Hue : 2 ^ e = 2 ^ 52 * u).
  { unfold u. rewrite <- Z.pow_add_r by lia. f_equal. lia. }
  cbv zeta.
  pose proof (Z.div_mod n u ltac:(lia)) as Hdm.
  pose proof (Z.mod_pos_bound n u Hu) as Hr.
  set (q := n / u) in *. set (r := n mod u) in *.
  assert (Hcases : (0 < n /\ 2 ^ 52 <= q) \/ (n < 0 /\ q <= - 2 ^ 52)).
  { destruct (Z.abs_spec n) as [[Hn Ha]|[Hn Ha]]; rewrite Ha in *.
    - left. split; [lia|]. nia.
    - right. split; [lia|]. nia. }
  assert (H52 : 0 < 2 ^ 52) by lia.
  destruct Hcases as [[Hn Hq]|[Hn Hq]].
  - assert (0 < q * u) by nia. assert (0 < (q + 1) * u) by nia.
    destruct (2 * r <? u), (u <? 2 * r), (Z.even q);
      repeat match goal with |- context [?a <=? 0] =>
        destruct (Z.leb_spec a 0) end; try reflexivity; lia.
  - assert (q * u < 0) by nia. assert ((q + 1) * u < 0) by nia.
    destruct (2 * r <? u), (u <? 2 * r), (Z.even q);
      repeat match goal with |- context [?a <=? 0] =>
        destruct (Z.leb_spec a 0) end; try reflexivity; lia.
Qed.

(** The comparator of the sort decides as the exact difference does. *)
Lemma comparator_sign (a b : Group) :
  (JS.sub (priority b) (priority a) <=? 0)
  = (priority b - priority a <=? 0).
Proof. apply toDouble_sign. Qed.

(** Past the safe integers a step of one is lost: [2^53 + 1] is [2^53]
    again, and [-2^53 - 1] is [-2^53]. *)
Lemma step_lost_at_limit :
  JS.add (2 ^ 53) 1 = 2 ^ 53 /\ JS.sub (- 2 ^ 53) 1 = - 2 ^ 53.
Proof. split; vm_compute; reflexivity. Qed.

(** *** What the handlers return *)

Lemma onGroupMoveUp_result (gs : list Group) (g higher : Group) (i : nat) :
  NoDup (map group_id gs) ->
  sortedAt gs i = Some g -> (0 < i)%nat -> sortedAt gs (i - 1) = Some higher ->
  Panel.onGroupMoveUp (group_id g) gs
  = Panel.Done (withPriorities (group_id g) (JS.add (priority higher) 1)
                               (group_id higher) (priority g) gs).
Proof.
  intros Hnd Hg Hpos Hh. unfold Panel.onGroupMoveUp. cbv zeta.
  rewrite (findIndex_nth (sortByPriority gs) i g (sorted_unique_ids gs Hnd) Hg).
  destruct (Z.ltb_spec 0 (Z.of_nat i)); [|lia].
  rewrite at_of_nat.
  replace (Z.of_nat i - 1) with (Z.of_nat (i - 1)) by lia.
  rewrite at_of_nat.
  unfold sortedAt in Hg, Hh. rewrite Hg, Hh. reflexivity.
Qed.

Lemma onGroupMoveDown_result (gs : list Group) (g lower : Group) (i : nat) :
  NoDup (map group_id gs) ->
  sortedAt gs i = Some g -> sortedAt gs (S i) = Some lower ->
  Panel.onGroupMoveDown (group_id g) gs
  = Panel.Done (withPriorities (group_id g) (JS.sub (priority lower) 1)
                               (group_id lower) (priority g) gs).
Proof.
  intros Hnd Hg Hl. unfold Panel.onGroupMoveDown. cbv zeta.
  rewrite (findIndex_nth (sortByPriority gs) i g (sorted_unique_ids gs Hnd) Hg).
  assert (Hlen : (S i < length (sortByPriority gs))%nat)
    by (apply nth_error_Some; unfold sortedAt in Hl; congruence).
  destruct (Z.ltb_spec (Z.of_nat i)
              (Z.of_nat (length (sortByPriority gs)) - 1)); [|lia].
  rewrite at_of_nat.
  replace (Z.of_nat i + 1) with (Z.of_nat (S i)) by lia.
  rewrite at_of_nat.
  unfold sortedAt in Hg, Hl. rewrite Hg, Hl. reflexivity.
Qed.



(** *** The ordering after an exchange *)








Section Exchange.

Variables (ida idb : string) (qa qb : Z).
Hypothesis distinct_ids : ida <> idb.
Hypothesis distinct_priorities : qa <> qb.




End Exchange.



Lemma order_scenario_unique_ids : NoDup (map group_id OrderScenario.both).
Proof.
  simpl. repeat constructor; simpl; intros H;
    repeat destruct H as [H|H]; try discriminate; exact H.
Qed.





(** ** Validation of the palette *)

Section Validation.

Variable h : Host.

Lemma insertByIndex_perm {A : Type} (e : N * A) (l : list (N * A)) :
  Permutation (e :: l) (Panel.insertByIndex e l).
Proof.
  induction l as [|x l IH]; simpl; [reflexivity|].
  destruct (fst e <=? fst x)%N; [reflexivity|].
  rewrite perm_swap. apply perm_skip, IH.
Qed.

(** [Object.entries] lists every own property once. *)
Lemma entries_perm (o : Panel.NameMap) : Permutation (Panel.entries o) o.
Proof.
  unfold Panel.entries, Panel.indexed.
  induction o as [|entry o IH]; [reflexivity|]. simpl.
  destruct (Panel.arrayIndex (fst entry)) as [n|]; simpl.
  - rewrite <- insertByIndex_perm. simpl. apply perm_skip, IH.
  - rewrite <- Permutation_middle. apply perm_skip, IH.
Qed.

Lemma entries_In (o : Panel.NameMap) (entry : string * list Color) :
  In entry (Panel.entries o) <-> In entry o.
Proof.
  split; apply Permutation_in; [|symmetry]; apply entries_perm.
Qed.

Lemma getOwn_setOwn (o : Panel.NameMap) (k k' : string) (v : list Color) :
  Panel.getOwn (Panel.setOwn o k v) k'
  = if String.eqb k k' then Some v else Panel.getOwn o k'.
Proof.
  induction o as [|[k0 v0] o IH]; simpl.
  - destruct (String.eqb k k'); reflexivity.
  - destruct (String.eqb_spec k0 k) as [->|Hne]; simpl.
    + destruct (String.eqb k k'); reflexivity.
    + rewrite IH.
      destruct (String.eqb_spec k0 k') as [->|_]; [|reflexivity].
      destruct (String.eqb_spec k k'); [congruence | reflexivity].
Qed.

Lemma setOwn_keys (o : Panel.NameMap) (k : string) (v : list Color) :
  map fst (Panel.setOwn o k v)
  = match Panel.getOwn o k with
    | Some _ => map fst o
    | None => (map fst o ++ [k])%list
    end.
Proof.
  induction o as [|[k0 v0] o IH]; simpl; [reflexivity|].
  destruct (String.eqb_spec k0 k) as [->|Hne]; simpl; [reflexivity|].
  rewrite IH. destruct (Panel.getOwn o k); reflexivity.
Qed.

Lemma getOwn_None_keys (o : Panel.NameMap) (k : string) :
  Panel.getOwn o k = None -> ~ In k (map fst o).
Proof.
  induction o as [|[k0 v0] o IH]; simpl; [tauto|].
  destruct (String.eqb_spec k0 k); [discriminate|].
  intros H [Heq|Hin]; [congruence | exact (IH H Hin)].
Qed.

Lemma setOwn_NoDup (o : Panel.NameMap) (k : string) (v : list Color) :
  NoDup (map fst o) -> NoDup (map fst (Panel.setOwn o k v)).
Proof.
  intros Hnd. rewrite setOwn_keys.
  destruct (Panel.getOwn o k) eqn:Hk; [exact Hnd|].
  apply NoDup_app; [exact Hnd | repeat constructor; intros [] |].
  intros x Hx [<-|[]]. exact (getOwn_None_keys o k Hk Hx).
Qed.

(** With distinct keys, the entries are the own properties. *)
Lemma In_getOwn (o : Panel.NameMap) (k : string) (v : list Color) :
  NoDup (map fst o) -> (In (k, v) o <-> Panel.getOwn o k = Some v).
Proof.
  induction o as [|[k0 v0] o IH]; simpl; intros Hnd.
  - split; [tauto | discriminate].
  - inversion Hnd as [|? ? Hk0 Ho]; subst.
    destruct (String.eqb_spec k0 k) as [->|Hne].
    + split.
      * intros [[= ->]|Hin]; [reflexivity|].
        exfalso. apply Hk0. change k with (fst (k, v)). now apply in_map.
      * intros [= ->]. left; reflexivity.
    + rewrite <- (IH Ho). split; [|tauto].
      intros [[= -> ->]|Hin]; [congruence | exact Hin].
Qed.

Lemma merge_nil (slot : option (list Color)) : merge slot [] = slot.
Proof.
  destruct slot; simpl; [rewrite app_nil_r|]; reflexivity.
Qed.

Lemma merge_app (slot : option (list Color)) (l1 l2 : list Color) :
  merge (merge slot l1) l2 = merge slot (l1 ++ l2).
Proof.
  destruct slot as [cs|]; simpl.
  - now rewrite app_assoc.
  - destruct l1; reflexivity.
Qed.

Lemma grouped_cons (k : string) (c : Color) (rest : list Color) :
  grouped h k (c :: rest) = (grouped h k [c] ++ grouped h k rest)%list.
Proof.
  unfold grouped, sameKey. destruct (String.eqb k ""); [reflexivity|].
  simpl. destruct (String.eqb (nameKey h c) k); reflexivity.
Qed.

(** One step of the grouping, for a name that is not inherited. *)
Lemma addName_spec (o : Panel.NameMap) (c : Color) :
  Panel.isInherited (nameKey h c) = false ->
  NoDup (map fst o) ->
  exists o1,
    Panel.addName h o c = Panel.Done o1
    /\ NoDup (map fst o1)
    /\ forall k, Panel.getOwn o1 k = merge (Panel.getOwn o k) (grouped h k [c]).
Proof.
  intros Hplain Hnd. unfold Panel.addName. fold (nameKey h c).
  set (n := nameKey h c) in *.
  destruct (String.eqb_spec n "") as [Hn|Hn]; simpl negb; cbv iota.
  - exists o. split; [reflexivity|]. split; [exact Hnd|].
    intros k. unfold grouped, sameKey. simpl. fold n.
    destruct (String.eqb_spec k "") as [->|Hk]; [now rewrite merge_nil|].
    destruct (String.eqb_spec n k); [congruence | now rewrite merge_nil].
  - assert (Hg : forall k, grouped h k [c] = if String.eqb n k then [c] else []).
    { intros k. unfold grouped, sameKey. simpl. fold n.
      destruct (String.eqb_spec k "") as [->|Hk].
      - destruct (String.eqb_spec n ""); [congruence | reflexivity].
      - destruct (String.eqb n k); reflexivity. }
    unfold Panel.getSlot.
    destruct (Panel.getOwn o n) as [cs|] eqn:Hown; cbv iota.
    + rewrite Hown.
      eexists. split; [reflexivity|].
      split; [now apply setOwn_NoDup|].
      intros k. rewrite getOwn_setOwn, Hg.
      destruct (String.eqb_spec n k) as [<-|_];
        [rewrite Hown; reflexivity | now rewrite merge_nil].
    + rewrite Hplain. cbv iota.
      rewrite getOwn_setOwn, String.eqb_refl.
      eexists. split; [reflexivity|].
      split; [now apply setOwn_NoDup, setOwn_NoDup|].
      intros k. rewrite !getOwn_setOwn, Hg.
      destruct (String.eqb_spec n k) as [<-|_];
        [rewrite Hown; reflexivity | now rewrite merge_nil].
Qed.

(** The grouping of a palette without inherited names. *)
Lemma collectNames_spec (pal : list Color) (o : Panel.NameMap) :
  plainNames h pal ->
  NoDup (map fst o) ->
  exists o',
    Panel.collectNames h pal o = Panel.Done o'
    /\ NoDup (map fst o')
    /\ forall k, Panel.getOwn o' k = merge (Panel.getOwn o k) (grouped h k pal).
Proof.
  revert o. induction pal as [|c pal IH]; intros o Hplain Hnd.
  - exists o. split; [reflexivity|]. split; [exact Hnd|].
    intros k. unfold grouped, sameKey. simpl.
    destruct (String.eqb k ""); now rewrite merge_nil.
  - destruct (addName_spec o c (Hplain c (or_introl eq_refl)) Hnd)
      as (o1 & Hadd & Hnd1 & Hget1).
    destruct (IH o1 (fun x Hx => Hplain x (or_intror Hx)) Hnd1)
      as (o' & Hcol & Hnd' & Hget').
    exists o'. split; [simpl; rewrite Hadd; exact Hcol|].
    split; [exact Hnd'|].
    intros k. rewrite Hget', Hget1, merge_app, <- grouped_cons. reflexivity.
Qed.

End Validation.

(** X13.  For a palette without inherited names, [onSave] reports every
    invalid value and every set of colours named alike, reports nothing
    else, and saves exactly when there is nothing to report. *)
Theorem onSave_reports_every_conflict
        (h : Host) (s : Settings) (pal : list Color) :
  plainNames h pal ->
  exists errors,
    (forall c, In c pal -> invalidHex h c ->
               exists e, In e errors /\ Panel.errorType e = Panel.InvalidHex
                         /\ Panel.colorIds e = [color_id c])
    /\ (forall c, In c pal -> nameKey h c <> "" ->
                  (2 <= length (sameKey h (nameKey h c) pal))%nat ->
                  exists e, In e errors
                            /\ Panel.errorType e = Panel.DuplicateName
                            /\ Panel.colorIds e
                               = map color_id (sameKey h (nameKey h c) pal))
    /\ (forall e, In e errors ->
                  (exists c, In c pal /\ invalidHex h c
                             /\ Panel.errorType e = Panel.InvalidHex
                             /\ Panel.colorIds e = [color_id c])
                  \/ (exists c, In c pal /\ nameKey h c <> ""
                                /\ (2 <= length (sameKey h (nameKey h c) pal))%nat
                                /\ Panel.errorType e = Panel.DuplicateName
                                /\ Panel.colorIds e
                                   = map color_id (sameKey h (nameKey h c) pal)))
    /\ (errors <> [] -> Panel.onSave h s pal = Panel.Rejected errors)
    /\ (errors = [] -> exists s', Panel.onSave h s pal = Panel.Saved s').
Proof.
  intros Hplain.
  destruct (collectNames_spec h pal [] Hplain (NoDup_nil _))
    as (o' & Hcol & Hnd & Hget).
  simpl in Hget.
  exists (Panel.invalidHexErrors h pal ++ Panel.duplicateNameErrors h o')%list.
  split; [|split; [|split; [|split]]].
  - intros c Hc Hbad. eexists. split.
    + apply in_or_app. left. unfold Panel.invalidHexErrors.
      apply in_flat_map. exists c. split; [exact Hc|].
      unfold invalidHex in Hbad. rewrite Hbad. left; reflexivity.
    + split; reflexivity.
  - intros c Hc Hkey Hmany.
    set (k := nameKey h c) in *.
    assert (Hown : Panel.getOwn o' k = Some (sameKey h k pal)).
    { rewrite Hget. unfold grouped.
      apply string_eqb_false_iff in Hkey. rewrite Hkey.
      destruct (sameKey h k pal); [simpl in Hmany; lia | reflexivity]. }
    apply In_getOwn in Hown; [|exact Hnd].
    eexists. split.
    + apply in_or_app. right. unfold Panel.duplicateNameErrors.
      apply in_flat_map. exists (k, sameKey h k pal).
      split; [apply entries_In; exact Hown|].
      simpl snd.
      destruct (Nat.ltb_spec 1 (length (sameKey h k pal))); [|lia].
      left; reflexivity.
    + split; reflexivity.
  - intros e He. apply in_app_or in He. destruct He as [He|He].
    + left. unfold Panel.invalidHexErrors in He. apply in_flat_map in He.
      destruct He as (c & Hc & He). exists c.
      destruct (JS.testHashHex6 (trim h (color_value c))) eqn:Htest;
        simpl in He; [contradiction|].
      destruct He as [<-|[]]. repeat split; assumption.
    + right. unfold Panel.duplicateNameErrors in He. apply in_flat_map in He.
      destruct He as ([k cs] & Hentry & He). simpl snd in He.
      apply (proj1 (entries_In _ _)) in Hentry.
      destruct (Nat.ltb_spec 1 (length cs)) as [Hlen|]; [|contradiction].
      destruct He as [<-|[]].
      apply In_getOwn in Hentry; [|exact Hnd].
      rewrite Hget in Hentry. unfold grouped in Hentry.
      destruct (String.eqb_spec k "") as [|Hk]; [discriminate|].
      assert (Hcs : sameKey h k pal = cs).
      { destruct (sameKey h k pal); [discriminate|]. now injection Hentry. }
      destruct cs as [|c cs']; [simpl in Hlen; lia|].
      assert (Hc : In c (sameKey h k pal)) by (rewrite Hcs; left; reflexivity).
      unfold sameKey in Hc. apply filter_In in Hc. destruct Hc as [Hc Heq].
      apply String.eqb_eq in Heq.
      exists c. rewrite Heq, Hcs. repeat split; try assumption.
  - intros Hne. unfold Panel.onSave. rewrite Hcol.
    destruct (Panel.invalidHexErrors h pal ++ Panel.duplicateNameErrors h o')%list
      eqn:He; [congruence | reflexivity].
  - intros He. unfold Panel.onSave. rewrite Hcol, He.
    eexists; reflexivity.
Qed.

Lemma palette_scenario_plain :
  plainNames PaletteScenario.host PaletteScenario.conflicts.
Proof.
  intros c Hc. simpl in Hc.
  repeat destruct Hc as [<-|Hc]; try reflexivity. contradiction.
Qed.

(** The invalid value of [a] and the three colours named alike are reported
    together. *)
Example onSave_rejects_conflicts_together :
  plainNames PaletteScenario.host PaletteScenario.conflicts
  /\ exists errors,
       Panel.onSave PaletteScenario.host defaultSettings
                    PaletteScenario.conflicts
       = Panel.Rejected errors
       /\ map Panel.colorIds errors = [["a"]; ["a"; "b"; "c"]].
Proof.
  split; [exact palette_scenario_plain|].
  eexists. split; reflexivity.
Qed.

(** C8 fails on the code for a colour named after an inherited property:
    the lookup [nameToColors[name]] finds the property of [Object.prototype],
    [push] is not a function, the handler throws and nothing is reported,
    the invalid value of the colour included. *)
Theorem onSave_throws_on_inherited_name :
  invalidHex PaletteScenario.host (mkColor "a" "constructor" "#12")
  /\ Panel.addName PaletteScenario.host [] (mkColor "a" "constructor" "#12")
     = Panel.TypeError
  /\ (forall s, Panel.onSave PaletteScenario.host s PaletteScenario.inherited
                = Panel.Threw).
Proof.
  repeat split; reflexivity.
Qed.

(** * Further properties of the plugin *)

(** ** Renaming a file *)

Lemma findManual_onRename_new (s : Settings) (old new : string) :
  Plugin.findManual s new = None ->
  Plugin.findManual (Vault.onRename s old new) new
  = option_map (fun fc => mkFileColor new (fc_color fc))
               (Plugin.findManual s old).
Proof.
  unfold Plugin.findManual, Vault.onRename. simpl fileColors.
  induction (fileColors s) as [|x l IH]; [reflexivity|]. simpl.
  destruct (String.eqb_spec (fc_path x) new) as [|Hnew]; [discriminate|].
  intros Hrest.
  destruct (String.eqb_spec (fc_path x) old) as [Hold|Hold]; simpl.
  - rewrite String.eqb_refl. reflexivity.
  - destruct (String.eqb_spec (fc_path x) new); [contradiction|].
    apply IH, Hrest.
Qed.

Lemma findManual_onRename_old (s : Settings) (old new : string) :
  old <> new -> Plugin.findManual (Vault.onRename s old new) old = None.
Proof.
  intros Hne. unfold Plugin.findManual, Vault.onRename. simpl fileColors.
  induction (fileColors s) as [|x l IH]; [reflexivity|]. simpl.
  destruct (String.eqb_spec (fc_path x) old) as [Hold|Hold]; simpl.
  - destruct (String.eqb_spec new old); [congruence | exact IH].
  - destruct (String.eqb_spec (fc_path x) old); [contradiction | exact IH].
Qed.

Lemma findManual_onRename_other (s : Settings) (old new p : string) :
  p <> old -> p <> new ->
  Plugin.findManual (Vault.onRename s old new) p = Plugin.findManual s p.
Proof.
  intros Hold Hnew. unfold Plugin.findManual, Vault.onRename. simpl fileColors.
  induction (fileColors s) as [|x l IH]; [reflexivity|]. simpl.
  destruct (String.eqb_spec (fc_path x) old) as [Hx|Hx]; simpl.
  - destruct (String.eqb_spec new p); [congruence|].
    destruct (String.eqb_spec (fc_path x) p); [congruence | exact IH].
  - destruct (String.eqb_spec (fc_path x) p); [reflexivity | exact IH].
Qed.

(** X1.  When a coloured file is renamed to a path that holds no manual
    colour, the manual colour follows it: the resolver gives the new path
    the colour the old path had, the old path has no entry any more, and
    the entries of all other paths, the palette and the groups stay. *)
Theorem rename_moves_manual_color
        (s : Settings) (old new : string) (fc : FileColor) :
  Plugin.findManual s old = Some fc ->
  fc_color fc <> "" ->
  Plugin.findManual s new = None ->
  Plugin.findManual (Vault.onRename s old new) new
  = Some (mkFileColor new (fc_color fc))
  /\ Plugin.findManual (Vault.onRename s old new) old = None
  /\ (forall h, Plugin.resolveColor h (Vault.onRename s old new) new
                = (Some (fc_color fc), false))
  /\ (forall p, p <> old -> p <> new ->
                Plugin.findManual (Vault.onRename s old new) p
                = Plugin.findManual s p)
  /\ palette (Vault.onRename s old new) = palette s
  /\ groups (Vault.onRename s old new) = groups s.
Proof.
  intros Hold Hcol Hnew.
  assert (Hne : old <> new) by (intros ->; congruence).
  assert (Hmoved : Plugin.findManual (Vault.onRename s old new) new
                   = Some (mkFileColor new (fc_color fc))).
  { rewrite findManual_onRename_new by exact Hnew. rewrite Hold. reflexivity. }
  split; [exact Hmoved|].
  split; [now apply findManual_onRename_old|].
  split.
  { intros h. exact (resolveColor_manual h _ _ _ Hmoved Hcol). }
  split; [|split; reflexivity].
  intros p Hp1 Hp2. now apply findManual_onRename_other.
Qed.

(** The colour of [notes/a.md] follows the file to [notes/b.md]. *)
Lemma rename_moves_manual_color_witness :
  Plugin.resolveColor Scenario.vault
    (Vault.onRename Scenario.redManual Scenario.notePath "notes/b.md")
    "notes/b.md"
  = (Some "c1", false).
Proof.
  exact (proj1 (proj2 (proj2
           (rename_moves_manual_color
              Scenario.redManual Scenario.notePath "notes/b.md"
              (mkFileColor Scenario.notePath "c1")
              eq_refl ltac:(discriminate) eq_refl)))
           Scenario.vault).
Defined.

(** ** Conditions *)

Section Paths.

Lemma length_app_string (a b : string) :
  String.length (a ++ b) = (String.length a + String.length b)%nat.
Proof.
  induction a as [|c a IH]; simpl; [reflexivity | now rewrite IH].
Qed.

Lemma containsChar_app (c : ascii) (a b : string) :
  containsChar c (a ++ b) = containsChar c a || containsChar c b.
Proof.
  induction a as [|d a IH]; simpl; [reflexivity|].
  now rewrite IH, orb_assoc.
Qed.

Lemma lastIndexOf_absent (c : ascii) (s : string) :
  containsChar c s = false -> JS.lastIndexOf s c = -1.
Proof.
  induction s as [|d s IH]; simpl; [reflexivity|].
  rewrite orb_false_iff. intros [Hd Hs]. rewrite (IH Hs), Hd. reflexivity.
Qed.

Lemma lastIndexOf_last (c : ascii) (a n : string) :
  containsChar c n = false ->
  JS.lastIndexOf (a ++ String c n) c = Z.of_nat (String.length a).
Proof.
  intros Hn. induction a as [|d a IH].
  - simpl. rewrite (lastIndexOf_absent c n Hn), Ascii.eqb_refl. reflexivity.
  - change (JS.lastIndexOf (String d a ++ String c n) c)
      with (let i := JS.lastIndexOf (a ++ String c n) c in
            if 0 <=? i then i + 1 else if Ascii.eqb d c then 0 else -1).
    cbv zeta. rewrite IH.
    destruct (Z.leb_spec 0 (Z.of_nat (String.length a))); [|lia].
    simpl String.length. lia.
Qed.

Lemma substring_skip (a b : string) (k m : nat) :
  String.substring (String.length a + k) m (a ++ b) = String.substring k m b.
Proof.
  induction a as [|c a IH]; [reflexivity | exact IH].
Qed.

Lemma substring_prefix (a b : string) :
  String.substring 0 (String.length a) (a ++ b) = a.
Proof.
  induction a as [|c a IH]; simpl.
  - destruct b; reflexivity.
  - now rewrite IH.
Qed.

Lemma substringFrom_zero (s : string) : JS.substringFrom s 0 = s.
Proof.
  unfold JS.substringFrom. apply substring_all. simpl. lia.
Qed.

Lemma substringFrom_after (c : ascii) (a n : string) :
  JS.substringFrom (a ++ String c n) (Z.of_nat (String.length a) + 1) = n.
Proof.
  unfold JS.substringFrom.
  replace (Z.to_nat (Z.of_nat (String.length a) + 1))
    with (String.length a + 1)%nat by lia.
  rewrite substring_skip.
  change (String.substring 1 (String.length (a ++ String c n)) (String c n))
    with (String.substring 0 (String.length (a ++ String c n)) n).
  apply substring_all. rewrite length_app_string. simpl. lia.
Qed.

Lemma substringTo_prefix (a b : string) :
  FolderNotes.substringTo (a ++ b) (Z.of_nat (String.length a)) = a.
Proof.
  unfold FolderNotes.substringTo. rewrite Nat2Z.id. apply substring_prefix.
Qed.

(** The text a file-name pattern is tested against. *)
Lemma file_name_of_path (dir name : string) :
  containsChar "/" name = false ->
  JS.substringFrom (dir ++ "/" ++ name)
                   (JS.lastIndexOf (dir ++ "/" ++ name) "/" + 1)
  = name
  /\ JS.substringFrom name (JS.lastIndexOf name "/" + 1) = name.
Proof.
  intros Hname. split.
  - change (dir ++ "/" ++ name) with (dir ++ String "/" name).
    rewrite lastIndexOf_last by exact Hname. apply substringFrom_after.
  - rewrite lastIndexOf_absent by exact Hname. apply substringFrom_zero.
Qed.

End Paths.

(** X2.  A pattern that is not matched against the full path sees the file
    name only: the verdict for a file is the same in every folder and at the
    root of the vault, it is the result of the test on the name, and a
    pattern the [RegExp] constructor refuses matches nothing. *)
Theorem file_name_pattern_ignores_folder
        (h : Host) (c : Condition) (dir name : string) :
  cond_type c = CRegex ->
  matchFullPath c = false ->
  containsChar "/" name = false ->
  Plugin.evaluateCondition h (dir ++ "/" ++ name) c
  = Plugin.evaluateCondition h name c
  /\ Plugin.evaluateCondition h name c
     = match regexTest h (pattern c) name with
       | Some verdict => verdict
       | None => false
       end.
Proof.
  intros Htype Hfull Hname.
  destruct (file_name_of_path dir name Hname) as [Hdir Hroot].
  unfold Plugin.evaluateCondition. rewrite Htype, Hfull.
  rewrite Hdir, Hroot. split; reflexivity.
Qed.

(** The file [draft1.md] under [notes] and at the root. *)
Lemma file_name_pattern_ignores_folder_witness :
  Plugin.evaluateCondition Scenario.vault ("notes" ++ "/" ++ "draft1.md")
    (mkCondition "k" CRegex "draft" false "" "" OpEquals)
  = Plugin.evaluateCondition Scenario.vault "draft1.md"
      (mkCondition "k" CRegex "draft" false "" "" OpEquals)
  /\ Plugin.evaluateCondition Scenario.vault "draft1.md"
       (mkCondition "k" CRegex "draft" false "" "" OpEquals)
     = true.
Proof.
  exact (file_name_pattern_ignores_folder
           Scenario.vault (mkCondition "k" CRegex "draft" false "" "" OpEquals)
           "notes" "draft1.md" eq_refl eq_refl eq_refl).
Defined.

Lemma includes_prefix (s needle : string) :
  String.prefix needle s = true -> JS.includes s needle = true.
Proof.
  intros H. destruct s; cbn [JS.includes]; rewrite H; reflexivity.
Qed.

Lemma includes_iff (s needle : string) :
  JS.includes s needle = true <-> exists a b, s = a ++ needle ++ b.
Proof.
  split.
  - induction s as [|c s IH]; cbn [JS.includes].
    + destruct (String.prefix needle "") eqn:Hp; [|discriminate].
      intros _. apply prefix_split in Hp. destruct Hp as [t Ht].
      exists "", t. exact Ht.
    + destruct (String.prefix needle (String c s)) eqn:Hp.
      * intros _. apply prefix_split in Hp. destruct Hp as [t Ht].
        exists "", t. exact Ht.
      * intros H. destruct (IH H) as (a & b & ->).
        exists (String c a), b. reflexivity.
  - intros (a & b & ->). induction a as [|c a IH].
    + apply includes_prefix. simpl append. apply prefix_app.
    + change (String c a ++ needle ++ b) with (String c (a ++ needle ++ b)).
      cbn [JS.includes]. rewrite IH.
      destruct (String.prefix needle (String c (a ++ needle ++ b)));
        reflexivity.
Qed.

Lemma forallb_isTrue (l : list bool) :
  forallb (fun b => Bool.eqb b true) l = true <-> forall b, In b l -> b = true.
Proof.
  rewrite forallb_forall. split; intros H b Hb.
  - apply Bool.eqb_prop. now apply H.
  - rewrite (H b Hb). reflexivity.
Qed.

Lemma groupMatches_iff (h : Host) (path : string) (g : Group) :
  Plugin.groupMatches h path g = true <->
  conditions g <> []
  /\ forall c, In c (conditions g) -> Plugin.evaluateCondition h path c = true.
Proof.
  unfold Plugin.groupMatches, Plugin.allConditionsMatch.
  destruct (conditions g) as [|c0 cs] eqn:Hc.
  - split; [discriminate | intros [H _]; congruence].
  - rewrite forallb_isTrue. split.
    + intros H. split; [discriminate|].
      intros c Hin. apply H. now apply in_map.
    + intros [_ H] b Hb. apply in_map_iff in Hb.
      destruct Hb as (c & <- & Hin). now apply H.
Qed.

(** X3.  A property condition is false for every item that is not a
    markdown file or has no frontmatter, whatever its operator; a group
    that holds such a condition does not match the item, and a group that
    takes its colour from a property yields none for it. *)
Theorem property_condition_needs_frontmatter
        (h : Host) (path : string) (c : Condition) (g : Group) :
  isMarkdown h path = false \/ getFrontmatter h path = None ->
  cond_type c = CProperty ->
  Plugin.evaluateCondition h path c = false
  /\ (In c (conditions g) -> Plugin.groupMatches h path g = false)
  /\ Plugin.colorFromProperty h path g = None.
Proof.
  intros Hno Htype.
  assert (Heval : Plugin.evaluateCondition h path c = false).
  { unfold Plugin.evaluateCondition. rewrite Htype.
    destruct (isMarkdown h path); [|reflexivity].
    destruct Hno as [Hno|Hno]; [discriminate|]. rewrite Hno. reflexivity. }
  split; [exact Heval|]. split.
  - intros Hin.
    destruct (Plugin.groupMatches h path g) eqn:Hm; [|reflexivity].
    apply groupMatches_iff in Hm. destruct Hm as [_ Hall].
    rewrite (Hall c Hin) in Heval. discriminate.
  - unfold Plugin.colorFromProperty.
    destruct (isMarkdown h path); [|reflexivity].
    destruct Hno as [Hno|Hno]; [discriminate|]. rewrite Hno. reflexivity.
Qed.

(** The folder [notes] of the vault is no markdown file. *)
Lemma property_condition_needs_frontmatter_witness :
  Plugin.evaluateCondition Scenario.vault "notes" (Scenario.propertyExists "bg")
  = false
  /\ Plugin.groupMatches Scenario.vault "notes" Scenario.byPalette = false.
Proof.
  pose proof (property_condition_needs_frontmatter
                Scenario.vault "notes" (Scenario.propertyExists "bg")
                Scenario.byPalette (or_introl eq_refl) eq_refl)
    as (Heval & Hgroup & _).
  split; [exact Heval|]. apply Hgroup. left; reflexivity.
Defined.

(** X4.  For a markdown file with frontmatter, the value of a property is
    the own property of that key or else the member of [Object.prototype]
    of that name, and a property condition is false when there is neither.
    For a value whose numbers are safe integers: [exists] holds whatever
    the value is, so also for a key such as [constructor] that only the
    prototype knows; [equals] compares the text of the value with the
    expected text; [contains] asks for an element whose text is the
    expected text when the value is a list, and for a substring of the text
    of the value otherwise. *)
Theorem property_operators
        (h : Host) (path : string) (c : Condition) (fm : Frontmatter) :
  isMarkdown h path = true ->
  getFrontmatter h path = Some fm ->
  cond_type c = CProperty ->
  (getProperty fm (propertyName c) = None <->
   getOwnProperty fm (propertyName c) = None
   /\ JS.inheritedText JS.objectPrototype (propertyName c) = None)
  /\ (forall text,
         getOwnProperty fm (propertyName c) = None ->
         JS.inheritedText JS.objectPrototype (propertyName c) = Some text ->
         getProperty fm (propertyName c) = Some (VObject text))
  /\ (getProperty fm (propertyName c) = None ->
      Plugin.evaluateCondition h path c = false)
  /\ (forall v,
         getProperty fm (propertyName c) = Some v ->
         safeValue v ->
         (propertyOperator c = OpExists ->
          Plugin.evaluateCondition h path c = true)
         /\ (propertyOperator c = OpEquals ->
             (Plugin.evaluateCondition h path c = true <->
              stringOfValue v = propertyValue c))
         /\ (propertyOperator c = OpContains ->
             forall elems, v = VArray elems ->
             (Plugin.evaluateCondition h path c = true <->
              exists e, In e elems /\ stringOfScalar e = propertyValue c))
         /\ (propertyOperator c = OpContains ->
             forall x, v = VScalar x ->
             (Plugin.evaluateCondition h path c = true <->
              exists a b, stringOfScalar x = a ++ propertyValue c ++ b))
         /\ (propertyOperator c = OpContains ->
             forall text, v = VObject text ->
             (Plugin.evaluateCondition h path c = true <->
              exists a b, text = a ++ propertyValue c ++ b))).
Proof.
  intros Hmd Hfm Htype.
  split; [|split].
  - unfold getProperty.
    destruct (getOwnProperty fm (propertyName c)); [split|].
    + discriminate.
    + intros [H _]. discriminate.
    + destruct (JS.inheritedText JS.objectPrototype (propertyName c));
        simpl; split; try tauto; try discriminate.
      intros [_ H]. discriminate.
  - intros text Hown Hinh. unfold getProperty. now rewrite Hown, Hinh.
  - unfold Plugin.evaluateCondition. rewrite Htype, Hmd, Hfm. simpl negb.
    cbv iota. split.
    + intros ->. reflexivity.
    + intros v -> _. split; [intros ->; reflexivity|].
      split; [intros ->; apply String.eqb_eq|].
      split; [|split].
      * intros -> elems ->. rewrite existsb_exists.
        split; intros (e & Hin & He); exists e; split; try assumption.
        -- now apply String.eqb_eq.
        -- now apply String.eqb_eq.
      * intros -> x ->. apply includes_iff.
      * intros -> text ->. apply includes_iff.
Qed.

(** A list of tags: [contains] finds the element [b], not its part; and a
    note whose frontmatter is empty has the property [constructor]. *)
Lemma property_operators_witness :
  Plugin.evaluateCondition
    (Ascii7.host [("n.md", [("tags", VArray [SString "ab"; SString "b"])])])
    "n.md" (mkCondition "k" CProperty "" false "tags" "b" OpContains)
  = true
  /\ Plugin.evaluateCondition
       (Ascii7.host [("n.md", [])])
       "n.md" (mkCondition "k" CProperty "" false "constructor" "" OpExists)
     = true.
Proof.
  split.
  - pose proof (property_operators
                  (Ascii7.host
                     [("n.md", [("tags", VArray [SString "ab"; SString "b"])])])
                  "n.md"
                  (mkCondition "k" CProperty "" false "tags" "b" OpContains)
                  [("tags", VArray [SString "ab"; SString "b"])]
                  eq_refl eq_refl eq_refl) as (_ & _ & _ & Hpresent).
    destruct (Hpresent (VArray [SString "ab"; SString "b"]) eq_refl)
      as (_ & _ & Hlist & _).
    + repeat constructor.
    + apply (Hlist eq_refl [SString "ab"; SString "b"] eq_refl).
      exists (SString "b"). split; [right; left; reflexivity | reflexivity].
  - pose proof (property_operators
                  (Ascii7.host [("n.md", [])]) "n.md"
                  (mkCondition "k" CProperty "" false "constructor" ""
                               OpExists)
                  [] eq_refl eq_refl eq_refl) as (_ & Hinh & _ & Hpresent).
    specialize (Hinh _ eq_refl eq_refl).
    destruct (Hpresent _ Hinh I) as (Hexists & _).
    exact (Hexists eq_refl).
Defined.

(** X5.  A group matches a path exactly when it has at least one condition
    and every condition holds for the path; the order of the conditions
    plays no role. *)
Theorem conditions_are_conjunctive
        (h : Host) (path : string) (g g' : Group) :
  (Plugin.groupMatches h path g = true <->
   conditions g <> []
   /\ forall c, In c (conditions g) -> Plugin.evaluateCondition h path c = true)
  /\ (Permutation (conditions g) (conditions g') ->
      Plugin.groupMatches h path g = Plugin.groupMatches h path g').
Proof.
  split; [apply groupMatches_iff|].
  intros Hperm.
  destruct (Plugin.groupMatches h path g) eqn:Hg.
  - symmetry. apply groupMatches_iff. apply groupMatches_iff in Hg.
    destruct Hg as [Hne Hall]. split.
    + intros Hnil. apply Hne. rewrite Hnil in Hperm.
      now apply Permutation_nil, Permutation_sym.
    + intros c Hc. apply Hall.
      eapply Permutation_in; [apply Permutation_sym; exact Hperm | exact Hc].
  - destruct (Plugin.groupMatches h path g') eqn:Hg'; [|reflexivity].
    apply groupMatches_iff in Hg'. destruct Hg' as [Hne Hall].
    assert (Hyes : Plugin.groupMatches h path g = true).
    { apply groupMatches_iff. split.
      - intros Hnil. apply Hne. rewrite Hnil in Hperm.
        now apply Permutation_nil.
      - intros c Hc. apply Hall.
        eapply Permutation_in; [exact Hperm | exact Hc]. }
    congruence.
Qed.

(** X6.  A group that is not enabled has no part in the colour of any file:
    the resolver gives the same result with the group taken out of the
    settings. *)
Theorem disabled_group_is_ignored
        (h : Host) (s : Settings) (path : string)
        (g : Group) (l1 l2 : list Group) :
  enabled g = false ->
  groups s = (l1 ++ g :: l2)%list ->
  Plugin.resolveColor h s path
  = Plugin.resolveColor h (setGroups s (l1 ++ l2)) path.
Proof.
  intros Hoff Hgs.
  unfold Plugin.resolveColor, Plugin.findManual, Plugin.enabledGroups.
  simpl fileColors. simpl groups.
  rewrite Hgs, filter_remove_middle by exact Hoff. reflexivity.
Qed.

(** The group of priority 10 switched off: the note takes the colour it has
    without that group. *)
Lemma disabled_group_is_ignored_witness :
  Plugin.resolveColor Scenario.colouredVault
    (setGroups Scenario.taskSettings
               [Scenario.anyTask; Groups.setEnabled Scenario.urgent false])
    Scenario.taskPath
  = Plugin.resolveColor Scenario.colouredVault
      (setGroups Scenario.taskSettings [Scenario.anyTask]) Scenario.taskPath.
Proof.
  exact (disabled_group_is_ignored
           Scenario.colouredVault
           (setGroups Scenario.taskSettings
                      [Scenario.anyTask; Groups.setEnabled Scenario.urgent false])
           Scenario.taskPath (Groups.setEnabled Scenario.urgent false)
           [Scenario.anyTask] [] eq_refl eq_refl).
Defined.

(** ** Where a resolved colour comes from *)

Lemma groupLoop_source (h : Host) (path : string) (gs : list Group)
      (st : Plugin.LoopState) :
  idle st ->
  JS.truthy (fst (Plugin.groupLoop h path gs st)) = true ->
  exists g c hex,
    In g gs /\ Plugin.groupMatches h path g = true
    /\ groupColor h path g = Some (c, hex)
    /\ Plugin.groupLoop h path gs st = (Some c, hex).
Proof.
  revert st. induction gs as [|g gs IH]; intros st Hst Hres.
  - simpl in Hres. destruct Hst as [Hst _]. congruence.
  - rewrite groupLoop_cons in Hres |- *.
    destruct (Plugin.groupMatches h path g) eqn:Hm.
    + destruct (groupColor h path g) as [[c hex]|] eqn:Hc.
      * destruct (assignColor_yields h path g st c hex Hst Hc) as [Ha Ht].
        rewrite Ha. simpl fst. rewrite Ht.
        exists g, c, hex. repeat split; auto. left; reflexivity.
      * pose proof (assignColor_idle h path g st Hst Hc) as Hidle.
        destruct Hidle as [Hf Hs]. rewrite Hf in Hres |- *.
        destruct (IH _ (conj Hf Hs) Hres) as (g' & c & hex & Hin & Hrest).
        exists g', c, hex. split; [right; exact Hin | exact Hrest].
    + destruct (IH _ Hst Hres) as (g' & c & hex & Hin & Hrest).
      exists g', c, hex. split; [right; exact Hin | exact Hrest].
Qed.

Lemma hexFromProperty_wellformed (h : Host) (raw c : string) :
  Plugin.hexFromProperty h raw = Some c -> JS.testHashHex6 c = true.
Proof.
  rewrite hexFromProperty_stripHash. cbv zeta.
  destruct (JS.testHex 6 (stripHash (trim h raw))) eqn:H6; [|discriminate].
  intros [= <-]. simpl. exact H6.
Qed.

Lemma groupColor_hex_wellformed (h : Host) (path : string) (g : Group)
      (c : string) :
  groupColor h path g = Some (c, true) ->
  usePropertyAsColor g = true /\ JS.testHashHex6 c = true.
Proof.
  unfold groupColor. destruct (usePropertyAsColor g).
  - destruct (Plugin.colorFromProperty h path g) as [c'|] eqn:Hc;
      [|discriminate].
    intros [= <-]. split; [reflexivity|].
    unfold Plugin.colorFromProperty in Hc.
    destruct (isMarkdown h path); [|discriminate].
    destruct (getFrontmatter h path) as [fm|]; [|discriminate].
    destruct (getProperty fm (propertyNameForColor g)) as [v|]; [|discriminate].
    destruct (valueTruthy v); [|discriminate].
    eapply hexFromProperty_wellformed; eauto.
  - destruct (String.eqb (colorId g) ""); discriminate.
Qed.

(** What a usable result of the resolver is made of. *)
Lemma resolveColor_source (h : Host) (s : Settings) (path c : string)
      (hex : bool) :
  Plugin.resolveColor h s path = (Some c, hex) ->
  c <> "" ->
  (hex = false
   /\ exists fc, Plugin.findManual s path = Some fc /\ fc_color fc = c)
  \/ (noManualColor s path
      /\ exists g, In g (groups s) /\ enabled g = true
                   /\ Plugin.groupMatches h path g = true
                   /\ groupColor h path g = Some (c, hex)).
Proof.
  intros Hres Hc. unfold Plugin.resolveColor in Hres.
  destruct (JS.truthy (option_map fc_color (Plugin.findManual s path)))
    eqn:Hman; simpl negb in Hres; cbv iota in Hres.
  - left. injection Hres as Hres <-. split; [reflexivity|].
    destruct (Plugin.findManual s path) as [fc|]; [|discriminate].
    exists fc. split; [reflexivity|]. simpl in Hres. congruence.
  - right. split; [exact Hman|].
    destruct (groupLoop_source h path (Plugin.enabledGroups s)
                (option_map fc_color (Plugin.findManual s path), false))
      as (g & c' & hex' & Hin & Hm & Hcol & Hloop).
    + split; [exact Hman | reflexivity].
    + rewrite Hres. now apply truthy_Some.
    + rewrite Hres in Hloop. injection Hloop as <- <-.
      apply enabledGroups_In in Hin. destruct Hin as [Hin Hen].
      exists g. auto.
Qed.

(** X7.  A colour the resolver returns is never invented: it is the colour
    of the first manual entry of the path, or, without a manual colour, the
    colour that an enabled group of the settings that matches the path
    yields. *)
Theorem resolved_color_has_a_source
        (h : Host) (s : Settings) (path c : string) (hex : bool) :
  Plugin.resolveColor h s path = (Some c, hex) ->
  c <> "" ->
  (hex = false
   /\ exists fc, Plugin.findManual s path = Some fc /\ fc_color fc = c)
  \/ (noManualColor s path
      /\ exists g, In g (groups s) /\ enabled g = true
                   /\ Plugin.groupMatches h path g = true
                   /\ groupColor h path g = Some (c, hex)).
Proof.
  exact (resolveColor_source h s path c hex).
Qed.

Lemma resolved_color_has_a_source_witness :
  (false = false
   /\ exists fc, Plugin.findManual Scenario.settings Scenario.notePath = Some fc
                 /\ fc_color fc = "c1")
  \/ (noManualColor Scenario.settings Scenario.notePath
      /\ exists g, In g (groups Scenario.settings) /\ enabled g = true
                   /\ Plugin.groupMatches Scenario.vault Scenario.notePath g
                      = true
                   /\ groupColor Scenario.vault Scenario.notePath g
                      = Some ("c1", false)).
Proof.
  exact (resolved_color_has_a_source
           Scenario.vault Scenario.settings Scenario.notePath "c1" false
           eq_refl ltac:(discriminate)).
Defined.

(** ** The classes of an item *)

Lemma file_color_class (rest : string) :
  foreignClass ("file-color" ++ rest) = false.
Proof.
  unfold foreignClass. apply negb_false_iff, startsWith_iff.
  exists rest; reflexivity.
Qed.

Lemma colorClasses_owned (h : Host) (s : Settings) (path cls : string) :
  In cls (colorClasses h s path) -> foreignClass cls = false.
Proof.
  unfold colorClasses.
  destruct (Plugin.resolveColor h s path) as [[c|] hex]; [|intros []].
  destruct (String.eqb c ""); [intros []|]. cbv zeta.
  rewrite !in_app_iff. intros [H|[H|[H|H]]].
  - destruct H as [<-|[]]. exact (file_color_class "-file").
  - destruct hex; [destruct H|].
    destruct H as [<-|[]]. exact (file_color_class ("-color-" ++ c)).
  - destruct H as [<-|[]].
    exact (file_color_class
             ("-type-" ++ (if colorBackground s then "background" else "text"))).
  - destruct (cascadeColors s); [|destruct H].
    destruct H as [<-|[]]. exact (file_color_class "-cascade").
Qed.

Lemma applyToItem_classes (h : Host) (s : Settings) (path : string)
      (current : list string) :
  Plugin.classList (Plugin.applyToItem h s path current)
  = (filter foreignClass current ++ colorClasses h s path)%list.
Proof.
  unfold Plugin.applyToItem, colorClasses. fold foreignClass.
  destruct (Plugin.resolveColor h s path) as [[c|] hex];
    [|simpl; now rewrite app_nil_r].
  destruct (String.eqb c ""); simpl negb; cbv iota zeta;
    [simpl; now rewrite app_nil_r|].
  unfold JS.push.
  destruct hex, (cascadeColors s); simpl Plugin.classList;
    rewrite <- ?app_assoc; reflexivity.
Qed.

(** X9.  Restyling an item keeps every class that does not begin with
    [file-color], in order, drops all that do and appends the classes of the
    resolved colour; applying it again to its own result changes nothing. *)
Theorem restyling_is_idempotent
        (h : Host) (s : Settings) (path : string) (current : list string) :
  Plugin.classList (Plugin.applyToItem h s path current)
  = (filter foreignClass current ++ colorClasses h s path)%list
  /\ Plugin.classList
       (Plugin.applyToItem h s path
          (Plugin.classList (Plugin.applyToItem h s path current)))
     = Plugin.classList (Plugin.applyToItem h s path current)
  /\ (forall cls, foreignClass cls = true ->
                  (In cls (Plugin.classList (Plugin.applyToItem h s path current))
                   <-> In cls current))
  /\ (forall cls, foreignClass cls = false ->
                  (In cls (Plugin.classList (Plugin.applyToItem h s path current))
                   <-> In cls (colorClasses h s path))).
Proof.
  split; [apply applyToItem_classes|]. split; [|split].
  - rewrite !applyToItem_classes, filter_app, filter_idem.
    rewrite (filter_none foreignClass (colorClasses h s path))
      by apply colorClasses_owned.
    now rewrite app_nil_r.
  - intros cls Hcls. rewrite applyToItem_classes, in_app_iff, filter_In.
    split.
    + intros [[Hin _]|Hin]; [exact Hin|].
      rewrite (colorClasses_owned h s path cls Hin) in Hcls. discriminate.
    + intros Hin. left. split; assumption.
  - intros cls Hcls. rewrite applyToItem_classes, in_app_iff, filter_In.
    split.
    + intros [[_ Hf]|Hin]; [congruence | exact Hin].
    + intros Hin. right; exact Hin.
Qed.

(** The hexadecimal colour a group yields is read from its own colour
    property in the frontmatter of the file. *)
Lemma groupColor_hex_source (h : Host) (path : string) (g : Group)
      (c : string) :
  groupColor h path g = Some (c, true) ->
  usePropertyAsColor g = true
  /\ exists fm raw,
       getFrontmatter h path = Some fm
       /\ getProperty fm (propertyNameForColor g) = Some raw
       /\ Plugin.hexFromProperty h (stringOfValue raw) = Some c.
Proof.
  unfold groupColor. destruct (usePropertyAsColor g).
  - destruct (Plugin.colorFromProperty h path g) as [c'|] eqn:Hc;
      [|discriminate].
    intros [= <-]. split; [reflexivity|].
    unfold Plugin.colorFromProperty in Hc.
    destruct (isMarkdown h path); [|discriminate].
    destruct (getFrontmatter h path) as [fm|]; [|discriminate].
    destruct (getProperty fm (propertyNameForColor g)) as [v|] eqn:Hv;
      [|discriminate].
    destruct (valueTruthy v); [|discriminate].
    exists fm, v. auto.
  - destruct (String.eqb (colorId g) ""); discriminate.
Qed.

(** X8.  The inline colour property of an item is only ever set to a text
    of the form [#] and six hexadecimal digits, which is the colour read
    from the colour property of an enabled matching group in the
    frontmatter of the file; an item coloured that way carries no class
    [file-color-color-<id>], whatever [id] is. *)
Theorem inline_color_is_well_formed
        (h : Host) (s : Settings) (path v : string) (current : list string) :
  Plugin.colorProperty (Plugin.applyToItem h s path current)
  = Plugin.SetProperty v ->
  JS.testHashHex6 v = true
  /\ Plugin.resolveColor h s path = (Some v, true)
  /\ (exists g fm raw,
         In g (groups s) /\ enabled g = true
         /\ usePropertyAsColor g = true
         /\ Plugin.groupMatches h path g = true
         /\ getFrontmatter h path = Some fm
         /\ getProperty fm (propertyNameForColor g) = Some raw
         /\ Plugin.hexFromProperty h (stringOfValue raw) = Some v)
  /\ (forall id,
         ~ In ("file-color-color-" ++ id)
              (Plugin.classList (Plugin.applyToItem h s path current))).
Proof.
  intros Hset.
  assert (Hcls : Plugin.classList (Plugin.applyToItem h s path current)
                 = (filter foreignClass current ++ colorClasses h s path)%list)
    by apply applyToItem_classes.
  revert Hset Hcls. unfold Plugin.applyToItem, colorClasses.
  destruct (Plugin.resolveColor h s path) as [[c|] hex] eqn:Hres;
    [|discriminate].
  destruct (String.eqb_spec c "") as [|Hc]; simpl negb; cbv iota;
    [discriminate|].
  destruct hex; simpl Plugin.colorProperty; [|discriminate].
  intros [= <-] Hcls.
  destruct (resolveColor_source h s path c true Hres Hc)
    as [[Hfalse _]|[_ (g & Hin & Hen & Hm & Hcol)]]; [discriminate|].
  destruct (groupColor_hex_wellformed h path g c Hcol) as [Huse Hwf].
  destruct (groupColor_hex_source h path g c Hcol)
    as (_ & fm & raw & Hfm & Hraw & Hhex).
  split; [exact Hwf|]. split; [reflexivity|].
  split; [exists g, fm, raw; auto 10|].
  intros id.
  rewrite Hcls, in_app_iff, filter_In. intros [[_ Hforeign]|Hcc].
  - exact (eq_true_false_abs _ Hforeign (file_color_class ("-color-" ++ id))).
  - destruct (cascadeColors s); destruct (colorBackground s); simpl in Hcc;
      repeat destruct Hcc as [Hcc|Hcc]; try discriminate; exact Hcc.
Qed.

(** The colour of the task comes from its property [color], and the item
    carries no palette class, not even the one of the text itself. *)
Lemma inline_color_is_well_formed_witness :
  JS.testHashHex6 "#00ff00" = true
  /\ Plugin.resolveColor Scenario.colouredVault Scenario.taskSettings
                         Scenario.taskPath
     = (Some "#00ff00", true)
  /\ ~ In "file-color-color-c1"
          (Plugin.classList
             (Plugin.applyToItem Scenario.colouredVault Scenario.taskSettings
                                 Scenario.taskPath ["file-color-color-c1"])).
Proof.
  pose proof (inline_color_is_well_formed
                Scenario.colouredVault Scenario.taskSettings Scenario.taskPath
                "#00ff00" ["file-color-color-c1"] eq_refl)
    as (Hwf & Hres & _ & Hnone).
  split; [exact Hwf|]. split; [exact Hres|]. exact (Hnone "c1").
Defined.

(** ** Folder notes *)

Lemma app_string_assoc (a b c : string) : (a ++ b) ++ c = a ++ (b ++ c).
Proof.
  induction a as [|d a IH]; simpl; [reflexivity | now rewrite IH].
Qed.

Lemma folder_name_of_path (prefix stem : string) :
  containsChar "/" stem = false ->
  prefix = "" \/ (exists p, prefix = p ++ "/") ->
  JS.substringFrom (prefix ++ stem) (JS.lastIndexOf (prefix ++ stem) "/" + 1)
  = stem.
Proof.
  intros Hstem [->|[p ->]].
  - simpl append. rewrite lastIndexOf_absent by exact Hstem.
    apply substringFrom_zero.
  - rewrite app_string_assoc. change ("/" ++ stem) with (String "/" stem).
    rewrite lastIndexOf_last by exact Hstem. apply substringFrom_after.
Qed.

Lemma name_with_extension (stem ext : string) :
  containsChar "." ext = false ->
  (if 0 <=? JS.lastIndexOf (stem ++ "." ++ ext) "."
   then FolderNotes.substringTo (stem ++ "." ++ ext)
                                (JS.lastIndexOf (stem ++ "." ++ ext) ".")
   else stem ++ "." ++ ext)
  = stem.
Proof.
  intros Hdot.
  change (stem ++ "." ++ ext) with (stem ++ String "." ext).
  rewrite lastIndexOf_last by exact Hdot.
  destruct (Z.leb_spec 0 (Z.of_nat (String.length stem))); [|lia].
  apply substringTo_prefix.
Qed.

Lemma name_without_extension (name : string) :
  containsChar "." name = false ->
  (if 0 <=? JS.lastIndexOf name "."
   then FolderNotes.substringTo name (JS.lastIndexOf name ".")
   else name)
  = name.
Proof.
  intros Hdot. rewrite lastIndexOf_absent by exact Hdot. reflexivity.
Qed.

(** The test for a file [base] inside the folder [parent]. *)
Lemma target_nested (prefix parent base name : string) :
  containsChar "/" parent = false ->
  containsChar "/" base = false ->
  prefix = "" \/ (exists p, prefix = p ++ "/") ->
  (if 0 <=? JS.lastIndexOf base "."
   then FolderNotes.substringTo base (JS.lastIndexOf base ".")
   else base) = name ->
  FolderNotes.target (prefix ++ parent ++ "/" ++ base)
  = if String.eqb parent name then Some (prefix ++ parent) else None.
Proof.
  intros Hparent Hbase Hprefix Hname. unfold FolderNotes.target.
  replace (prefix ++ parent ++ "/" ++ base)
    with ((prefix ++ parent) ++ String "/" base)
    by (rewrite app_string_assoc; reflexivity).
  rewrite lastIndexOf_last by exact Hbase. cbv zeta.
  destruct (Z.leb_spec 0 (Z.of_nat (String.length (prefix ++ parent))));
    [|lia].
  rewrite substringFrom_after, Hname, substringTo_prefix.
  rewrite (folder_name_of_path prefix parent Hparent Hprefix).
  reflexivity.
Qed.

(** The test for a file [base] at the root of the vault. *)
Lemma target_root (base name : string) :
  containsChar "/" base = false ->
  (if 0 <=? JS.lastIndexOf base "."
   then FolderNotes.substringTo base (JS.lastIndexOf base ".")
   else base) = name ->
  FolderNotes.target base = if String.eqb "" name then Some "" else None.
Proof.
  intros Hbase Hname. unfold FolderNotes.target.
  rewrite lastIndexOf_absent by exact Hbase. cbv zeta.
  change (0 <=? -1) with false. cbv iota. rewrite Hname.
  reflexivity.
Qed.

(** X10.  The folder-notes test designates the parent folder exactly when
    the name of that folder is the name of the file without its last
    extension.  For a file [stem.ext], or a file [stem] without extension,
    inside a folder [parent] at any depth, the folder is designated when
    [parent] is [stem], and no folder is designated otherwise; a file at
    the root of the vault designates the empty path when its name without
    the extension is empty, and nothing otherwise. *)
Theorem folder_note_target (prefix parent stem ext : string) :
  containsChar "/" parent = false ->
  containsChar "/" stem = false ->
  containsChar "/" ext = false ->
  containsChar "." ext = false ->
  (prefix = "" \/ exists p, prefix = p ++ "/") ->
  FolderNotes.target (prefix ++ parent ++ "/" ++ stem ++ "." ++ ext)
  = (if String.eqb parent stem then Some (prefix ++ parent) else None)
  /\ (containsChar "." stem = false ->
      FolderNotes.target (prefix ++ parent ++ "/" ++ stem)
      = if String.eqb parent stem then Some (prefix ++ parent) else None)
  /\ FolderNotes.target (stem ++ "." ++ ext)
     = (if String.eqb "" stem then Some "" else None)
  /\ (containsChar "." stem = false ->
      FolderNotes.target stem = if String.eqb "" stem then Some "" else None).
Proof.
  intros Hparent Hstem Hext Hdot Hprefix.
  assert (Hbase : containsChar "/" (stem ++ "." ++ ext) = false).
  { rewrite containsChar_app, Hstem. simpl. exact Hext. }
  split; [|split; [|split]].
  - apply target_nested; auto. now apply name_with_extension.
  - intros Hplain. apply target_nested; auto.
    now apply name_without_extension.
  - apply target_root; [exact Hbase|]. now apply name_with_extension.
  - intros Hplain. apply target_root; [exact Hstem|].
    now apply name_without_extension.
Qed.

(** [Book/Book.md] designates [Book], and so does a note two folders deep;
    [Books/Book.md] and [Book.md] designate nothing. *)
Lemma folder_note_target_witness :
  FolderNotes.target "Book/Book.md" = Some "Book"
  /\ FolderNotes.target "Shelf/Book/Book.md" = Some "Shelf/Book"
  /\ FolderNotes.target "Books/Book.md" = None
  /\ FolderNotes.target "Book.md" = None.
Proof.
  split; [|split; [|split]].
  - exact (proj1 (folder_note_target "" "Book" "Book" "md"
                    eq_refl eq_refl eq_refl eq_refl (or_introl eq_refl))).
  - exact (proj1 (folder_note_target "Shelf/" "Book" "Book" "md"
                    eq_refl eq_refl eq_refl eq_refl
                    (or_intror (ex_intro _ "Shelf" eq_refl)))).
  - exact (proj1 (folder_note_target "" "Books" "Book" "md"
                    eq_refl eq_refl eq_refl eq_refl (or_introl eq_refl))).
  - exact (proj1 (proj2 (proj2
             (folder_note_target "" "Books" "Book" "md"
                eq_refl eq_refl eq_refl eq_refl (or_introl eq_refl))))).
Defined.

(** X11.  Step 4 of the callback of a file writes to a folder exactly when
    folder-notes compatibility is switched on, the file is coloured, its
    path designates the folder and the explorer has an item for that
    folder.  What it writes is determined: the classes of the folder that
    do not begin with [file-color], followed by the colour classes of the
    file, and the update of the inline colour that the file receives.  The
    step throws exactly when, in place of the item, the designated path
    finds a member of [Object.prototype].  (This is the write of the
    callback of the file; a write to the same folder that comes later in
    the pass, such as the one of the callback of the folder itself,
    replaces these classes.) *)
Theorem folder_note_takes_file_color
        (h : Host) (s : Settings) (path : string)
        (fileItems : string -> option (list string))
        (folder : string) (style : Plugin.ItemStyle) :
  (FolderNotes.applyToFolder h s path fileItems
   = Panel.Done (Some (folder, style))
   <-> folderNotesCompatibility s = true
       /\ colorClasses h s path <> []
       /\ FolderNotes.target path = Some folder
       /\ exists current,
            fileItems folder = Some current
            /\ style
               = Plugin.mkItemStyle
                   (filter foreignClass current ++ colorClasses h s path)%list
                   (Plugin.colorProperty
                      (Plugin.applyToItem h s path current)))
  /\ (FolderNotes.applyToFolder h s path fileItems = Panel.TypeError
      <-> folderNotesCompatibility s = true
          /\ colorClasses h s path <> []
          /\ exists parent,
               FolderNotes.target path = Some parent
               /\ fileItems parent = None
               /\ Panel.isInherited parent = true).
Proof.
  unfold FolderNotes.applyToFolder, Plugin.applyToItem, colorClasses.
  fold foreignClass.
  destruct (Plugin.resolveColor h s path) as [[c|] hex].
  2: { split; (split; [discriminate | intros (_ & H & _); now elim H]). }
  destruct (String.eqb c ""); simpl negb; cbv iota zeta.
  { split; (split; [discriminate | intros (_ & H & _); now elim H]). }
  destruct (folderNotesCompatibility s).
  2: { split; (split; [discriminate | intros (H & _); discriminate]). }
  destruct (FolderNotes.target path) as [parent|].
  2: { split; (split; [discriminate|]).
       - intros (_ & _ & H & _); discriminate.
       - intros (_ & _ & p & H & _); discriminate. }
  destruct (fileItems parent) as [current|] eqn:Hitem.
  - split; split.
    + intros [= <- <-].
      split; [reflexivity|]. split; [discriminate|]. split; [reflexivity|].
      exists current. split; [exact Hitem|]. unfold JS.push.
      destruct hex, (cascadeColors s); cbv zeta; simpl Plugin.colorProperty;
        rewrite <- ?app_assoc; reflexivity.
    + intros (_ & _ & [= <-] & current' & Hitem' & ->).
      rewrite Hitem in Hitem'. injection Hitem' as <-. unfold JS.push.
      destruct hex, (cascadeColors s); cbv zeta; simpl Plugin.colorProperty;
        rewrite <- ?app_assoc; reflexivity.
    + discriminate.
    + intros (_ & _ & p & [= <-] & Hnone & _). congruence.
  - split; split.
    + destruct (Panel.isInherited parent); discriminate.
    + intros (_ & _ & [= <-] & current & Hitem' & _). congruence.
    + destruct (Panel.isInherited parent) eqn:Hinh; [|discriminate].
      intros _. split; [reflexivity|]. split; [discriminate|].
      exists parent. auto.
    + intros (_ & _ & p & [= <-] & _ & ->). reflexivity.
Qed.

(** [Book/Book.md] is coloured by a palette group: the folder [Book] loses
    its stale class and takes the classes of the note. *)
Lemma folder_note_takes_file_color_witness :
  FolderNotes.applyToFolder
    (Ascii7.host [("Book/Book.md", [("bg", VScalar (SString "x"))])])
    (mkSettings false false true [Scenario.red] [] [Scenario.byPalette])
    "Book/Book.md"
    (fun p => if String.eqb p "Book"
              then Some ["nav-folder"; "file-color-color-old"] else None)
  = Panel.Done
      (Some ("Book",
             Plugin.mkItemStyle
               ["nav-folder"; "file-color-file"; "file-color-color-c1";
                "file-color-type-text"]
               Plugin.NoUpdate)).
Proof.
  apply (proj2 (proj1 (folder_note_takes_file_color
                  (Ascii7.host
                     [("Book/Book.md", [("bg", VScalar (SString "x"))])])
                  (mkSettings false false true [Scenario.red] []
                              [Scenario.byPalette])
                  "Book/Book.md"
                  (fun p => if String.eqb p "Book"
                            then Some ["nav-folder"; "file-color-color-old"]
                            else None)
                  "Book"
                  (Plugin.mkItemStyle
                     ["nav-folder"; "file-color-file"; "file-color-color-c1";
                      "file-color-type-text"]
                     Plugin.NoUpdate)))).
  split; [reflexivity|]. split; [discriminate|]. split; [reflexivity|].
  exists ["nav-folder"; "file-color-color-old"].
  split; reflexivity.
Defined.

(** * Further properties of the settings panel *)

(** ** What a saved palette satisfies *)

Lemma getOwn_Some_key (o : Panel.NameMap) (k : string) (v : list Color) :
  Panel.getOwn o k = Some v -> In k (map fst o).
Proof.
  induction o as [|[k0 v0] o IH]; simpl; [discriminate|].
  destruct (String.eqb_spec k0 k) as [->|_]; [left; reflexivity|].
  intros H. right. now apply IH.
Qed.

(** A grouping that returns has met no inherited name. *)
Lemma addName_Done_plain (h : Host) (o o1 : Panel.NameMap) (c : Color) :
  (forall k, In k (map fst o) -> Panel.isInherited k = false) ->
  Panel.addName h o c = Panel.Done o1 ->
  Panel.isInherited (nameKey h c) = false
  /\ (forall k, In k (map fst o1) -> Panel.isInherited k = false).
Proof.
  intros Hown. unfold Panel.addName. fold (nameKey h c).
  set (n := nameKey h c).
  destruct (String.eqb_spec n "") as [Hn|Hn]; simpl negb; cbv iota.
  - intros [= <-]. split; [rewrite Hn; reflexivity | exact Hown].
  - unfold Panel.getSlot.
    destruct (Panel.getOwn o n) as [cs|] eqn:Hget; cbv iota.
    + rewrite Hget. intros [= <-].
      assert (Hplain : Panel.isInherited n = false)
        by (apply Hown; eapply getOwn_Some_key; eauto).
      split; [exact Hplain|].
      intros k. rewrite setOwn_keys, Hget. apply Hown.
    + destruct (Panel.isInherited n) eqn:Hinh; cbv iota.
      * rewrite Hget. discriminate.
      * rewrite getOwn_setOwn, String.eqb_refl. intros [= <-].
        split; [reflexivity|].
        intros k. rewrite !setOwn_keys, Hget.
        rewrite getOwn_setOwn, String.eqb_refl.
        rewrite in_app_iff. intros [Hk|[<-|[]]]; [now apply Hown | exact Hinh].
Qed.

Lemma collectNames_Done_plain (h : Host) (pal : list Color)
      (o o' : Panel.NameMap) :
  (forall k, In k (map fst o) -> Panel.isInherited k = false) ->
  Panel.collectNames h pal o = Panel.Done o' ->
  plainNames h pal.
Proof.
  revert o. induction pal as [|c pal IH]; intros o Hown Hdone.
  - intros c [].
  - simpl in Hdone.
    destruct (Panel.addName h o c) as [o1|] eqn:Hadd; [|discriminate].
    simpl in Hdone.
    destruct (addName_Done_plain h o o1 c Hown Hadd) as [Hc Hown1].
    intros x [<-|Hx]; [exact Hc|].
    exact (IH o1 Hown1 Hdone x Hx).
Qed.

(** X12.  A palette that [onSave] accepts satisfies the invariants of the
    palette: every value, trimmed, has the form [#RRGGBB], no two colours
    share a non-empty name up to case and surrounding blanks, and no name is
    that of an inherited property. *)
Theorem saved_palette_is_valid
        (h : Host) (s s' : Settings) (pal : list Color) :
  Panel.onSave h s pal = Panel.Saved s' ->
  (forall c, In c pal -> JS.testHashHex6 (trim h (color_value c)) = true)
  /\ (forall k, k <> "" -> (length (sameKey h k pal) <= 1)%nat)
  /\ plainNames h pal.
Proof.
  unfold Panel.onSave.
  destruct (Panel.collectNames h pal []) as [o|] eqn:Hcol; [|discriminate].
  destruct (Panel.invalidHexErrors h pal ++ Panel.duplicateNameErrors h o)%list
    as [|e errors] eqn:Herr; [|discriminate].
  intros _. apply app_eq_nil in Herr. destruct Herr as [Hhex Hdup].
  assert (Hplain : plainNames h pal).
  { apply (collectNames_Done_plain h pal [] o); [intros k []| exact Hcol]. }
  split; [|split; [|exact Hplain]].
  - intros c Hc.
    destruct (JS.testHashHex6 (trim h (color_value c))) eqn:Htest;
      [reflexivity|].
    exfalso. unfold Panel.invalidHexErrors in Hhex.
    assert (Hin : In (Panel.mkColorError
                        [color_id c]
                        ("Invalid hex color: " ++ trim h (color_value c))
                        Panel.InvalidHex)
                     (flat_map
                        (fun color =>
                           if negb (JS.testHashHex6 (trim h (color_value color)))
                           then [Panel.mkColorError
                                   [color_id color]
                                   ("Invalid hex color: "
                                      ++ trim h (color_value color))
                                   Panel.InvalidHex]
                           else []) pal)).
    { apply in_flat_map. exists c. split; [exact Hc|].
      rewrite Htest. left; reflexivity. }
    rewrite Hhex in Hin. exact Hin.
  - intros k Hk.
    destruct (collectNames_spec h pal [] Hplain (NoDup_nil _))
      as (o' & Hcol' & Hnd & Hget).
    rewrite Hcol in Hcol'. injection Hcol' as <-.
    destruct (Nat.le_gt_cases (length (sameKey h k pal)) 1) as [|Hmany];
      [assumption|].
    exfalso.
    assert (Hown : Panel.getOwn o k = Some (sameKey h k pal)).
    { rewrite Hget. simpl. unfold grouped.
      apply string_eqb_false_iff in Hk. rewrite Hk.
      destruct (sameKey h k pal); [simpl in Hmany; lia | reflexivity]. }
    apply In_getOwn in Hown; [|exact Hnd].
    unfold Panel.duplicateNameErrors in Hdup.
    assert (Hin : exists e, In e (Panel.duplicateNameErrors h o)).
    { eexists. unfold Panel.duplicateNameErrors. apply in_flat_map.
      exists (k, sameKey h k pal).
      split; [apply entries_In; exact Hown|]. simpl snd.
      destruct (Nat.ltb_spec 1 (length (sameKey h k pal))); [|lia].
      left; reflexivity. }
    destruct Hin as [e He]. unfold Panel.duplicateNameErrors in He.
    rewrite Hdup in He. exact He.
Qed.

Lemma saved_palette_is_valid_witness :
  (forall c, In c SaveScenario.edited ->
             JS.testHashHex6 (trim SaveScenario.host (color_value c)) = true)
  /\ (forall k, k <> "" ->
                (length (sameKey SaveScenario.host k SaveScenario.edited) <= 1)%nat)
  /\ plainNames SaveScenario.host SaveScenario.edited.
Proof.
  exact (saved_palette_is_valid
           SaveScenario.host SaveScenario.before SaveScenario.after
           SaveScenario.edited eq_refl).
Defined.

(** The invalid value of [a] and the colours [a], [b], [c] named alike are
    both reported for the palette of the scenario. *)
Lemma onSave_reports_every_conflict_witness :
  exists errors,
    (exists e, In e errors /\ Panel.errorType e = Panel.InvalidHex
               /\ Panel.colorIds e = ["a"])
    /\ (exists e, In e errors /\ Panel.errorType e = Panel.DuplicateName
                  /\ Panel.colorIds e = ["a"; "b"; "c"])
    /\ Panel.onSave PaletteScenario.host defaultSettings
                    PaletteScenario.conflicts
       = Panel.Rejected errors.
Proof.
  destruct (onSave_reports_every_conflict
              PaletteScenario.host defaultSettings PaletteScenario.conflicts
              palette_scenario_plain)
    as (errors & Hhex & Hdup & _ & Hrej & _).
  exists errors.
  destruct (Hhex (mkColor "a" "Red " "#12") (or_introl eq_refl) eq_refl)
    as (e1 & Hin1 & Ht1 & Hids1).
  destruct (Hdup (mkColor "a" "Red " "#12") (or_introl eq_refl)
                 ltac:(discriminate) (le_S _ _ (le_n 2)))
    as (e2 & Hin2 & Ht2 & Hids2).
  split; [exists e1; auto|]. split; [exists e2; auto|].
  apply Hrej. intros ->. exact Hin1.
Defined.

(** ** Adding, toggling and moving groups *)

Lemma minOf_le (p : Z) (ps : list Z) :
  Groups.minOf p ps <= p /\ forall x, In x ps -> Groups.minOf p ps <= x.
Proof.
  unfold Groups.minOf. induction ps as [|q ps [IHp IHps]]; simpl.
  - split; [lia | intros x []].
  - split; [lia|]. intros x [<-|Hx]; [lia|].
    specialize (IHps x Hx). lia.
Qed.

Lemma minOf_In (p : Z) (ps : list Z) :
  In (Groups.minOf p ps) (p :: ps).
Proof.
  unfold Groups.minOf. induction ps as [|q ps IH]; simpl; [now left|].
  destruct (Z.min_spec q (fold_right Z.min p ps)) as [[_ ->]|[_ ->]].
  - right; now left.
  - destruct IH as [IH|IH]; [now left | right; now right].
Qed.

Lemma onAddGroup_lowest (newId : string) (pal : list Color) (gs : list Group) :
  (forall x, In x gs -> JS.isSafeInteger (priority x)) ->
  forall x, In x gs -> priority (Groups.onAddGroup newId pal gs) < priority x.
Proof.
  intros Hsafe x Hx. unfold Groups.onAddGroup. simpl priority.
  destruct gs as [|g gs]; [contradiction|]. simpl map.
  assert (Hmin : JS.isSafeInteger (Groups.minOf (priority g) (map priority gs))).
  { pose proof (minOf_In (priority g) (map priority gs)) as Hin.
    change (priority g :: map priority gs) with (map priority (g :: gs)) in Hin.
    apply in_map_iff in Hin. destruct Hin as (y & <- & Hy).
    now apply Hsafe. }
  cbv iota. rewrite (sub_one_safe _ Hmin).
  destruct (minOf_le (priority g) (map priority gs)) as [Hg Hgs].
  destruct Hx as [<-|Hx]; [lia|].
  specialize (Hgs (priority x) (in_map priority gs x Hx)). lia.
Qed.

Lemma StronglySorted_snoc (l : list Group) (x : Group) :
  StronglySorted byPriorityDesc l ->
  (forall y, In y l -> byPriorityDesc y x) ->
  StronglySorted byPriorityDesc (l ++ [x]).
Proof.
  induction 1 as [|y l Hs IH Hy]; intros Hx; simpl.
  - repeat constructor.
  - constructor.
    + apply IH. intros z Hz. apply Hx. right; exact Hz.
    + apply Forall_app. split; [exact Hy|].
      constructor; [|constructor]. apply Hx. left; reflexivity.
Qed.

Lemma sortByPriority_snoc (gs : list Group) (x : Group) :
  (forall y, In y gs -> priority x <= priority y) ->
  sortByPriority (gs ++ [x]) = (sortByPriority gs ++ [x])%list.
Proof.
  intros Hlow. symmetry. apply sortByPriority_unique.
  - apply StronglySorted_snoc; [apply sortByPriority_sorted|].
    intros y Hy. apply (proj1 (sortByPriority_In gs y)) in Hy.
    exact (Hlow y Hy).
  - intros p. rewrite !filter_app, sortByPriority_stable. reflexivity.
Qed.

(** X14.  A group created with the add button and saved in the dialog keeps
    the identifier, the enabled flag and the priority it was created with;
    when the existing priorities are safe integers, that priority is
    strictly below every existing one, so the new group stands last in the
    priority ordering and the order of the others is unchanged. *)
Theorem new_group_goes_last
        (h : Host) (compiles : string -> bool) (newId : string)
        (pal : list Color) (gs current : list Group)
        (form : Modal.Form) (saved : Group) :
  (forall x, In x gs -> JS.isSafeInteger (priority x)) ->
  Modal.handleSave h compiles (Groups.onAddGroup newId pal gs) current form
  = Modal.Accepted saved ->
  group_id saved = newId
  /\ enabled saved = true
  /\ (forall x, In x gs -> priority saved < priority x)
  /\ sortByPriority (Groups.onConfigured true newId gs saved)
     = (sortByPriority gs ++ [saved])%list.
Proof.
  intros Hsafe Hsave.
  assert (Hfields : group_id saved = newId /\ enabled saved = true
                    /\ priority saved
                       = priority (Groups.onAddGroup newId pal gs)).
  { unfold Modal.handleSave in Hsave.
    destruct (String.eqb (trim h (Modal.name form)) ""); [discriminate|].
    destruct (find _ current); [discriminate|].
    destruct (Modal.firstInvalid compiles (Modal.form_conditions form));
      [discriminate|].
    destruct (Modal.form_usePropertyAsColor form && _); [discriminate|].
    injection Hsave as <-. repeat split. }
  destruct Hfields as (Hid & Hen & Hprio).
  assert (Hlow : forall x, In x gs -> priority saved < priority x).
  { intros x Hx. rewrite Hprio. now apply onAddGroup_lowest. }
  repeat split; try assumption.
  unfold Groups.onConfigured, JS.push. apply sortByPriority_snoc.
  intros y Hy. specialize (Hlow y Hy). lia.
Qed.

Lemma order_scenario_safe :
  forall x, In x OrderScenario.both -> JS.isSafeInteger (priority x).
Proof. intros x [<-|[<-|[]]]; reflexivity. Qed.

(** After the two groups of priorities 5 and 3, the new group takes 2. *)
Lemma new_group_goes_last_witness :
  sortByPriority
    (Groups.onConfigured true "n" OrderScenario.both
       (mkGroup "n" "Third" "c1" false "" true 2
                [Scenario.propertyExists "tag"]))
  = [OrderScenario.first; OrderScenario.second;
     mkGroup "n" "Third" "c1" false "" true 2 [Scenario.propertyExists "tag"]].
Proof.
  exact (proj2 (proj2 (proj2
           (new_group_goes_last
              Scenario.vault (fun _ => true) "n" [Scenario.red]
              OrderScenario.both OrderScenario.both
              (Modal.mkForm " Third " "c1" false ""
                            [Scenario.propertyExists "tag"])
              (mkGroup "n" "Third" "c1" false "" true 2
                       [Scenario.propertyExists "tag"])
              order_scenario_safe eq_refl)))).
Defined.

Lemma findIndex_absent {A : Type} (f : A -> bool) (l : list A) :
  (forall x, In x l -> f x = false) -> Panel.findIndex f l = -1.
Proof.
  induction l as [|x l IH]; intros H; [reflexivity|]. simpl.
  rewrite (H x (or_introl eq_refl)).
  rewrite IH by (intros y Hy; apply H; right; exact Hy). reflexivity.
Qed.

Lemma sortByPriority_length (gs : list Group) :
  length (sortByPriority gs) = length gs.
Proof.
  symmetry. apply Permutation_length, sortByPriority_perm.
Qed.

(** X15.  For an identifier that no group carries, moving up leaves the
    list as it is, while moving down throws as soon as the list holds a
    group: index [-1] passes the test against the last position. *)
Theorem reorder_of_unknown_id (groupId : string) (gs : list Group) :
  (forall g, In g gs -> group_id g <> groupId) ->
  Panel.reorder groupId Panel.Up gs = Panel.Done gs
  /\ (gs <> [] -> Panel.reorder groupId Panel.Down gs = Panel.TypeError)
  /\ (gs = [] -> Panel.reorder groupId Panel.Down gs = Panel.Done gs).
Proof.
  intros Habsent.
  assert (Hidx : Panel.findIndex
                   (fun g => String.eqb (group_id g) groupId)
                   (sortByPriority gs) = -1).
  { apply findIndex_absent. intros x Hx.
    apply (proj1 (sortByPriority_In gs x)) in Hx.
    apply string_eqb_false_iff. now apply Habsent. }
  split; [|split].
  - simpl. unfold Panel.onGroupMoveUp. cbv zeta. rewrite Hidx. reflexivity.
  - intros Hne. simpl. unfold Panel.onGroupMoveDown. cbv zeta.
    rewrite Hidx, sortByPriority_length.
    destruct gs as [|g gs]; [congruence|].
    destruct (Z.ltb_spec (-1) (Z.of_nat (length (g :: gs)) - 1));
      [reflexivity | simpl length in *; lia].
  - intros ->. reflexivity.
Qed.

Lemma reorder_of_unknown_id_witness :
  Panel.reorder "Z" Panel.Up OrderScenario.both = Panel.Done OrderScenario.both
  /\ Panel.reorder "Z" Panel.Down OrderScenario.both = Panel.TypeError.
Proof.
  assert (Habsent : forall g, In g OrderScenario.both -> group_id g <> "Z").
  { intros g [<-|[<-|[]]]; discriminate. }
  destruct (reorder_of_unknown_id "Z" OrderScenario.both Habsent)
    as (Hup & Hdown & _).
  split; [exact Hup|]. apply Hdown. discriminate.
Defined.

Lemma setEnabled_twice (g : Group) :
  Groups.setEnabled (Groups.setEnabled g (negb (enabled g)))
                    (negb (enabled (Groups.setEnabled g (negb (enabled g)))))
  = g.
Proof.
  destruct g as [i n c u p e pr cs]. unfold Groups.setEnabled. simpl.
  now rewrite negb_involutive.
Qed.

(** X16.  The group handlers of the panel keep the identifiers of the list
    and their order: toggling, moving and replacing a configured group
    change no identifier, removing drops exactly the one removed; and
    toggling the same group twice restores the list. *)
Theorem group_handlers_keep_ids (groupId : string) (gs : list Group) :
  map group_id (Groups.onGroupToggle groupId gs) = map group_id gs
  /\ Groups.onGroupToggle groupId (Groups.onGroupToggle groupId gs) = gs
  /\ (forall direction gs',
         Panel.reorder groupId direction gs = Panel.Done gs' ->
         map group_id gs' = map group_id gs)
  /\ (forall updated,
         group_id updated = groupId ->
         map group_id (Groups.onConfigured false groupId gs updated)
         = map group_id gs)
  /\ map group_id (Groups.onRemoveGroup groupId gs)
     = filter (fun id => negb (String.eqb id groupId)) (map group_id gs).
Proof.
  split; [|split; [|split; [|split]]].
  - unfold Groups.onGroupToggle. rewrite map_map. apply map_ext.
    intros g. destruct (String.eqb (group_id g) groupId); reflexivity.
  - unfold Groups.onGroupToggle. rewrite map_map.
    rewrite <- (map_id gs) at 2. apply map_ext. intros g.
    destruct (String.eqb (group_id g) groupId) eqn:Hg.
    + change (group_id (Groups.setEnabled g (negb (enabled g))))
        with (group_id g).
      rewrite Hg. apply setEnabled_twice.
    + rewrite Hg. reflexivity.
  - intros direction gs'. destruct direction; simpl.
    + unfold Panel.onGroupMoveUp. cbv zeta.
      destruct (0 <? _); [|now intros [= <-]].
      destruct (Panel.at_ _ _) as [cur|]; [|discriminate].
      destruct (Panel.at_ _ _) as [hi|]; [|discriminate].
      intros [= <-]. rewrite map_map. apply map_ext. intros g.
      destruct (String.eqb (group_id g) groupId); [reflexivity|].
      destruct (String.eqb (group_id g) (group_id hi)); reflexivity.
    + unfold Panel.onGroupMoveDown. cbv zeta.
      destruct (_ <? _); [|now intros [= <-]].
      destruct (Panel.at_ _ _) as [cur|]; [|discriminate].
      destruct (Panel.at_ _ _) as [lo|]; [|discriminate].
      intros [= <-]. rewrite map_map. apply map_ext. intros g.
      destruct (String.eqb (group_id g) groupId); [reflexivity|].
      destruct (String.eqb (group_id g) (group_id lo)); reflexivity.
  - intros updated Hid. unfold Groups.onConfigured. rewrite map_map.
    apply map_ext_in. intros g _.
    destruct (String.eqb_spec (group_id g) groupId); congruence.
  - unfold Groups.onRemoveGroup. induction gs as [|g gs IH]; [reflexivity|].
    simpl. destruct (String.eqb (group_id g) groupId); simpl; now rewrite IH.
Qed.

(** ** The configuration dialog *)

(** X17.  While the dialog is open the previewed group is enabled, has the
    priority 9999 and stands first in the settings: as long as no other
    enabled group has a priority above 9999 the resolver evaluates it before
    all others, and a colour it yields for a path without manual colour is
    the colour shown. *)
Theorem preview_group_is_evaluated_first
        (h : Host) (s : Settings) (group : Group) (form : Modal.Form) :
  (forall g, In g (groups s) -> enabled g = true ->
             group_id g <> group_id group -> priority g <= 9999) ->
  Plugin.enabledGroups
    (setGroups s (Modal.previewGroups group form (groups s)))
  = Modal.previewGroup group form
      :: Plugin.enabledGroups
           (setGroups s (Groups.onRemoveGroup (group_id group) (groups s)))
  /\ (forall path c hex,
         noManualColor s path ->
         Plugin.groupMatches h path (Modal.previewGroup group form) = true ->
         groupColor h path (Modal.previewGroup group form) = Some (c, hex) ->
         Plugin.resolveColor h
           (setGroups s (Modal.previewGroups group form (groups s))) path
         = (Some c, hex)).
Proof.
  intros Hmax.
  assert (Horder :
    Plugin.enabledGroups
      (setGroups s (Modal.previewGroups group form (groups s)))
    = Modal.previewGroup group form
        :: Plugin.enabledGroups
             (setGroups s (Groups.onRemoveGroup (group_id group) (groups s)))).
  { unfold Plugin.enabledGroups, Modal.previewGroups, Groups.onRemoveGroup.
    simpl groups. simpl filter. simpl sortByPriority.
    apply insertByPriority_front. rewrite Forall_forall. intros x Hx.
    apply (proj1 (sortByPriority_In _ x)) in Hx.
    apply filter_In in Hx. destruct Hx as [Hx Hen].
    apply filter_In in Hx. destruct Hx as [Hx Hid].
    unfold byPriorityDesc. simpl priority.
    apply Hmax; [exact Hx | exact Hen|].
    apply negb_true_iff, string_eqb_false_iff in Hid. exact Hid. }
  split; [exact Horder|].
  intros path c hex Hman Hm Hc.
  rewrite resolveColor_groups by exact Hman. rewrite Horder.
  apply (groupLoop_winner h path [] _ (Modal.previewGroup group form));
    try assumption.
  - now apply noManualColor_idle.
  - intros x [].
Qed.

(** The group of priority 1 is edited: its preview passes the group of
    priority 10. *)
Lemma preview_group_is_evaluated_first_witness :
  Plugin.enabledGroups
    (setGroups Scenario.settings
       (Modal.previewGroups Scenario.byPalette
          (Modal.mkForm "Tagged" "c1" false "" [Scenario.propertyExists "bg"])
          (groups Scenario.settings)))
  = [Modal.previewGroup Scenario.byPalette
       (Modal.mkForm "Tagged" "c1" false "" [Scenario.propertyExists "bg"]);
     Scenario.byProperty].
Proof.
  refine (proj1 (preview_group_is_evaluated_first
                   Scenario.vault Scenario.settings Scenario.byPalette
                   (Modal.mkForm "Tagged" "c1" false ""
                                 [Scenario.propertyExists "bg"]) _)).
  intros g [<-|[<-|[]]] _ _; vm_compute; discriminate.
Defined.

Lemma validateCondition_None (compiles : string -> bool) (c : Condition) :
  Modal.validateCondition compiles c = None <-> wellFormed compiles c.
Proof.
  unfold Modal.validateCondition, wellFormed.
  destruct (cond_type c).
  - destruct (String.eqb_spec (pattern c) "") as [He|Hne].
    + split; [discriminate | intros [H _]; contradiction].
    + destruct (compiles (pattern c)).
      * split; auto.
      * split; [discriminate | intros [_ H]; discriminate].
  - destruct (String.eqb_spec (propertyName c) "") as [He|Hne].
    + split; [discriminate | intros [H _]; contradiction].
    + destruct (propertyOperator c) eqn:Hop.
      * destruct (String.eqb_spec (propertyValue c) "") as [Hv|Hv].
        -- split; [discriminate|]. intros [_ [H|H]]; [discriminate|contradiction].
        -- split; auto.
      * destruct (String.eqb_spec (propertyValue c) "") as [Hv|Hv].
        -- split; [discriminate|]. intros [_ [H|H]]; [discriminate|contradiction].
        -- split; auto.
      * split; auto.
Qed.

Lemma firstInvalid_None (compiles : string -> bool) (cs : list Condition) :
  Modal.firstInvalid compiles cs = None <->
  forall c, In c cs -> wellFormed compiles c.
Proof.
  induction cs as [|c cs IH]; simpl.
  - split; [intros _ c [] | reflexivity].
  - destruct (Modal.validateCondition compiles c) eqn:Hc.
    + split; [discriminate|]. intros H.
      assert (Hwf : wellFormed compiles c) by (apply H; left; reflexivity).
      apply validateCondition_None in Hwf. congruence.
    + apply validateCondition_None in Hc. rewrite IH. split.
      * intros H x [<-|Hx]; [exact Hc | now apply H].
      * intros H x Hx. apply H. right; exact Hx.
Qed.

Lemma find_duplicate_None (h : Host) (group : Group) (name : string)
      (current : list Group) :
  find (Modal.isDuplicateOf h group name) current = None <->
  ~ nameTaken h group name current.
Proof.
  split.
  - intros Hnone (g & Hin & Hid & Hname & Hsame).
    pose proof (find_none _ _ Hnone g Hin) as Hg.
    unfold Modal.isDuplicateOf in Hg.
    apply string_eqb_false_iff in Hid, Hname.
    rewrite Hid, Hname, Hsame, String.eqb_refl in Hg. discriminate.
  - intros Hfree.
    destruct (find (Modal.isDuplicateOf h group name) current) as [g|] eqn:Hf;
      [|reflexivity].
    exfalso. apply Hfree. apply find_some in Hf. destruct Hf as [Hin Hg].
    unfold Modal.isDuplicateOf in Hg.
    apply andb_true_iff in Hg. destruct Hg as [Hid Hg].
    apply andb_true_iff in Hg. destruct Hg as [Hname Hsame].
    apply negb_true_iff, string_eqb_false_iff in Hid, Hname.
    apply String.eqb_eq in Hsame.
    exists g. auto.
Qed.

(** X18.  The dialog accepts a group exactly when the trimmed name is not
    empty, no other group of the panel carries the name up to case and
    blanks, every condition is well formed, and a group coloured by a
    property names that property; the accepted group takes the trimmed name
    and the edited fields and keeps identifier, enabled flag and priority.
    An empty condition list is accepted. *)
Theorem dialog_accepts_well_formed_groups
        (h : Host) (compiles : string -> bool)
        (group : Group) (current : list Group) (form : Modal.Form)
        (saved : Group) :
  Modal.handleSave h compiles group current form = Modal.Accepted saved <->
  trim h (Modal.name form) <> ""
  /\ ~ nameTaken h group (Modal.name form) current
  /\ (forall c, In c (Modal.form_conditions form) -> wellFormed compiles c)
  /\ (Modal.form_usePropertyAsColor form = true ->
      Modal.form_propertyNameForColor form <> "")
  /\ saved = mkGroup (group_id group) (trim h (Modal.name form))
                     (Modal.form_colorId form)
                     (Modal.form_usePropertyAsColor form)
                     (Modal.form_propertyNameForColor form)
                     (enabled group) (priority group)
                     (Modal.form_conditions form).
Proof.
  unfold Modal.handleSave.
  destruct (String.eqb_spec (trim h (Modal.name form)) "") as [Hn|Hn].
  { split; [discriminate | intros [H _]; contradiction]. }
  destruct (find (Modal.isDuplicateOf h group (Modal.name form)) current)
    as [dup|] eqn:Hdup.
  { split; [discriminate|]. intros (_ & Hfree & _).
    apply find_duplicate_None in Hfree. congruence. }
  apply find_duplicate_None in Hdup.
  destruct (Modal.firstInvalid compiles (Modal.form_conditions form))
    as [msg|] eqn:Hconds.
  { split; [discriminate|]. intros (_ & _ & Hwf & _).
    apply firstInvalid_None in Hwf. congruence. }
  pose proof (proj1 (firstInvalid_None _ _) Hconds) as Hwf. clear Hconds.
  destruct (Modal.form_usePropertyAsColor form) eqn:Huse; simpl andb.
  - destruct (String.eqb_spec (Modal.form_propertyNameForColor form) "")
      as [Hp|Hp].
    + split; [discriminate|]. intros (_ & _ & _ & Hprop & _).
      exfalso. now apply Hprop.
    + split.
      * intros [= <-]. repeat split; auto.
      * intros (_ & _ & _ & _ & ->). reflexivity.
  - split.
    + intros [= <-]. repeat split; auto. discriminate.
    + intros (_ & _ & _ & _ & ->). reflexivity.
Qed.

(** A renamed group without conditions is accepted. *)
Lemma dialog_accepts_well_formed_groups_witness :
  Modal.handleSave Scenario.vault (fun _ => true) Scenario.byPalette
                   (groups Scenario.settings)
                   (Modal.mkForm " Notes " "c1" false "" [])
  = Modal.Accepted (mkGroup "g2" "Notes" "c1" false "" true 1 []).
Proof.
  apply (proj2 (dialog_accepts_well_formed_groups
                  Scenario.vault (fun _ => true) Scenario.byPalette
                  (groups Scenario.settings)
                  (Modal.mkForm " Notes " "c1" false "" [])
                  (mkGroup "g2" "Notes" "c1" false "" true 1 []))).
  split; [discriminate|]. split.
  - intros (g & [<-|[<-|[]]] & Hid & _ & Hsame);
      [now apply Hid | vm_compute in Hsame; discriminate].
  - split; [intros c []|]. split; [discriminate | reflexivity].
Defined.

(** ** Editing the palette *)

Lemma existsb_false_iff {A : Type} (f : A -> bool) (l : list A) :
  existsb f l = false <-> forall x, In x l -> f x = false.
Proof.
  induction l as [|x l IH]; simpl.
  - split; [intros _ x [] | reflexivity].
  - rewrite orb_false_iff, IH. split.
    + intros [Hx Hl] y [<-|Hy]; auto.
    + intros H. split; [apply H; left; reflexivity|].
      intros y Hy. apply H. right; exact Hy.
Qed.

Lemma find_color_by_id (l : list Color) (c : Color) :
  NoDup (map color_id l) -> In c l ->
  find (fun x => String.eqb (color_id x) (color_id c)) l = Some c.
Proof.
  induction l as [|x l IH]; intros Hnd Hin; [contradiction|].
  inversion Hnd as [|? ? Hx Hl]; subst. simpl.
  destruct Hin as [->|Hin]; [now rewrite String.eqb_refl|].
  destruct (String.eqb_spec (color_id x) (color_id c)) as [Heq|_].
  - exfalso. apply Hx. rewrite Heq. now apply in_map.
  - now apply IH.
Qed.

Lemma color_eq (a b : Color) :
  color_id a = color_id b -> color_name a = color_name b ->
  color_value a = color_value b -> a = b.
Proof.
  destruct a, b; simpl; intros -> -> ->; reflexivity.
Qed.

(** What the test of the effect says about one edited colour. *)
Lemma unchanged_color (saved : list Color) (c : Color) :
  match find (fun x => String.eqb (color_id x) (color_id c)) saved with
  | None => true
  | Some x =>
      negb (String.eqb (color_name x) (color_name c))
      || negb (String.eqb (color_value x) (color_value c))
  end = false ->
  In c saved.
Proof.
  destruct (find _ saved) as [x|] eqn:Hf; [|discriminate].
  rewrite orb_false_iff, !negb_false_iff, !String.eqb_eq. intros [Hn Hv].
  apply find_some in Hf. destruct Hf as [Hin Hid].
  apply String.eqb_eq in Hid.
  now rewrite <- (color_eq x c Hid Hn Hv).
Qed.

(** X19.  With identifiers that are unique in the edited palette and in the
    saved one, the panel reports unsaved changes exactly when the edited
    palette is not a rearrangement of the saved palette: any colour added,
    removed, renamed or revalued is seen, a mere change of order is not. *)
Theorem changes_are_detected (edited saved : list Color) :
  NoDup (map color_id edited) ->
  NoDup (map color_id saved) ->
  (Editor.paletteChanged edited saved = false <-> Permutation edited saved).
Proof.
  intros Hed Hsv. unfold Editor.paletteChanged. split.
  - destruct (Nat.eqb_spec (length edited) (length saved)) as [Hlen|];
      simpl negb; cbv iota; [|discriminate].
    rewrite existsb_false_iff. intros Hsame.
    apply NoDup_Permutation_bis.
    + eapply NoDup_map_inv; exact Hed.
    + rewrite Hlen. apply le_n.
    + intros c Hc. apply unchanged_color. now apply Hsame.
  - intros Hperm.
    rewrite (Permutation_length Hperm), Nat.eqb_refl. simpl negb. cbv iota.
    apply existsb_false_iff. intros c Hc.
    rewrite (find_color_by_id saved c Hsv)
      by (eapply Permutation_in; eauto).
    now rewrite !String.eqb_refl.
Qed.

(** The palette with [blue] removed differs from the saved one; the saved
    palette itself does not. *)
Lemma changes_are_detected_witness :
  Editor.paletteChanged (palette SaveScenario.before) (palette SaveScenario.before)
  = false
  /\ Editor.paletteChanged SaveScenario.edited (palette SaveScenario.before)
     = true.
Proof.
  assert (Hnd : NoDup (map color_id (palette SaveScenario.before))).
  { simpl. repeat constructor; simpl; intros H;
      repeat destruct H as [H|H]; try discriminate; exact H. }
  split.
  - exact (proj2 (changes_are_detected _ _ Hnd Hnd) (Permutation_refl _)).
  - reflexivity.
Defined.

Lemma validateAndNormalizeHex_canonical (h : Host) (s r : string) :
  Panel.validateAndNormalizeHex h s = Some r ->
  canonicalHex r
  /\ exists d, String.length d = 6%nat /\ JS.allHex d = true
               /\ JS.toUpperCase d = d /\ r = String "#" d.
Proof.
  rewrite validateAndNormalizeHex_stripHash. cbv zeta.
  set (d := stripHash (trim h s)).
  destruct (JS.testHex 6 d) eqn:H6.
  - apply testHex_iff in H6. destruct H6 as [Hlen Hhex]. intros [= <-].
    split; [now apply canonicalHex_upper|].
    exists (JS.toUpperCase d). rewrite toUpperCase_length, toUpperCase_idem.
    repeat split; auto. now apply toUpperCase_hex.
  - destruct (JS.testHex 3 d) eqn:H3; [|discriminate].
    apply testHex_iff in H3. destruct H3 as [Hlen Hhex]. intros [= <-].
    assert (Hlen2 : String.length (JS.doubleChars d) = 6%nat)
      by (rewrite doubleChars_length, Hlen; reflexivity).
    assert (Hhex2 : JS.allHex (JS.doubleChars d) = true)
      by now apply doubleChars_hex.
    split; [now apply canonicalHex_upper|].
    exists (JS.toUpperCase (JS.doubleChars d)).
    rewrite toUpperCase_length, toUpperCase_idem.
    repeat split; auto. now apply toUpperCase_hex.
Qed.

(** X20.  Normalising is idempotent: on a host whose [trim] leaves a
    normalised colour as it is, the palette editor maps every colour it has
    produced to itself. *)
Theorem normalized_hex_is_a_fixed_point (h : Host) (s r : string) :
  Panel.validateAndNormalizeHex h s = Some r ->
  trim h r = r ->
  Panel.validateAndNormalizeHex h r = Some r.
Proof.
  intros Hr Htrim.
  destruct (validateAndNormalizeHex_canonical h s r Hr)
    as (_ & d & Hlen & Hhex & Hup & ->).
  rewrite validateAndNormalizeHex_stripHash. cbv zeta.
  rewrite Htrim, stripHash_hash.
  rewrite (proj2 (testHex_iff 6 d)) by auto.
  simpl append. now rewrite Hup.
Qed.

Lemma normalized_hex_is_a_fixed_point_witness :
  Panel.validateAndNormalizeHex Scenario.vault "#AABBCC" = Some "#AABBCC".
Proof.
  exact (normalized_hex_is_a_fixed_point
           Scenario.vault " #abc " "#AABBCC" eq_refl eq_refl).
Defined.

(** X21.  Text typed in the hexadecimal field reaches the palette only in
    normalised form: text that is no colour leaves the whole state as it is,
    and after any input every colour of the palette is one it held before
    or the edited colour with a value of the form [#RRGGBB] in upper case;
    the identifiers and their order do not change. *)
Theorem hex_input_stores_normalized_values
        (h : Host) (st : Editor.State) (color : Color) (text : string) :
  (Panel.validateAndNormalizeHex h text = None ->
   Editor.onColorHexInputChange h st color text = st)
  /\ (forall c, In c (Editor.palette
                        (Editor.onColorHexInputChange h st color text)) ->
                In c (Editor.palette st)
                \/ (color_id c = color_id color
                    /\ color_name c = color_name color
                    /\ canonicalHex (color_value c)))
  /\ map color_id (Editor.palette
                     (Editor.onColorHexInputChange h st color text))
     = map color_id (Editor.palette st).
Proof.
  unfold Editor.onColorHexInputChange.
  destruct (Panel.validateAndNormalizeHex h text) as [r|] eqn:Hr.
  2: { split; [reflexivity|]. split; [intros c Hc; left; exact Hc | reflexivity]. }
  destruct (validateAndNormalizeHex_canonical h text r Hr)
    as (Hcanon & d & _ & _ & _ & Hd).
  assert (Hne : String.eqb r "" = false) by (rewrite Hd; reflexivity).
  rewrite Hne. simpl negb. cbv iota.
  split; [discriminate|]. unfold Editor.onColorValueChange.
  simpl Editor.palette. split.
  - intros c Hc. apply in_map_iff in Hc. destruct Hc as (x & <- & Hx).
    destruct (String.eqb (color_id x) (color_id color)).
    + right. split; [reflexivity|]. split; [reflexivity | exact Hcanon].
    + left; exact Hx.
  - rewrite map_map. apply map_ext. intros x.
    destruct (String.eqb_spec (color_id x) (color_id color)) as [->|];
      reflexivity.
Qed.

Lemma dropErrors_shows_first (st : Editor.State) (id : string) :
  showsFirstError (Editor.dropErrors st id).
Proof. reflexivity. Qed.

Lemma dropErrors_clears (st : Editor.State) (id : string) (e : Panel.ColorError) :
  In e (Editor.colorErrorQueue (Editor.dropErrors st id)) ->
  In e (Editor.colorErrorQueue st) /\ ~ In id (Panel.colorIds e).
Proof.
  unfold Editor.dropErrors. simpl. rewrite filter_In.
  intros [Hin Hno]. split; [exact Hin|].
  unfold Editor.mentions in Hno. apply negb_true_iff in Hno.
  intros Hid. rewrite existsb_false_iff in Hno.
  specialize (Hno id Hid). rewrite String.eqb_refl in Hno. discriminate.
Qed.

(** X22.  The error shown is always the first of the queue: every palette
    handler and the outcome of a save keep that, starting from a state that
    has it.  When the name of a colour named in the shown error is edited,
    every queued error that names the colour is dismissed and only queued
    errors remain. *)
Theorem shown_error_is_first_of_queue
        (h : Host) (st : Editor.State) (color : Color) (text : string) :
  showsFirstError st ->
  showsFirstError (Editor.onColorValueChange st color text)
  /\ showsFirstError (Editor.onColorHexInputChange h st color text)
  /\ showsFirstError (Editor.onColorNameChange st color text)
  /\ showsFirstError (Editor.onAddColor st text)
  /\ showsFirstError (Editor.onRemoveColor st color)
  /\ (forall result st',
         Editor.afterSave st result = Some st' -> showsFirstError st')
  /\ (forall active,
         Editor.activeError st = Some active ->
         In (color_id color) (Panel.colorIds active) ->
         forall e,
           In e (Editor.colorErrorQueue (Editor.onColorNameChange st color text)) ->
           In e (Editor.colorErrorQueue st)
           /\ ~ In (color_id color) (Panel.colorIds e)).
Proof.
  intros Hst.
  assert (Hvalue : forall v, showsFirstError (Editor.onColorValueChange st color v)).
  { intros v. unfold Editor.onColorValueChange, showsFirstError.
    simpl Editor.activeError. simpl Editor.colorErrorQueue.
    destruct (Editor.activeError st) as [active|]; [|exact Hst].
    destruct (Editor.mentions active (color_id color)
              && Editor.isInvalidHex active); [reflexivity | exact Hst]. }
  split; [apply Hvalue|]. split.
  { unfold Editor.onColorHexInputChange.
    destruct (Panel.validateAndNormalizeHex h text) as [r|]; [|exact Hst].
    destruct (negb (String.eqb r "")); [apply Hvalue | exact Hst]. }
  split.
  { unfold Editor.onColorNameChange, showsFirstError.
    simpl Editor.activeError. simpl Editor.colorErrorQueue.
    destruct (Editor.activeError st) as [active|]; [|exact Hst].
    destruct (Editor.mentions active (color_id color));
      [reflexivity | exact Hst]. }
  split; [exact Hst|]. split; [exact Hst|]. split.
  { intros result st'. destruct result; simpl; intros [= <-]; reflexivity. }
  intros active Hactive Hnamed e.
  unfold Editor.onColorNameChange. simpl Editor.colorErrorQueue.
  rewrite Hactive.
  assert (Hm : Editor.mentions active (color_id color) = true).
  { unfold Editor.mentions. apply existsb_exists.
    exists (color_id color). split; [exact Hnamed | apply String.eqb_refl]. }
  rewrite Hm. apply dropErrors_clears.
Qed.

(** After the rejected save of the palette of the scenario the shown error
    is the first of the two that are queued. *)
Lemma shown_error_is_first_of_queue_witness :
  match Editor.afterSave
          (Editor.mkState PaletteScenario.conflicts [] None)
          (Panel.onSave PaletteScenario.host defaultSettings
                        PaletteScenario.conflicts)
  with
  | Some st' =>
      showsFirstError st' /\ length (Editor.colorErrorQueue st') = 2%nat
  | None => False
  end.
Proof.
  pose proof (proj1 (proj2 (proj2 (proj2 (proj2 (proj2
                (shown_error_is_first_of_queue
                   PaletteScenario.host
                   (Editor.mkState PaletteScenario.conflicts [] None)
                   (mkColor "a" "Red " "#12") "Crimson" eq_refl)))))))
    as Hsave.
  specialize (Hsave (Panel.onSave PaletteScenario.host defaultSettings
                                  PaletteScenario.conflicts)).
  destruct (Editor.afterSave
              (Editor.mkState PaletteScenario.conflicts [] None)
              (Panel.onSave PaletteScenario.host defaultSettings
                            PaletteScenario.conflicts))
    as [st'|] eqn:Hafter.
  - split; [exact (Hsave st' eq_refl)|].
    vm_compute in Hafter. injection Hafter as <-. reflexivity.
  - vm_compute in Hafter. discriminate.
Defined.

(** * How the handlers compose with the resolver *)

Lemma invalidHexErrors_nil (h : Host) (pal : list Color) :
  Panel.invalidHexErrors h pal = [] ->
  forall c, In c pal -> JS.testHashHex6 (trim h (color_value c)) = true.
Proof.
  intros Hnil c Hc.
  destruct (JS.testHashHex6 (trim h (color_value c))) eqn:Htest; [reflexivity|].
  exfalso.
  assert (Hin : In (Panel.mkColorError
                      [color_id c]
                      ("Invalid hex color: " ++ trim h (color_value c))
                      Panel.InvalidHex)
                   (Panel.invalidHexErrors h pal)).
  { unfold Panel.invalidHexErrors. apply in_flat_map. exists c.
    split; [exact Hc|]. rewrite Htest. left; reflexivity. }
  rewrite Hnil in Hin. exact Hin.
Qed.

(** X23.  After a successful save no manual colour dangles: every manual
    colour that is left resolves to a palette class for which the style
    sheet generated from the saved palette has a rule, and the value of that
    rule, trimmed, has the form [#RRGGBB]. *)
Theorem saved_manual_colors_have_rules
        (h : Host) (s s' : Settings) (pal : list Color)
        (path : string) (fc : FileColor) :
  Panel.onSave h s pal = Panel.Saved s' ->
  Plugin.findManual s' path = Some fc ->
  fc_color fc <> "" ->
  (forall h', Plugin.resolveColor h' s' path = (Some (fc_color fc), false))
  /\ exists rule,
       In rule (Plugin.generateColorStyles s')
       /\ Plugin.rule_class rule = "file-color-color-" ++ fc_color fc
       /\ JS.testHashHex6 (trim h (Plugin.rule_value rule)) = true.
Proof.
  intros Hsave Hfind Hcol.
  split; [intros h'; now apply resolveColor_manual|].
  unfold Panel.onSave in Hsave.
  destruct (Panel.collectNames h pal []) as [o|]; [|discriminate].
  destruct (Panel.invalidHexErrors h pal ++ Panel.duplicateNameErrors h o)%list
    as [|e errors] eqn:Herr; [|discriminate].
  apply app_eq_nil in Herr. destruct Herr as [Hhex _].
  simpl in Hsave. injection Hsave as <-.
  unfold Plugin.findManual in Hfind. simpl fileColors in Hfind.
  apply find_some in Hfind. destruct Hfind as [Hin _].
  apply filter_In in Hin. destruct Hin as [_ Hkept].
  destruct (find (fun color => String.eqb (fc_color fc) (color_id color)) pal)
    as [color|] eqn:Hcolor; [|discriminate].
  apply find_some in Hcolor. destruct Hcolor as [Hpal Hid].
  apply String.eqb_eq in Hid.
  exists (Plugin.mkStyleRule ("file-color-color-" ++ color_id color)
                             (color_value color)).
  split; [|split].
  - unfold Plugin.generateColorStyles. simpl palette.
    apply in_map_iff. exists color. split; [reflexivity | exact Hpal].
  - simpl. now rewrite Hid.
  - simpl. now apply (invalidHexErrors_nil h pal Hhex).
Qed.

(** After [blue] is removed, the colour of [a.md] still has its rule. *)
Lemma saved_manual_colors_have_rules_witness :
  exists rule,
    In rule (Plugin.generateColorStyles SaveScenario.after)
    /\ Plugin.rule_class rule = "file-color-color-c1"
    /\ JS.testHashHex6 (trim SaveScenario.host (Plugin.rule_value rule)) = true.
Proof.
  exact (proj2 (saved_manual_colors_have_rules
                  SaveScenario.host SaveScenario.before SaveScenario.after
                  SaveScenario.edited "a.md" (mkFileColor "a.md" "c1")
                  eq_refl eq_refl ltac:(discriminate))).
Defined.

Lemma find_filter_kept {A : Type} (f keep : A -> bool) (l : list A) :
  (forall x, In x l -> f x = true -> keep x = true) ->
  find f (filter keep l) = find f l.
Proof.
  induction l as [|x l IH]; intros H; [reflexivity|]. simpl.
  assert (Hl : forall y, In y l -> f y = true -> keep y = true)
    by (intros y Hy; apply H; right; exact Hy).
  destruct (keep x) eqn:Hk; simpl.
  - destruct (f x); [reflexivity | now apply IH].
  - destruct (f x) eqn:Hf; [|now apply IH].
    rewrite (H x (or_introl eq_refl) Hf) in Hk. discriminate.
Qed.

Lemma find_filter_dropped {A : Type} (f keep : A -> bool) (l : list A) :
  (forall x, In x l -> f x = true -> keep x = false) ->
  find f (filter keep l) = None.
Proof.
  intros H.
  destruct (find f (filter keep l)) as [x|] eqn:Hf; [|reflexivity].
  apply find_some in Hf. destruct Hf as [Hin Hfx].
  apply filter_In in Hin. destruct Hin as [Hin Hk].
  rewrite (H x Hin Hfx) in Hk. discriminate.
Qed.

(** X24.  Deleting the vault item at [p] leaves no manual colour for [p] or
    for any path that starts with [p], and the manual colour of every other
    path is the entry it was before; the groups still apply to all paths. *)
Theorem delete_clears_manual_colors (s : Settings) (p q : string) :
  (JS.startsWith q p = true ->
   Plugin.findManual (Plugin.onDelete s p) q = None
   /\ forall h, Plugin.resolveColor h (Plugin.onDelete s p) q
                = Plugin.groupLoop h q (Plugin.enabledGroups s) (None, false))
  /\ (JS.startsWith q p = false ->
      Plugin.findManual (Plugin.onDelete s p) q = Plugin.findManual s q
      /\ forall h, Plugin.resolveColor h (Plugin.onDelete s p) q
                   = Plugin.resolveColor h s q).
Proof.
  split.
  - intros Hpre.
    assert (Hnone : Plugin.findManual (Plugin.onDelete s p) q = None).
    { unfold Plugin.findManual, Plugin.onDelete. simpl fileColors.
      apply find_filter_dropped. intros x _ Hx.
      apply String.eqb_eq in Hx. rewrite Hx, Hpre. reflexivity. }
    split; [exact Hnone|].
    intros h. unfold Plugin.resolveColor. rewrite Hnone. reflexivity.
  - intros Hpre.
    assert (Hsame : Plugin.findManual (Plugin.onDelete s p) q
                    = Plugin.findManual s q).
    { unfold Plugin.findManual, Plugin.onDelete. simpl fileColors.
      apply find_filter_kept. intros x _ Hx.
      apply String.eqb_eq in Hx. rewrite Hx, Hpre. reflexivity. }
    split; [exact Hsame|].
    intros h. unfold Plugin.resolveColor. rewrite Hsame. reflexivity.
Qed.

(** The folder [foo] is deleted: [foo/a.md] and [foobar.md] lose their
    manual colour, [bar/foo] keeps it. *)
Lemma delete_clears_manual_colors_witness :
  Plugin.findManual (Plugin.onDelete SaveScenario.coloured "foo") "foobar.md"
  = None
  /\ Plugin.findManual (Plugin.onDelete SaveScenario.coloured "foo") "bar/foo"
     = Some (mkFileColor "bar/foo" "c1").
Proof.
  split.
  - exact (proj1 (proj1 (delete_clears_manual_colors
                           SaveScenario.coloured "foo" "foobar.md") eq_refl)).
  - exact (proj1 (proj2 (delete_clears_manual_colors
                           SaveScenario.coloured "foo" "bar/foo") eq_refl)).
Defined.

Lemma filter_enabled_toggle (groupId : string) (gs : list Group) :
  (forall g, In g gs -> group_id g = groupId -> enabled g = true) ->
  filter enabled (Groups.onGroupToggle groupId gs)
  = filter enabled (Groups.onRemoveGroup groupId gs).
Proof.
  unfold Groups.onGroupToggle, Groups.onRemoveGroup.
  induction gs as [|g gs IH]; intros Hon; [reflexivity|]. simpl.
  assert (Hrest : forall x, In x gs -> group_id x = groupId -> enabled x = true)
    by (intros x Hx; apply Hon; right; exact Hx).
  destruct (String.eqb_spec (group_id g) groupId) as [Hid|Hid]; simpl.
  - rewrite (Hon g (or_introl eq_refl) Hid). simpl. now apply IH.
  - destruct (enabled g); [f_equal|]; now apply IH.
Qed.

(** X25.  Switching an enabled group off with its checkbox has, for every
    file, the effect of removing the group: the resolver gives the same
    result for the toggled list and for the list without the group. *)
Theorem toggling_off_equals_removing
        (h : Host) (s : Settings) (path groupId : string) :
  (forall g, In g (groups s) -> group_id g = groupId -> enabled g = true) ->
  Plugin.resolveColor h
    (setGroups s (Groups.onGroupToggle groupId (groups s))) path
  = Plugin.resolveColor h
      (setGroups s (Groups.onRemoveGroup groupId (groups s))) path.
Proof.
  intros Hon.
  unfold Plugin.resolveColor, Plugin.findManual, Plugin.enabledGroups.
  simpl fileColors. simpl groups.
  rewrite filter_enabled_toggle by exact Hon. reflexivity.
Qed.

Lemma toggling_off_equals_removing_witness :
  Plugin.resolveColor Scenario.colouredVault
    (setGroups Scenario.taskSettings
               (Groups.onGroupToggle "g3" (groups Scenario.taskSettings)))
    Scenario.taskPath
  = Plugin.resolveColor Scenario.colouredVault
      (setGroups Scenario.taskSettings
                 (Groups.onRemoveGroup "g3" (groups Scenario.taskSettings)))
      Scenario.taskPath.
Proof.
  refine (toggling_off_equals_removing
            Scenario.colouredVault Scenario.taskSettings Scenario.taskPath
            "g3" _).
  intros g [<-|[<-|[]]] _; reflexivity.
Defined.

(** ** What a move does to the order *)

Lemma sorted_nth_order (l : list Group) (i j : nat) (a b : Group) :
  StronglySorted byPriorityDesc l ->
  nth_error l i = Some a -> nth_error l j = Some b -> (i < j)%nat ->
  priority b <= priority a.
Proof.
  intros Hs. revert i j. induction Hs as [|x l Hs IH Hx]; intros i j Ha Hb Hij.
  - destruct i; discriminate.
  - destruct j as [|j]; [lia|]. simpl in Hb.
    destruct i as [|i]; simpl in Ha.
    + injection Ha as ->. rewrite Forall_forall in Hx.
      apply (Hx b). eapply nth_error_In; eauto.
    + apply (IH i j); auto. lia.
Qed.

Lemma stands_before (gs : list Group) (a b : Group) :
  In a gs -> In b gs -> priority b < priority a ->
  exists m n, (m < n)%nat /\ sortedAt gs m = Some a /\ sortedAt gs n = Some b.
Proof.
  intros Ha Hb Hlt. unfold sortedAt.
  apply sortByPriority_In, In_nth_error in Ha. destruct Ha as [m Hm].
  apply sortByPriority_In, In_nth_error in Hb. destruct Hb as [n Hn].
  exists m, n. split; [|split; assumption].
  destruct (Nat.lt_trichotomy m n) as [Hlt'|[Heq|Hgt]]; [exact Hlt'| |].
  - subst n. rewrite Hm in Hn. injection Hn as ->. lia.
  - pose proof (sorted_nth_order _ n m b a (sortByPriority_sorted gs) Hn Hm Hgt).
    lia.
Qed.

Lemma withPriorities_members (gs : list Group) (g n : Group) (pg pn : Z) :
  In g gs -> In n gs -> group_id g <> group_id n ->
  In (setPriority g pg) (withPriorities (group_id g) pg (group_id n) pn gs)
  /\ In (setPriority n pn) (withPriorities (group_id g) pg (group_id n) pn gs).
Proof.
  intros Hg Hn Hne. unfold withPriorities. split; apply in_map_iff.
  - exists g. rewrite String.eqb_refl. auto.
  - exists n. split; [|exact Hn].
    destruct (String.eqb_spec (group_id n) (group_id g)); [congruence|].
    now rewrite String.eqb_refl.
Qed.

(** X26.  With unique identifiers and a neighbour whose priority is a safe
    integer, a move is visible in the ordering: after moving a group up it
    stands before the group that preceded it, and after moving it down it
    stands after the group that followed it. *)
Theorem move_changes_the_order (gs : list Group) (g : Group) (i : nat) :
  NoDup (map group_id gs) ->
  sortedAt gs i = Some g ->
  (forall higher,
      (0 < i)%nat -> sortedAt gs (i - 1) = Some higher ->
      JS.isSafeInteger (priority higher) ->
      exists gs' a b m n,
        Panel.reorder (group_id g) Panel.Up gs = Panel.Done gs'
        /\ sortedAt gs' m = Some a /\ group_id a = group_id g
        /\ sortedAt gs' n = Some b /\ group_id b = group_id higher
        /\ (m < n)%nat)
  /\ (forall lower,
         sortedAt gs (S i) = Some lower ->
         JS.isSafeInteger (priority lower) ->
         exists gs' a b m n,
           Panel.reorder (group_id g) Panel.Down gs = Panel.Done gs'
           /\ sortedAt gs' m = Some a /\ group_id a = group_id lower
           /\ sortedAt gs' n = Some b /\ group_id b = group_id g
           /\ (m < n)%nat).
Proof.
  intros Hnd Hg.
  pose proof (sortedAt_In gs i g Hg) as Hin.
  split.
  - intros higher Hpos Hh Hsafe.
    pose proof (sortedAt_In gs _ higher Hh) as Hinh.
    assert (Hne : group_id g <> group_id higher)
      by (apply (distinct_positions gs Hnd i (i - 1)); auto; lia).
    assert (Hle : priority g <= priority higher).
    { apply (sorted_nth_order (sortByPriority gs) (i - 1) i higher g);
        auto using sortByPriority_sorted. lia. }
    destruct (withPriorities_members gs g higher (priority higher + 1)
                                     (priority g) Hin Hinh Hne) as [Ha Hb].
    destruct (stands_before _ _ _ Ha Hb) as (m & n & Hmn & Hm & Hn);
      [simpl; lia|].
    eexists _, _, _, m, n.
    split; [simpl; rewrite (onGroupMoveUp_result gs g higher i Hnd Hg Hpos Hh),
                           (add_one_safe _ Hsafe); reflexivity|].
    split; [exact Hm|]. split; [reflexivity|].
    split; [exact Hn|]. split; [reflexivity | exact Hmn].
  - intros lower Hl Hsafe.
    pose proof (sortedAt_In gs _ lower Hl) as Hinl.
    assert (Hne : group_id g <> group_id lower)
      by (apply (distinct_positions gs Hnd i (S i)); auto).
    assert (Hle : priority lower <= priority g).
    { apply (sorted_nth_order (sortByPriority gs) i (S i) g lower);
        auto using sortByPriority_sorted. }
    destruct (withPriorities_members gs g lower (priority lower - 1)
                                     (priority g) Hin Hinl Hne) as [Hb Ha].
    destruct (stands_before _ _ _ Ha Hb) as (m & n & Hmn & Hm & Hn);
      [simpl; lia|].
    eexists _, _, _, m, n.
    split; [simpl; rewrite (onGroupMoveDown_result gs g lower i Hnd Hg Hl),
                           (sub_one_safe _ Hsafe); reflexivity|].
    split; [exact Hm|]. split; [reflexivity|].
    split; [exact Hn|]. split; [reflexivity | exact Hmn].
Qed.

(** The second of the two groups moved up stands first afterwards. *)
Lemma move_changes_the_order_witness :
  exists gs' a b m n,
    Panel.reorder "B" Panel.Up OrderScenario.both = Panel.Done gs'
    /\ sortedAt gs' m = Some a /\ group_id a = "B"
    /\ sortedAt gs' n = Some b /\ group_id b = "A"
    /\ (m < n)%nat.
Proof.
  exact (proj1 (move_changes_the_order
                  OrderScenario.both OrderScenario.second 1
                  order_scenario_unique_ids eq_refl)
               OrderScenario.first (le_n 1) eq_refl eq_refl).
Defined.
